(** * TwinSync Spot: a shallow embedding of the pure core

    The development follows the Python sources module by module:
    - [Datetime]      the fields of [datetime.datetime] the code reads;
    - [PyCounter]     [collections.Counter] as an insertion-ordered dict;
    - [Gamification]  app/core/gamification.py;
    - [Memory]        app/core/memory.py;
    - [Camera]        app/camera/manager.py and app/camera/ha_adapter.py;
    - [Analyzer]      app/core/analyzer.py ([SpotAnalyzer.analyze]);
    - [Database]      app/db/sqlite.py (the [api_tokens] table);
    - [MemoryStats], [MemoryContext], [Enrich]   the rest of memory.py;
    - [GamificationDb], [SpotsDb]   app/db/sqlite.py (the [gamification]
                      and [spots] tables);
    - [CameraUrls], [CustomCameras]   the RTSP, MJPEG and ONVIF adapters;
    - [ResetRoute], [AuthRoutes]   app/api/routes.py ([reset_spot]) and
                      app/api/auth.py.

    Python [int] is [Z]; [str] is [string]; [Optional[T]] is [option T];
    a dict whose iteration order is observable is an association list in
    insertion order, any other dict is a [gmap]. *)

From Stdlib Require Import ZArith QArith Lia Ascii.
From stdpp Require Import base option list strings pretty gmap sorting.

Local Open Scope string_scope.
Local Open Scope list_scope.
Local Open Scope Z_scope.

(* ===================================================================== *)
(** ** Python list indexing                                               *)
(* ===================================================================== *)

(** [l[i]] for a Python list: negative indices count from the end, and an
    index out of range raises [IndexError] (here [None]). *)
Definition py_index {A} (l : list A) (i : Z) : option A :=
  if 0 <=? i then l !! Z.to_nat i
  else if - Z.of_nat (length l) <=? i then l !! Z.to_nat (Z.of_nat (length l) + i)
  else None.

(* ===================================================================== *)
(** ** datetime                                                           *)
(* ===================================================================== *)

Module Datetime.

(** The fields of a [datetime.datetime] value. *)
Record datetime := mk_datetime {
  year : Z; month : Z; day : Z; hour : Z; minute : Z; second : Z
}.

Inductive weekday :=
  Monday | Tuesday | Wednesday | Thursday | Friday | Saturday | Sunday.

#[global] Instance weekday_eq_dec : EqDecision weekday.
Proof. solve_decision. Defined.

(** [strftime("%A")], the full weekday name in the C locale. *)
Definition weekday_name (d : weekday) : string :=
  match d with
  | Monday => "Monday" | Tuesday => "Tuesday" | Wednesday => "Wednesday"
  | Thursday => "Thursday" | Friday => "Friday" | Saturday => "Saturday"
  | Sunday => "Sunday"
  end.

Definition is_leap (y : Z) : bool :=
  (y mod 4 =? 0) && (negb (y mod 100 =? 0) || (y mod 400 =? 0)).

(** Number of days in the year before the first day of month [m]. *)
Definition days_before_month (y m : Z) : Z :=
  let common :=
    match m with
    | 1 => 0 | 2 => 31 | 3 => 59 | 4 => 90 | 5 => 120 | 6 => 151
    | 7 => 181 | 8 => 212 | 9 => 243 | 10 => 273 | 11 => 304 | _ => 334
    end in
  if (2 <? m) && is_leap y then common + 1 else common.

(** [date.timetuple().tm_yday]: 1 for January 1st. *)
Definition tm_yday (d : datetime) : Z :=
  days_before_month (year d) (month d) + day d.

(** Number of days before January 1st of year [y] (proleptic Gregorian). *)
Definition days_before_year (y : Z) : Z :=
  let y' := y - 1 in y' * 365 + y' / 4 - y' / 100 + y' / 400.

Definition toordinal (d : datetime) : Z :=
  days_before_year (year d) + tm_yday d.

(** [date.weekday()] is [(toordinal() + 6) % 7] with Monday = 0. *)
Definition weekday_of (d : datetime) : weekday :=
  match (toordinal d + 6) mod 7 with
  | 0 => Monday | 1 => Tuesday | 2 => Wednesday | 3 => Thursday
  | 4 => Friday | 5 => Saturday | _ => Sunday
  end.

(** Midnight of a calendar day. *)
Definition date (y m d : Z) : datetime := mk_datetime y m d 0 0 0.

(** A calendar day at a given hour. *)
Definition at_hour (y m d h : Z) : datetime := mk_datetime y m d h 0 0.

End Datetime.

(* ===================================================================== *)
(** ** app/core/gamification.py                                           *)
(* ===================================================================== *)

Module Gamification.
Import Datetime.

(** [XP_REWARDS] *)
Definition XP_REWARDS : gmap string Z :=
  <["sorted" := 50]> (<["quick_reset" := 75]> (<["reset" := 50]>
  (<["streak_day" := 25]> (<["first_check" := 100]>
  (<["perfect_day" := 200]> ∅))))).

Record Level := mk_level {
  level : Z; level_name : string; level_emoji : string; xp_required : Z
}.

(** [LEVELS] *)
Definition LEVELS : list Level :=
  [ mk_level 1 "Tidy Novice" "🌱" 0;
    mk_level 2 "Clutter Buster" "🧹" 250;
    mk_level 3 "Order Apprentice" "📚" 600;
    mk_level 4 "Chaos Tamer" "⚔️" 1000;
    mk_level 5 "Space Organizer" "🗂️" 1500;
    mk_level 6 "Zen Master" "🧘" 2200;
    mk_level 7 "Tidiness Sage" "🧙" 3000;
    mk_level 8 "Order Keeper" "🛡️" 4000;
    mk_level 9 "Harmony Champion" "🏆" 5500;
    mk_level 10 "Tidiness Transcended ✨" "✨" 7500 ].

Record Achievement := mk_achievement {
  ach_name : string; ach_description : string; ach_emoji : string;
  condition : string; xp_bonus : Z
}.

(** [ACHIEVEMENTS] *)
Definition ACHIEVEMENTS : gmap string Achievement :=
  <["first_blood" := mk_achievement "First Blood"
      "Complete your first spot reset" "🩸" "first_reset" 50]> (
  <["streak_3" := mk_achievement "Hat Trick"
      "Maintain a 3-day streak" "🎩" "streak_3" 75]> (
  <["streak_7" := mk_achievement "Week Warrior"
      "Maintain a 7-day streak" "⚔️" "streak_7" 150]> (
  <["streak_30" := mk_achievement "Monthly Master"
      "Maintain a 30-day streak" "📅" "streak_30" 500]> (
  <["early_bird" := mk_achievement "Early Bird"
      "Complete a reset before 7 AM" "🐦" "reset_before_7am" 50]> (
  <["night_owl" := mk_achievement "Night Owl"
      "Complete a reset after 11 PM" "🦉" "reset_after_11pm" 50]> (
  <["speed_demon" := mk_achievement "Speed Demon"
      "Reset a spot within 5 minutes of check" "⚡"
      "reset_under_5min" 100]> (
  <["perfectionist" := mk_achievement "Perfectionist"
      "Have all spots sorted for a full day" "💎" "perfect_day" 200]> (
  <["centurion" := mk_achievement "Centurion"
      "Complete 100 resets" "💯" "100_resets" 300]> (
  <["usual_suspect" := mk_achievement "Usual Suspect Hunter"
      "Address an item that appeared 10+ times" "🔍"
      "recurring_10" 75]> (
  <["multi_spot" := mk_achievement "Multi-Tasker"
      "Reset 3 spots in one session" "🤹" "reset_3_spots" 100]> (
  <["comeback" := mk_achievement "Comeback Kid"
      "Start a streak after losing one of 5+ days" "🔥" "comeback" 100]>
  ∅))))))))))).

Record Challenge := mk_challenge {
  ch_id : string; ch_name : string; ch_description : string;
  ch_emoji : string; xp_reward : Z
}.

(** [DAILY_CHALLENGES] *)
Definition DAILY_CHALLENGES : list Challenge :=
  [ mk_challenge "speed_run" "Speed Run"
      "Reset any spot within 10 minutes of check" "⏱️" 100;
    mk_challenge "morning_routine" "Morning Routine"
      "Check all spots before noon" "☀️" 150;
    mk_challenge "zero_items" "Spot Zero"
      "Have any spot with 0 items to sort" "🎯" 75;
    mk_challenge "triple_check" "Triple Check"
      "Check the same spot 3 times today" "3️⃣" 100;
    mk_challenge "reset_all" "Clean Sweep"
      "Reset all spots in one day" "🧹" 200;
    mk_challenge "quick_fix" "Quick Fix"
      "Address a recurring item" "🔧" 75;
    mk_challenge "streak_saver" "Streak Saver"
      "Check and reset before breaking streak" "🛡️" 100 ].

(** The dict returned by [calculate_level]; [xp_progress_percent] is a
    Python float, kept here as the exact rational it rounds. *)
Record LevelInfo := mk_level_info {
  li_level : Z; li_name : string; li_emoji : string;
  xp_to_next_level : Z; xp_progress_percent : Q
}.

(** The [for i, level in enumerate(LEVELS)] loop of [calculate_level],
    from index [i] on, [rest] being [LEVELS[i:]]. *)
Fixpoint level_loop (xp_total : Z) (i : nat) (rest : list Level)
    (current_level : Level) (next_level : option Level)
    : Level * option Level :=
  match rest with
  | [] => (current_level, next_level)
  | lv :: rest' =>
      if xp_required lv <=? xp_total
      then level_loop xp_total (S i) rest' lv (LEVELS !! S i)
      else (current_level, next_level)
  end.

(** Python's [min(a, b)]: [b] when [b < a], otherwise [a]. *)
Definition py_min (a b : Q) : Q := if Qle_bool a b then a else b.

(** [calculate_level]; [None] stands for the [IndexError] of [LEVELS[0]]
    on an empty table. *)
Definition calculate_level (xp_total : Z) : option LevelInfo :=
  match LEVELS !! 0%nat with
  | None => None
  | Some first =>
      let '(current_level, next_level) :=
        level_loop xp_total 0 LEVELS first
          (if (1 <? length LEVELS)%nat then LEVELS !! 1%nat else None) in
      let '(xp_to_next, xp_progress) :=
        match next_level with
        | Some nl =>
            let xp_in_level := xp_total - xp_required current_level in
            let xp_for_level := xp_required nl - xp_required current_level in
            (xp_required nl - xp_total,
             if 0 <? xp_for_level
             then ((xp_in_level # Z.to_pos xp_for_level) * 100)%Q
             else 100%Q)
        | None => (0, 100%Q)
        end in
      Some (mk_level_info (level current_level) (level_name current_level)
              (level_emoji current_level) xp_to_next
              (py_min 100 xp_progress))
  end.

(** [calculate_xp_for_action] *)
Definition calculate_xp_for_action (action : string) (streak_days : Z)
    (minutes_since_check : option Z) : Z :=
  let base_xp := default 0 (XP_REWARDS !! action) in
  let base_xp :=
    if bool_decide (action = "reset") && (0 <? streak_days)
    then base_xp + Z.min (streak_days * (XP_REWARDS !!! "streak_day")) 250
    else base_xp in
  let base_xp :=
    match minutes_since_check with
    | Some m =>
        if bool_decide (action = "reset") then
          if m <=? 5 then base_xp + 50
          else if m <=? 30 then base_xp + 25
          else base_xp
        else base_xp
    | None => base_xp
    end in
  base_xp.

(** The keyword arguments of [check_achievement_unlock]. *)
Record Context := mk_context {
  streak_days : Z;
  total_resets : Z;
  reset_time : option datetime;
  minutes_since_check : option Z;
  recurring_item_count : Z;
  spots_reset_in_session : Z;
  lost_streak_days : Z
}.

(** [check_achievement_unlock] *)
Definition check_achievement_unlock (achievement_id : string)
    (ctx : Context) : bool :=
  match ACHIEVEMENTS !! achievement_id with
  | None => false
  | Some achievement =>
      let c := condition achievement in
      if bool_decide (c = "first_reset") then 1 <=? total_resets ctx
      else if bool_decide (c = "streak_3") then 3 <=? streak_days ctx
      else if bool_decide (c = "streak_7") then 7 <=? streak_days ctx
      else if bool_decide (c = "streak_30") then 30 <=? streak_days ctx
      else if bool_decide (c = "reset_before_7am") then
        match reset_time ctx with Some t => hour t <? 7 | None => false end
      else if bool_decide (c = "reset_after_11pm") then
        match reset_time ctx with Some t => 23 <=? hour t | None => false end
      else if bool_decide (c = "reset_under_5min") then
        match minutes_since_check ctx with
        | Some m => m <=? 5 | None => false end
      else if bool_decide (c = "perfect_day") then false
      else if bool_decide (c = "100_resets") then 100 <=? total_resets ctx
      else if bool_decide (c = "recurring_10") then
        10 <=? recurring_item_count ctx
      else if bool_decide (c = "reset_3_spots") then
        3 <=? spots_reset_in_session ctx
      else if bool_decide (c = "comeback") then
        (5 <=? lost_streak_days ctx) && (1 <=? streak_days ctx)
      else false
  end.

(** [get_daily_challenge]; [now] is the value [datetime.now()] would
    return, read only when no date is passed, and [None] stands for an
    [IndexError]. *)
Definition get_daily_challenge (date : option datetime) (now : datetime)
    : option Challenge :=
  let date := default now date in
  let day_of_year := tm_yday date in
  let challenge_index :=
    (year date * 365 + day_of_year) mod Z.of_nat (length DAILY_CHALLENGES) in
  py_index DAILY_CHALLENGES challenge_index.

End Gamification.

(* ===================================================================== *)
(** ** collections.Counter                                                *)
(* ===================================================================== *)

Module PyCounter.
Section Counter.
Context {K : Type} `{EqDecision K}.

(** [counter[k] += 1]: a key already present keeps its place in the
    dict, a new key is added at the end. *)
Fixpoint incr (k : K) (c : list (K * nat)) : list (K * nat) :=
  match c with
  | [] => [(k, 1%nat)]
  | (k', n) :: c' =>
      if decide (k = k') then (k', S n) :: c' else (k', n) :: incr k c'
  end.

(** [counter[k]], which is 0 for a missing key. *)
Fixpoint get (k : K) (c : list (K * nat)) : nat :=
  match c with
  | [] => 0%nat
  | (k', n) :: c' => if decide (k = k') then n else get k c'
  end.

(** [max(rest, key=itemgetter(1))] started from [best]: a later entry
    replaces the best one only when its count is strictly larger. *)
Fixpoint max_by_count (best : K * nat) (rest : list (K * nat)) : K * nat :=
  match rest with
  | [] => best
  | x :: rest' =>
      if (best.2 <? x.2)%nat then max_by_count x rest'
      else max_by_count best rest'
  end.

(** [counter.most_common(1)], which is [heapq.nlargest(1, items)]:
    the empty list for an empty counter, else the first maximum. *)
Definition most_common_1 (c : list (K * nat)) : list (K * nat) :=
  match c with
  | [] => []
  | x :: rest => [max_by_count x rest]
  end.

(** The counter after [counter[k] += 1] for each [k] of [ks] in turn. *)
Definition count_all (ks : list K) : list (K * nat) :=
  foldl (λ c k, incr k c) [] ks.

End Counter.
End PyCounter.

(* ===================================================================== *)
(** ** app/core/memory.py                                                 *)
(* ===================================================================== *)
(** ** Python's str: lower() and strip()                                  *)
(* ===================================================================== *)

Module Unicode.

(** A Python [str] is kept as the bytes of its UTF-8 encoding (a
    surrogate is encoded like any other code point, as the
    [surrogatepass] handler does).  [str.lower] and [str.strip] work on
    code points, with the tables of the Unicode database that CPython
    carries (here version 14.0.0, the one of CPython 3.11). *)

(** What one byte opens: a code point of its own, or a sequence with so
    many continuation bytes to come and these leading bits. *)
Inductive opening := Single (cp : N) | Lead (missing : nat) (bits : N).

(** A byte outside any well-formed sequence stands for itself: it is
    kept as a value above the code points, which no table mentions. *)
Definition stray (b : N) : N := (1114112 + b)%N.

Definition open_byte (b : N) : opening :=
  if (b <? 128)%N then Single b
  else if ((194 <=? b) && (b <=? 223))%N then Lead 1 (b - 192)
  else if ((224 <=? b) && (b <=? 239))%N then Lead 2 (b - 224)
  else if ((240 <=? b) && (b <=? 244))%N then Lead 3 (b - 240)
  else Single (stray b).

Definition is_continuation (b : N) : bool := ((128 <=? b) && (b <=? 191))%N.

(** The smallest code point that needs [n] bytes, and the largest code
    point there is. *)
Definition well_formed (n : nat) (cp : N) : bool :=
  match n with
  | 2%nat => (128 <=? cp)%N
  | 3%nat => (2048 <=? cp)%N
  | _ => ((65536 <=? cp) && (cp <=? 1114111))%N
  end.

(** The code points of a byte string; [pending] holds the bytes of the
    sequence under way, [missing] the number of continuation bytes it
    still needs and [bits] the value read so far. *)
Fixpoint decode_from (pending : list N) (missing : nat) (bits : N)
    (s : string) : list N :=
  match s with
  | EmptyString => stray <$> pending
  | String c s' =>
      let b := N_of_ascii c in
      let restart :=
        match open_byte b with
        | Single cp => cp :: decode_from [] 0 0%N s'
        | Lead m v => decode_from [b] m v s'
        end in
      match missing with
      | O => restart
      | S m =>
          if is_continuation b then
            let bits := (bits * 64 + (b - 128))%N in
            match m with
            | O =>
                (if well_formed (S (length pending)) bits then [bits]
                 else stray <$> (pending ++ [b]))
                ++ decode_from [] 0 0%N s'
            | S _ => decode_from (pending ++ [b]) m bits s'
            end
          else (stray <$> pending) ++ restart
      end
  end.

Definition decode (s : string) : list N := decode_from [] 0 0%N s.

(** The UTF-8 bytes of one code point. *)
Definition encode_cp (cp : N) : list N :=
  if (cp <? 128)%N then [cp]
  else if (cp <? 2048)%N then [192 + cp / 64; 128 + cp mod 64]%N
  else if (cp <? 65536)%N then
    [224 + cp / 4096; 128 + (cp / 64) mod 64; 128 + cp mod 64]%N
  else if (cp <? 1114112)%N then
    [240 + cp / 262144; 128 + (cp / 4096) mod 64; 128 + (cp / 64) mod 64;
     128 + cp mod 64]%N
  else [cp - 1114112]%N.

Definition encode (cps : list N) : string :=
  String.string_of_list_ascii (ascii_of_N <$> (cps ≫= encode_cp)).

(** Membership in a table of ranges. *)
Definition in_ranges (cp : N) (table : list (N * N)) : bool :=
  existsb (λ r : N * N, (r.1 <=? cp)%N && (cp <=? r.2)%N) table.

(** The simple lower-case mappings, in runs: the code points [first],
    [first + step], ..., [last] go to [target], [target + step], ... *)
Definition LOWER : list (N * N * N * N) :=
  [
    (65, 90, 1, 97); (192, 214, 1, 224); (216, 222, 1, 248);
    (256, 302, 2, 257); (306, 310, 2, 307); (313, 327, 2, 314);
    (330, 374, 2, 331); (376, 376, 1, 255); (377, 381, 2, 378);
    (385, 385, 1, 595); (386, 388, 2, 387); (390, 390, 1, 596);
    (391, 391, 1, 392); (393, 394, 1, 598); (395, 395, 1, 396);
    (398, 398, 1, 477); (399, 399, 1, 601); (400, 400, 1, 603);
    (401, 401, 1, 402); (403, 403, 1, 608); (404, 404, 1, 611);
    (406, 406, 1, 617); (407, 407, 1, 616); (408, 408, 1, 409);
    (412, 412, 1, 623); (413, 413, 1, 626); (415, 415, 1, 629);
    (416, 420, 2, 417); (422, 422, 1, 640); (423, 423, 1, 424);
    (425, 425, 1, 643); (428, 428, 1, 429); (430, 430, 1, 648);
    (431, 431, 1, 432); (433, 434, 1, 650); (435, 437, 2, 436);
    (439, 439, 1, 658); (440, 440, 1, 441); (444, 444, 1, 445);
    (452, 452, 1, 454); (453, 453, 1, 454); (455, 455, 1, 457);
    (456, 456, 1, 457); (458, 458, 1, 460); (459, 475, 2, 460);
    (478, 494, 2, 479); (497, 497, 1, 499); (498, 500, 2, 499);
    (502, 502, 1, 405); (503, 503, 1, 447); (504, 542, 2, 505);
    (544, 544, 1, 414); (546, 562, 2, 547); (570, 570, 1, 11365);
    (571, 571, 1, 572); (573, 573, 1, 410); (574, 574, 1, 11366);
    (577, 577, 1, 578); (579, 579, 1, 384); (580, 580, 1, 649);
    (581, 581, 1, 652); (582, 590, 2, 583); (880, 882, 2, 881);
    (886, 886, 1, 887); (895, 895, 1, 1011); (902, 902, 1, 940);
    (904, 906, 1, 941); (908, 908, 1, 972); (910, 911, 1, 973);
    (913, 929, 1, 945); (932, 939, 1, 964); (975, 975, 1, 983);
    (984, 1006, 2, 985); (1012, 1012, 1, 952); (1015, 1015, 1, 1016);
    (1017, 1017, 1, 1010); (1018, 1018, 1, 1019); (1021, 1023, 1, 891);
    (1024, 1039, 1, 1104); (1040, 1071, 1, 1072); (1120, 1152, 2, 1121);
    (1162, 1214, 2, 1163); (1216, 1216, 1, 1231); (1217, 1229, 2, 1218);
    (1232, 1326, 2, 1233); (1329, 1366, 1, 1377); (4256, 4293, 1, 11520);
    (4295, 4295, 1, 11559); (4301, 4301, 1, 11565); (5024, 5103, 1, 43888);
    (5104, 5109, 1, 5112); (7312, 7354, 1, 4304); (7357, 7359, 1, 4349);
    (7680, 7828, 2, 7681); (7838, 7838, 1, 223); (7840, 7934, 2, 7841);
    (7944, 7951, 1, 7936); (7960, 7965, 1, 7952); (7976, 7983, 1, 7968);
    (7992, 7999, 1, 7984); (8008, 8013, 1, 8000); (8025, 8031, 2, 8017);
    (8040, 8047, 1, 8032); (8072, 8079, 1, 8064); (8088, 8095, 1, 8080);
    (8104, 8111, 1, 8096); (8120, 8121, 1, 8112); (8122, 8123, 1, 8048);
    (8124, 8124, 1, 8115); (8136, 8139, 1, 8050); (8140, 8140, 1, 8131);
    (8152, 8153, 1, 8144); (8154, 8155, 1, 8054); (8168, 8169, 1, 8160);
    (8170, 8171, 1, 8058); (8172, 8172, 1, 8165); (8184, 8185, 1, 8056);
    (8186, 8187, 1, 8060); (8188, 8188, 1, 8179); (8486, 8486, 1, 969);
    (8490, 8490, 1, 107); (8491, 8491, 1, 229); (8498, 8498, 1, 8526);
    (8544, 8559, 1, 8560); (8579, 8579, 1, 8580); (9398, 9423, 1, 9424);
    (11264, 11311, 1, 11312); (11360, 11360, 1, 11361); (11362, 11362, 1, 619);
    (11363, 11363, 1, 7549); (11364, 11364, 1, 637); (11367, 11371, 2, 11368);
    (11373, 11373, 1, 593); (11374, 11374, 1, 625); (11375, 11375, 1, 592);
    (11376, 11376, 1, 594); (11378, 11378, 1, 11379); (11381, 11381, 1, 11382);
    (11390, 11391, 1, 575); (11392, 11490, 2, 11393); (11499, 11501, 2, 11500);
    (11506, 11506, 1, 11507); (42560, 42604, 2, 42561); (42624, 42650, 2, 42625);
    (42786, 42798, 2, 42787); (42802, 42862, 2, 42803); (42873, 42875, 2, 42874);
    (42877, 42877, 1, 7545); (42878, 42886, 2, 42879); (42891, 42891, 1, 42892);
    (42893, 42893, 1, 613); (42896, 42898, 2, 42897); (42902, 42920, 2, 42903);
    (42922, 42922, 1, 614); (42923, 42923, 1, 604); (42924, 42924, 1, 609);
    (42925, 42925, 1, 620); (42926, 42926, 1, 618); (42928, 42928, 1, 670);
    (42929, 42929, 1, 647); (42930, 42930, 1, 669); (42931, 42931, 1, 43859);
    (42932, 42946, 2, 42933); (42948, 42948, 1, 42900); (42949, 42949, 1, 642);
    (42950, 42950, 1, 7566); (42951, 42953, 2, 42952); (42960, 42960, 1, 42961);
    (42966, 42968, 2, 42967); (42997, 42997, 1, 42998); (65313, 65338, 1, 65345);
    (66560, 66599, 1, 66600); (66736, 66771, 1, 66776); (66928, 66964, 2, 66967);
    (66929, 66938, 1, 66968); (66941, 66954, 1, 66980); (66957, 66962, 1, 66996);
    (66965, 66965, 1, 67004); (68736, 68786, 1, 68800); (71840, 71871, 1, 71872);
    (93760, 93791, 1, 93792); (125184, 125217, 1, 125218) ]%N.

(** The cased code points that are not case-ignorable, in ranges. *)
Definition CASED : list (N * N) :=
  [
    (65, 90); (97, 122); (170, 170); (181, 181);
    (186, 186); (192, 214); (216, 246); (248, 442);
    (444, 447); (452, 659); (661, 687); (880, 883);
    (886, 887); (891, 893); (895, 895); (902, 902);
    (904, 906); (908, 908); (910, 929); (931, 1013);
    (1015, 1153); (1162, 1327); (1329, 1366); (1376, 1416);
    (4256, 4293); (4295, 4295); (4301, 4301); (4304, 4346);
    (4349, 4351); (5024, 5109); (5112, 5117); (7296, 7304);
    (7312, 7354); (7357, 7359); (7424, 7467); (7531, 7543);
    (7545, 7578); (7680, 7957); (7960, 7965); (7968, 8005);
    (8008, 8013); (8016, 8023); (8025, 8025); (8027, 8027);
    (8029, 8029); (8031, 8061); (8064, 8116); (8118, 8124);
    (8126, 8126); (8130, 8132); (8134, 8140); (8144, 8147);
    (8150, 8155); (8160, 8172); (8178, 8180); (8182, 8188);
    (8450, 8450); (8455, 8455); (8458, 8467); (8469, 8469);
    (8473, 8477); (8484, 8484); (8486, 8486); (8488, 8488);
    (8490, 8493); (8495, 8500); (8505, 8505); (8508, 8511);
    (8517, 8521); (8526, 8526); (8544, 8575); (8579, 8580);
    (9398, 9449); (11264, 11387); (11390, 11492); (11499, 11502);
    (11506, 11507); (11520, 11557); (11559, 11559); (11565, 11565);
    (42560, 42605); (42624, 42651); (42786, 42863); (42865, 42887);
    (42891, 42894); (42896, 42954); (42960, 42961); (42963, 42963);
    (42965, 42969); (42997, 42998); (43002, 43002); (43824, 43866);
    (43872, 43880); (43888, 43967); (64256, 64262); (64275, 64279);
    (65313, 65338); (65345, 65370); (66560, 66639); (66736, 66771);
    (66776, 66811); (66928, 66938); (66940, 66954); (66956, 66962);
    (66964, 66965); (66967, 66977); (66979, 66993); (66995, 67001);
    (67003, 67004); (68736, 68786); (68800, 68850); (71840, 71903);
    (93760, 93823); (119808, 119892); (119894, 119964); (119966, 119967);
    (119970, 119970); (119973, 119974); (119977, 119980); (119982, 119993);
    (119995, 119995); (119997, 120003); (120005, 120069); (120071, 120074);
    (120077, 120084); (120086, 120092); (120094, 120121); (120123, 120126);
    (120128, 120132); (120134, 120134); (120138, 120144); (120146, 120485);
    (120488, 120512); (120514, 120538); (120540, 120570); (120572, 120596);
    (120598, 120628); (120630, 120654); (120656, 120686); (120688, 120712);
    (120714, 120744); (120746, 120770); (120772, 120779); (122624, 122633);
    (122635, 122654); (125184, 125251); (127280, 127305); (127312, 127337);
    (127344, 127369) ]%N.

(** The case-ignorable code points, in ranges. *)
Definition CASE_IGNORABLE : list (N * N) :=
  [
    (39, 39); (46, 46); (58, 58); (94, 94);
    (96, 96); (168, 168); (173, 173); (175, 175);
    (180, 180); (183, 184); (688, 879); (884, 885);
    (890, 890); (900, 901); (903, 903); (1155, 1161);
    (1369, 1369); (1375, 1375); (1425, 1469); (1471, 1471);
    (1473, 1474); (1476, 1477); (1479, 1479); (1524, 1524);
    (1536, 1541); (1552, 1562); (1564, 1564); (1600, 1600);
    (1611, 1631); (1648, 1648); (1750, 1757); (1759, 1768);
    (1770, 1773); (1807, 1807); (1809, 1809); (1840, 1866);
    (1958, 1968); (2027, 2037); (2042, 2042); (2045, 2045);
    (2070, 2093); (2137, 2139); (2184, 2184); (2192, 2193);
    (2200, 2207); (2249, 2306); (2362, 2362); (2364, 2364);
    (2369, 2376); (2381, 2381); (2385, 2391); (2402, 2403);
    (2417, 2417); (2433, 2433); (2492, 2492); (2497, 2500);
    (2509, 2509); (2530, 2531); (2558, 2558); (2561, 2562);
    (2620, 2620); (2625, 2626); (2631, 2632); (2635, 2637);
    (2641, 2641); (2672, 2673); (2677, 2677); (2689, 2690);
    (2748, 2748); (2753, 2757); (2759, 2760); (2765, 2765);
    (2786, 2787); (2810, 2815); (2817, 2817); (2876, 2876);
    (2879, 2879); (2881, 2884); (2893, 2893); (2901, 2902);
    (2914, 2915); (2946, 2946); (3008, 3008); (3021, 3021);
    (3072, 3072); (3076, 3076); (3132, 3132); (3134, 3136);
    (3142, 3144); (3146, 3149); (3157, 3158); (3170, 3171);
    (3201, 3201); (3260, 3260); (3263, 3263); (3270, 3270);
    (3276, 3277); (3298, 3299); (3328, 3329); (3387, 3388);
    (3393, 3396); (3405, 3405); (3426, 3427); (3457, 3457);
    (3530, 3530); (3538, 3540); (3542, 3542); (3633, 3633);
    (3636, 3642); (3654, 3662); (3761, 3761); (3764, 3772);
    (3782, 3782); (3784, 3789); (3864, 3865); (3893, 3893);
    (3895, 3895); (3897, 3897); (3953, 3966); (3968, 3972);
    (3974, 3975); (3981, 3991); (3993, 4028); (4038, 4038);
    (4141, 4144); (4146, 4151); (4153, 4154); (4157, 4158);
    (4184, 4185); (4190, 4192); (4209, 4212); (4226, 4226);
    (4229, 4230); (4237, 4237); (4253, 4253); (4348, 4348);
    (4957, 4959); (5906, 5908); (5938, 5939); (5970, 5971);
    (6002, 6003); (6068, 6069); (6071, 6077); (6086, 6086);
    (6089, 6099); (6103, 6103); (6109, 6109); (6155, 6159);
    (6211, 6211); (6277, 6278); (6313, 6313); (6432, 6434);
    (6439, 6440); (6450, 6450); (6457, 6459); (6679, 6680);
    (6683, 6683); (6742, 6742); (6744, 6750); (6752, 6752);
    (6754, 6754); (6757, 6764); (6771, 6780); (6783, 6783);
    (6823, 6823); (6832, 6862); (6912, 6915); (6964, 6964);
    (6966, 6970); (6972, 6972); (6978, 6978); (7019, 7027);
    (7040, 7041); (7074, 7077); (7080, 7081); (7083, 7085);
    (7142, 7142); (7144, 7145); (7149, 7149); (7151, 7153);
    (7212, 7219); (7222, 7223); (7288, 7293); (7376, 7378);
    (7380, 7392); (7394, 7400); (7405, 7405); (7412, 7412);
    (7416, 7417); (7468, 7530); (7544, 7544); (7579, 7679);
    (8125, 8125); (8127, 8129); (8141, 8143); (8157, 8159);
    (8173, 8175); (8189, 8190); (8203, 8207); (8216, 8217);
    (8228, 8228); (8231, 8231); (8234, 8238); (8288, 8292);
    (8294, 8303); (8305, 8305); (8319, 8319); (8336, 8348);
    (8400, 8432); (11388, 11389); (11503, 11505); (11631, 11631);
    (11647, 11647); (11744, 11775); (11823, 11823); (12293, 12293);
    (12330, 12333); (12337, 12341); (12347, 12347); (12441, 12446);
    (12540, 12542); (40981, 40981); (42232, 42237); (42508, 42508);
    (42607, 42610); (42612, 42621); (42623, 42623); (42652, 42655);
    (42736, 42737); (42752, 42785); (42864, 42864); (42888, 42890);
    (42994, 42996); (43000, 43001); (43010, 43010); (43014, 43014);
    (43019, 43019); (43045, 43046); (43052, 43052); (43204, 43205);
    (43232, 43249); (43263, 43263); (43302, 43309); (43335, 43345);
    (43392, 43394); (43443, 43443); (43446, 43449); (43452, 43453);
    (43471, 43471); (43493, 43494); (43561, 43566); (43569, 43570);
    (43573, 43574); (43587, 43587); (43596, 43596); (43632, 43632);
    (43644, 43644); (43696, 43696); (43698, 43700); (43703, 43704);
    (43710, 43711); (43713, 43713); (43741, 43741); (43756, 43757);
    (43763, 43764); (43766, 43766); (43867, 43871); (43881, 43883);
    (44005, 44005); (44008, 44008); (44013, 44013); (64286, 64286);
    (64434, 64450); (65024, 65039); (65043, 65043); (65056, 65071);
    (65106, 65106); (65109, 65109); (65279, 65279); (65287, 65287);
    (65294, 65294); (65306, 65306); (65342, 65342); (65344, 65344);
    (65392, 65392); (65438, 65439); (65507, 65507); (65529, 65531);
    (66045, 66045); (66272, 66272); (66422, 66426); (67456, 67461);
    (67463, 67504); (67506, 67514); (68097, 68099); (68101, 68102);
    (68108, 68111); (68152, 68154); (68159, 68159); (68325, 68326);
    (68900, 68903); (69291, 69292); (69446, 69456); (69506, 69509);
    (69633, 69633); (69688, 69702); (69744, 69744); (69747, 69748);
    (69759, 69761); (69811, 69814); (69817, 69818); (69821, 69821);
    (69826, 69826); (69837, 69837); (69888, 69890); (69927, 69931);
    (69933, 69940); (70003, 70003); (70016, 70017); (70070, 70078);
    (70089, 70092); (70095, 70095); (70191, 70193); (70196, 70196);
    (70198, 70199); (70206, 70206); (70367, 70367); (70371, 70378);
    (70400, 70401); (70459, 70460); (70464, 70464); (70502, 70508);
    (70512, 70516); (70712, 70719); (70722, 70724); (70726, 70726);
    (70750, 70750); (70835, 70840); (70842, 70842); (70847, 70848);
    (70850, 70851); (71090, 71093); (71100, 71101); (71103, 71104);
    (71132, 71133); (71219, 71226); (71229, 71229); (71231, 71232);
    (71339, 71339); (71341, 71341); (71344, 71349); (71351, 71351);
    (71453, 71455); (71458, 71461); (71463, 71467); (71727, 71735);
    (71737, 71738); (71995, 71996); (71998, 71998); (72003, 72003);
    (72148, 72151); (72154, 72155); (72160, 72160); (72193, 72202);
    (72243, 72248); (72251, 72254); (72263, 72263); (72273, 72278);
    (72281, 72283); (72330, 72342); (72344, 72345); (72752, 72758);
    (72760, 72765); (72767, 72767); (72850, 72871); (72874, 72880);
    (72882, 72883); (72885, 72886); (73009, 73014); (73018, 73018);
    (73020, 73021); (73023, 73029); (73031, 73031); (73104, 73105);
    (73109, 73109); (73111, 73111); (73459, 73460); (78896, 78904);
    (92912, 92916); (92976, 92982); (92992, 92995); (94031, 94031);
    (94095, 94111); (94176, 94177); (94179, 94180); (110576, 110579);
    (110581, 110587); (110589, 110590); (113821, 113822); (113824, 113827);
    (118528, 118573); (118576, 118598); (119143, 119145); (119155, 119170);
    (119173, 119179); (119210, 119213); (119362, 119364); (121344, 121398);
    (121403, 121452); (121461, 121461); (121476, 121476); (121499, 121503);
    (121505, 121519); (122880, 122886); (122888, 122904); (122907, 122913);
    (122915, 122916); (122918, 122922); (123184, 123197); (123566, 123566);
    (123628, 123631); (125136, 125142); (125252, 125259); (127995, 127999);
    (917505, 917505); (917536, 917631); (917760, 917999) ]%N.

(** The code points [str.isspace] accepts, in ranges. *)
Definition WHITESPACE : list (N * N) :=
  [
    (9, 13); (28, 32); (133, 133); (160, 160);
    (5760, 5760); (8192, 8202); (8232, 8233); (8239, 8239);
    (8287, 8287); (12288, 12288) ]%N.

(** The simple lower-case mapping: the first run of [LOWER] that holds
    the code point gives its image. *)
Definition lower_simple (cp : N) : N :=
  match List.find (λ r : N * N * N * N,
                     let '(first, last, step, _) := r in
                     (first <=? cp)%N && (cp <=? last)%N
                     && ((cp - first) mod step =? 0)%N) LOWER with
  | Some (first, _, _, target) => (target + (cp - first))%N
  | None => cp
  end.

(** The full lower-case mapping of a code point other than Σ: one code
    point, but for İ (U+0130), which becomes i and a combining dot. *)
Definition lower_full (cp : N) : list N :=
  if (cp =? 304)%N then [105; 775]%N else [lower_simple cp].

Definition is_cased (cp : N) : bool := in_ranges cp CASED.
Definition is_case_ignorable (cp : N) : bool := in_ranges cp CASE_IGNORABLE.

(** The first code point that is not case-ignorable. *)
Fixpoint skip_ignorable (cps : list N) : option N :=
  match cps with
  | [] => None
  | cp :: cps' => if is_case_ignorable cp then skip_ignorable cps' else Some cp
  end.

(** Σ (U+03A3) becomes ς at the end of a word and σ elsewhere: it ends a
    word when a cased letter comes before it and none after it,
    case-ignorable code points apart.  [before] holds the code points
    before the Σ, nearest first. *)
Definition lower_sigma (before after : list N) : N :=
  let final_sigma :=
    match skip_ignorable before with
    | Some cp =>
        is_cased cp
        && match skip_ignorable after with
           | Some cp' => negb (is_cased cp')
           | None => true
           end
    | None => false
    end in
  if final_sigma then 962%N else 963%N.

Fixpoint lower_from (before : list N) (cps : list N) : list N :=
  match cps with
  | [] => []
  | cp :: cps' =>
      (if (cp =? 931)%N then [lower_sigma before cps'] else lower_full cp)
      ++ lower_from (cp :: before) cps'
  end.

(** [s.lower()] *)
Definition lower (s : string) : string := encode (lower_from [] (decode s)).

Definition is_space (cp : N) : bool := in_ranges cp WHITESPACE.

Fixpoint lstrip_cps (cps : list N) : list N :=
  match cps with
  | [] => []
  | cp :: cps' => if is_space cp then lstrip_cps cps' else cps
  end.

Definition rstrip_cps (cps : list N) : list N :=
  reverse (lstrip_cps (reverse cps)).

(** [s.strip()] *)
Definition strip (s : string) : string :=
  encode (lstrip_cps (rstrip_cps (decode s))).

End Unicode.

(* ===================================================================== *)

Module Memory.
Import Datetime PyCounter.

Definition RECURRING_THRESHOLD : nat := 3.
Definition MEMORY_RETENTION_DAYS : Z := 30.

(** The value a dict entry holds under ["item"]: a string, or any other
    JSON value (null, a number, a list, ...), which has no [lower]. *)
Inductive item_value :=
| ItemStr (s : string)
| ItemOther.

(** An element of a check's [to_sort] list: a dict, of which the code
    reads the value under ["item"] when the key is there, or any other
    value, of which it reads [str(item)]. *)
Inductive to_sort_entry :=
| EntryDict (item_key : option item_value)
| EntryOther (text : string).

(** A check dict.  [timestamp] is [None] when the key is missing or its
    value is not in ISO format ([KeyError] and [ValueError], which the
    code catches alike); [status] and [to_sort] are [None] when the key
    is missing. *)
Record check := mk_check {
  timestamp : option datetime;
  status : option string;
  to_sort : option (list to_sort_entry)
}.

(** [item_name] of the loop body: [item.get("item", "").lower().strip()]
    for a dict, [str(item).lower().strip()] otherwise; [None] is the
    [AttributeError] of a value under ["item"] that is not a string. *)
Definition item_name (item : to_sort_entry) : option string :=
  match item with
  | EntryDict None => Some (Unicode.strip (Unicode.lower ""))
  | EntryDict (Some (ItemStr s)) => Some (Unicode.strip (Unicode.lower s))
  | EntryDict (Some ItemOther) => None
  | EntryOther text => Some (Unicode.strip (Unicode.lower text))
  end.

(** The counter filled by the two nested loops of
    [_count_recurring_items] and [_count_all_items]; [None] once an
    [item_name] has raised. *)
Definition count_items (checks : list check) : option (list (string * nat)) :=
  foldl (λ counter check,
           foldl (λ counter item,
                    counter ← counter;
                    name ← item_name item;
                    Some (if bool_decide (name ≠ "") then incr name counter
                          else counter))
                 counter (default [] (to_sort check)))
        (Some []) checks.

(** [MemoryEngine._count_recurring_items]; [None] is the exception. *)
Definition _count_recurring_items (checks : list check)
    : option (list (string * nat)) :=
  filter (λ ic, (RECURRING_THRESHOLD ≤ ic.2)%nat) <$> count_items checks.

(** [dt.strftime("%A")] *)
Definition strftime_A (dt : datetime) : string :=
  weekday_name (weekday_of dt).

(** The [day_counts] counter of [_find_best_day] and [_find_worst_day]:
    one increment per check whose status is [wanted] and whose timestamp
    parses. *)
Definition day_counts (wanted : string) (checks : list check)
    : list (string * nat) :=
  foldl (λ counter check,
           if bool_decide (status check = Some wanted) then
             match timestamp check with
             | Some dt => incr (strftime_A dt) counter
             | None => counter
             end
           else counter)
        [] checks.

Definition most_common_day (counts : list (string * nat)) : option string :=
  match counts with
  | [] => None
  | _ => match most_common_1 counts with
         | (d, _) :: _ => Some d
         | [] => None
         end
  end.

(** [MemoryEngine._find_worst_day] *)
Definition _find_worst_day (checks : list check) : option string :=
  most_common_day (day_counts "needs_attention" checks).

(** [MemoryEngine._find_best_day] *)
Definition _find_best_day (checks : list check) : option string :=
  most_common_day (day_counts "sorted" checks).

(** One value of the [day_stats] dict. *)
Record tally := mk_tally {
  t_sorted : nat; t_needs_attention : nat; t_total : nat
}.

(** The body of the loop of [_calculate_day_of_week_stats] once the day
    is known. *)
Fixpoint bump (day : string) (st : option string)
    (stats : list (string * tally)) : list (string * tally) :=
  let upd t :=
    mk_tally
      (if bool_decide (st = Some "sorted") then S (t_sorted t)
       else t_sorted t)
      (if bool_decide (st = Some "sorted") then t_needs_attention t
       else if bool_decide (st = Some "needs_attention")
            then S (t_needs_attention t) else t_needs_attention t)
      (S (t_total t)) in
  match stats with
  | [] => [(day, upd (mk_tally 0 0 0))]
  | (d, t) :: stats' =>
      if decide (day = d) then (d, upd t) :: stats'
      else (d, t) :: bump day st stats'
  end.

(** [MemoryEngine._calculate_day_of_week_stats] *)
Definition _calculate_day_of_week_stats (checks : list check)
    : list (string * tally) :=
  foldl (λ day_stats check,
           match timestamp check with
           | Some dt => bump (strftime_A dt) (status check) day_stats
           | None => day_stats
           end)
        [] checks.

(** *** The specification's reading of best and worst day *)

(** The sorted-ratio of a weekday's tally. *)
Definition sorted_ratio (t : tally) : Q :=
  Z.of_nat (t_sorted t) # Pos.of_nat (t_total t).

(** First entry of highest ratio ([better] is [Qlt]) or of lowest ratio
    ([better] is its converse), scanning in dict order. *)
Fixpoint first_extreme (better : Q → Q → bool) (best : string * tally)
    (rest : list (string * tally)) : string :=
  match rest with
  | [] => best.1
  | x :: rest' =>
      if better (sorted_ratio best.2) (sorted_ratio x.2)
      then first_extreme better x rest'
      else first_extreme better best rest'
  end.

Definition Qlt_bool (a b : Q) : bool := negb (Qle_bool b a).

Definition qualifying (checks : list check) : list (string * tally) :=
  filter (λ dt, (3 ≤ t_total dt.2)%nat) (_calculate_day_of_week_stats checks).

(** Best day as the specification words it: among the weekdays with at
    least 3 samples, the one of highest sorted-ratio, the first seen
    winning a tie. *)
Definition spec_best_day (checks : list check) : option string :=
  match qualifying checks with
  | [] => None
  | x :: rest => Some (first_extreme Qlt_bool x rest)
  end.

(** Worst day as the specification words it: lowest sorted-ratio. *)
Definition spec_worst_day (checks : list check) : option string :=
  match qualifying checks with
  | [] => None
  | x :: rest => Some (first_extreme (λ a b, Qlt_bool b a) x rest)
  end.

(** *** Vocabulary of the statements *)

(** The normalised names of the to-sort entries of a check, then of a
    whole history, in order. *)
Definition names_of (c : check) : list string :=
  omap item_name (default [] (to_sort c)).

Definition entry_names (checks : list check) : list string :=
  checks ≫= names_of.

(** Some entry of some check has a name that raises. *)
Definition unreadable (checks : list check) : Prop :=
  ∃ c e, c ∈ checks ∧ e ∈ default [] (to_sort c) ∧ item_name e = None.

(** Number of occurrences of [k] in [l]. *)
Definition occurrences {K} `{EqDecision K} (k : K) (l : list K) : nat :=
  length (filter (λ x, x = k) l).

(** Number of checks whose to-sort list names [s] at least once. *)
Definition checks_listing (s : string) (checks : list check) : nat :=
  length (filter (λ c, s ∈ names_of c) checks).

(** The elements of [l] in order of first appearance. *)
Fixpoint first_seen {K} `{EqDecision K} (l : list K) : list K :=
  match l with
  | [] => []
  | x :: l' => x :: filter (λ y, y ≠ x) (first_seen l')
  end.

(** The key [k] is the first, in order of first appearance in [ks],
    among the keys that occur most often in [ks]. *)
Definition first_most_frequent {K} `{EqDecision K} (k : K) (ks : list K)
    : Prop :=
  ∃ l1 l2, first_seen ks = l1 ++ k :: l2
           ∧ (∀ k', k' ∈ l1 → occurrences k' ks < occurrences k ks)%nat
           ∧ (∀ k', k' ∈ l2 → occurrences k' ks ≤ occurrences k ks)%nat.

(** The weekday names of the checks with status [wanted] and a readable
    timestamp, in history order. *)
Definition days_with (wanted : string) (checks : list check) : list string :=
  omap (λ c, if bool_decide (status c = Some wanted)
             then strftime_A <$> timestamp c else None) checks.

(** *** Histories used below *)

Definition check_on (dt : datetime) (st : string) : check :=
  mk_check (Some dt) (Some st) (Some []).

(** One check that lists the same mug three times. *)
Definition mug_thrice : list check :=
  [ mk_check (Some (at_hour 2024 1 1 9)) (Some "needs_attention")
      (Some [ EntryOther "mug"; EntryDict (Some (ItemStr " Mug "));
              EntryOther "MUG" ]) ].

(** One check that names a coffee in three spellings, the last one with
    a no-break space after it. *)
Definition cafe_thrice : list check :=
  [ mk_check (Some (at_hour 2024 1 1 9)) (Some "needs_attention")
      (Some [ EntryOther "CAFÉ"; EntryDict (Some (ItemStr "café"));
              EntryOther "Café " ]) ].

(** One check with an entry whose item is not a string. *)
Definition null_item : list check :=
  [ mk_check (Some (at_hour 2024 1 1 9)) (Some "needs_attention")
      (Some [ EntryOther "mug"; EntryDict (Some ItemOther) ]) ].

(** One sorted check, on a Monday. *)
Definition lone_monday : list check :=
  [ check_on (at_hour 2024 1 1 9) "sorted" ].

(** Monday: 4 sorted and 3 not; Tuesday: 2 sorted and 1 not; Wednesday:
    1 sorted and 2 not. *)
Definition busy_monday : list check :=
  replicate 4 (check_on (at_hour 2024 1 1 9) "sorted")
  ++ replicate 3 (check_on (at_hour 2024 1 1 18) "needs_attention")
  ++ replicate 2 (check_on (at_hour 2024 1 2 9) "sorted")
  ++ [ check_on (at_hour 2024 1 2 18) "needs_attention" ]
  ++ [ check_on (at_hour 2024 1 3 9) "sorted" ]
  ++ replicate 2 (check_on (at_hour 2024 1 3 18) "needs_attention").

End Memory.

(* ===================================================================== *)
(** ** app/camera/manager.py and app/camera/ha_adapter.py                 *)
(* ===================================================================== *)

(** Python truthiness of an [Optional[str]]: [None] and [""] are false. *)
Definition truthy (s : option string) : bool :=
  match s with
  | None | Some EmptyString => false
  | Some _ => true
  end.

Module Camera.

(** The four adapter objects a [CameraManager] holds. *)
Inductive adapter := ha_camera | rtsp_camera | mjpeg_camera | onvif_camera.

(** [self._adapters], in the order the dict literal lists its keys. *)
Definition _adapters : list (string * adapter) :=
  [ ("camera.", ha_camera); ("rtsp_", rtsp_camera);
    ("mjpeg_", mjpeg_camera); ("onvif_", onvif_camera) ].

(** [s.startswith(prefix)] *)
Definition startswith (s prefix : string) : bool := String.prefix prefix s.

(** The [for prefix, adapter in self._adapters.items()] loop. *)
Fixpoint first_adapter (camera_id : string) (items : list (string * adapter))
    : option adapter :=
  match items with
  | [] => None
  | (prefix, adapter) :: items' =>
      if startswith camera_id prefix then Some adapter
      else first_adapter camera_id items'
  end.

(** [CameraManager._get_adapter_for_camera] *)
Definition _get_adapter_for_camera (camera_id : string) : adapter :=
  match first_adapter camera_id _adapters with
  | Some adapter => adapter
  | None => ha_camera
  end.

(** *** HACamera *)

Definition MAX_RETRIES : nat := 3.
Definition BASE_BACKOFF_SECONDS : Z := 1.
Definition REQUEST_TIMEOUT_SECONDS : Z := 30.

Record SnapshotError := mk_error {
  error_type : string;
  message : string;
  status_code : option Z;
  response_body : option string
}.

(** [body[:500] if body else None] *)
Definition body_excerpt (body : string) : option string :=
  if truthy (Some body) then Some (String.substring 0 500 body) else None.

(** [HACamera._parse_error_response] *)
Definition _parse_error_response (status : Z) (body entity_id : string)
    : SnapshotError :=
  if status =? 401 then
    mk_error "auth"
      "Authentication failed. Check your Home Assistant access token."
      (Some status) (body_excerpt body)
  else if status =? 403 then
    mk_error "auth"
      "Access denied. The token may lack camera permissions."
      (Some status) (body_excerpt body)
  else if status =? 404 then
    mk_error "not_found"
      ("Camera '" +:+ entity_id +:+
       "' not found. It may have been removed or renamed.")
      (Some status) (body_excerpt body)
  else if (status =? 502) || (status =? 503) then
    mk_error "offline"
      ("Camera '" +:+ entity_id +:+
       "' appears to be offline or unavailable (status " +:+
       pretty status +:+ ").")
      (Some status) (body_excerpt body)
  else if 500 <=? status then
    mk_error "server_error"
      ("Home Assistant server error (status " +:+ pretty status +:+
       "). Try again later.")
      (Some status) (body_excerpt body)
  else
    mk_error "unknown"
      ("Unexpected response from camera (status " +:+ pretty status +:+ ").")
      (Some status) (body_excerpt body).

(** What one [session.get] does: a response with its status and body,
    or one of the exceptions [_get_snapshot_once] catches. *)
Inductive http_outcome :=
| Response (status : Z) (body : string)
| TimeoutError
| ClientConnectorError (e : string)
| ClientError (e : string).

(** [HACamera._get_snapshot_once], given what its request does. *)
Definition _get_snapshot_once (ha_token : option string) (entity_id : string)
    (o : http_outcome) : option string * option SnapshotError :=
  if negb (truthy ha_token) then
    (None, Some (mk_error "auth"
       "No Home Assistant token configured. Please configure in Settings."
       None None))
  else
    match o with
    | Response status body =>
        if status =? 200 then
          if truthy (Some body) then (Some body, None)
          else (None, Some (mk_error "offline"
                  ("Camera '" +:+ entity_id +:+ "' returned empty image data.")
                  (Some 200) None))
        else (None, Some (_parse_error_response status body entity_id))
    | TimeoutError =>
        (None, Some (mk_error "timeout"
           ("Camera '" +:+ entity_id +:+ "' timed out after " +:+
            pretty REQUEST_TIMEOUT_SECONDS +:+
            "s. The camera may be slow or unresponsive.")
           None None))
    | ClientConnectorError e =>
        (None, Some (mk_error "network"
           ("Cannot connect to Home Assistant: " +:+ e) None None))
    | ClientError e =>
        (None, Some (mk_error "network"
           ("Network error getting snapshot: " +:+ e) None None))
    end.

(** What the retry loop does to the outside: a call of
    [_get_snapshot_once] or an [asyncio.sleep]. *)
Inductive event := Attempt (attempt : nat) | Sleep (seconds : Z).

Definition is_attempt (ev : event) : bool :=
  match ev with Attempt _ => true | Sleep _ => false end.

(** [error and error.error_type in ("auth", "not_found")] *)
Definition no_retry (error : option SnapshotError) : bool :=
  match error with
  | Some e => bool_decide (error_type e = "auth")
              || bool_decide (error_type e = "not_found")
  | None => false
  end.

Section Snapshot.
(** The token the credentials cache holds, the camera asked for, and
    what the request of each attempt does. *)
Variables (ha_token : option string) (entity_id : string)
          (world : nat → http_outcome).

(** The [for attempt in range(self.MAX_RETRIES)] loop shared by
    [get_snapshot] and [get_snapshot_with_error], over the attempts
    still to run; the events are appended to [trace]. *)
Fixpoint attempts (range : list nat) (last_error : option SnapshotError)
    (trace : list event)
    : option string * option SnapshotError * list event :=
  match range with
  | [] => (None, last_error, trace)
  | attempt :: range' =>
      let '(data, error) :=
        _get_snapshot_once ha_token entity_id (world attempt) in
      let trace := trace ++ [Attempt attempt] in
      match data with
      | Some d => (Some d, None, trace)
      | None =>
          let last_error := error in
          if no_retry error then (None, last_error, trace)
          else
            let trace :=
              if (attempt <? MAX_RETRIES - 1)%nat
              then trace ++ [Sleep (BASE_BACKOFF_SECONDS * 2 ^ Z.of_nat attempt)]
              else trace in
            attempts range' last_error trace
      end
  end.

(** [HACamera.get_snapshot_with_error]: the pair it returns and the
    events it caused. *)
Definition get_snapshot_with_error
    : option string * option SnapshotError * list event :=
  if negb (truthy ha_token) then
    (None, Some (mk_error "auth"
       "No Home Assistant token configured. Please configure in Settings."
       None None), [])
  else attempts (seq 0 MAX_RETRIES) None [].

(** [HACamera.get_snapshot]: the bytes or [None], and the events. *)
Definition get_snapshot : option string * list event :=
  if negb (truthy ha_token) then (None, [])
  else
    let '(data, _, trace) := attempts (seq 0 MAX_RETRIES) None [] in
    (data, trace).

(** What attempt number [k] returns. *)
Definition outcome (k : nat) : option string * option SnapshotError :=
  _get_snapshot_once ha_token entity_id (world k).

(** An attempt ends the loop when it succeeds or fails with an error
    that is not retried. *)
Definition stops (k : nat) : bool :=
  bool_decide (is_Some (outcome k).1) || no_retry (outcome k).2.

End Snapshot.

(** Two time-outs, then an image. *)
Definition flaky (k : nat) : http_outcome :=
  match k with
  | 0%nat | 1%nat => TimeoutError
  | _ => Response 200 "JFIF"
  end.

End Camera.

(* ===================================================================== *)
(** ** app/core/analyzer.py                                               *)
(* ===================================================================== *)

Module Analyzer.

(** The exceptions the [try] of [analyze] tells apart:
    [aiohttp.ClientError] and any other [Exception], each with its
    [str(e)]. *)
Inductive exn := ClientErrorExn (msg : string) | OtherExn (msg : string).

(** A step either returns or raises. *)
Inductive res (A : Type) := Ok (a : A) | Raise (e : exn).
Arguments Ok {A} a.
Arguments Raise {A} e.

(** Computations that read the clock: the number of [time.time()] calls
    made so far is threaded through. *)
Definition M (A : Type) : Type := nat → res A * nat.

Definition ret {A} (a : A) : M A := λ n, (Ok a, n).

Definition bind {A B} (m : M A) (k : A → M B) : M B :=
  λ n, match m n with
       | (Ok a, n') => k a n'
       | (Raise e, n') => (Raise e, n')
       end.

Definition lift {A} (r : res A) : M A := λ n, (r, n).

(** [try: body except ...: handler] *)
Definition try_except {A} (body : M A) (handler : exn → M A) : M A :=
  λ n, match body n with
       | (Ok a, n') => (Ok a, n')
       | (Raise e, n') => handler e n'
       end.

(** The monad's [x ← m; k] is stdpp's notation for [bind]. *)
#[local] Instance M_ret : MRet M := @ret.
#[local] Instance M_bind : MBind M := λ A B k m, bind m k.

(** The fields of [CheckResult] that [analyze] sets itself; [to_sort]
    holds the item names. *)
Record CheckResult := mk_result {
  status : string;
  to_sort : list string;
  looking_good : list string;
  error_message : option string;
  api_response_time : option Q
}.

(** The response object of [session.post]: its status, and what
    [response.text()] and [response.json()] do. *)
Record http_response := mk_response {
  resp_status : Z;
  resp_text : res string;
  resp_json : res string
}.

(** Everything [analyze] gets from outside itself. *)
Record world := mk_world {
  (** what [_get_api_key] returns ([ConfigManager.get] catches its own
      exceptions and the fallback is [os.environ.get]) *)
  api_key : option string;
  (** the successive values of [time.time()] *)
  clock : nat → Q;
  (** the prompt and payload construction, up to the request *)
  build_request : res string;
  (** [session.post(url, json=payload)] *)
  post : string → res http_response;
  (** [self._parse_response(data)] *)
  _parse_response : string → res CheckResult;
  (** [memory and memory.patterns.recurring_items] *)
  has_recurring : bool;
  (** [self.memory_engine.enrich_items_with_recurring] *)
  enrich_items_with_recurring : list string → res (list string)
}.

Definition time (w : world) : M Q := λ n, (Ok (clock w n), S n).

Definition error_result (msg : string) (latency : option Q) : CheckResult :=
  mk_result "error" [] [] (Some msg) latency.

(** [SpotAnalyzer.analyze] *)
Definition analyze (w : world) : M CheckResult :=
  if negb (truthy (api_key w)) then
    ret (error_result
           "Gemini API key not configured. Please configure in Settings."
           None)
  else
    start_time ← time w;
    try_except
      (payload ← lift (build_request w);
       response ← lift (post w payload);
       now ← time w;
       let elapsed := (now - start_time)%Q in
       if resp_status response =? 429 then
         ret (error_result "API quota exceeded. Please try again later."
                (Some elapsed))
       else if negb (resp_status response =? 200) then
         text ← lift (resp_text response);
         ret (error_result
                ("API error: " +:+ pretty (resp_status response) +:+ " - "
                 +:+ String.substring 0 200 text)
                (Some elapsed))
       else
         data ← lift (resp_json response);
         result ← lift (_parse_response w data);
         let result :=
           mk_result (status result) (to_sort result) (looking_good result)
             (error_message result) (Some elapsed) in
         if has_recurring w then
           items ← lift (enrich_items_with_recurring w (to_sort result));
           ret (mk_result (status result) items (looking_good result)
                  (error_message result) (api_response_time result))
         else ret result)
      (λ e,
         match e with
         | ClientErrorExn msg =>
             now ← time w;
             ret (error_result ("Network error: " +:+ msg)
                    (Some (now - start_time)%Q))
         | OtherExn msg =>
             now ← time w;
             ret (error_result ("Unexpected error: " +:+ msg)
                    (Some (now - start_time)%Q))
         end).

(** *** Worlds used below *)

(** The clock advances by a quarter of a second per reading. *)
Definition quarter_seconds (n : nat) : Q := Z.of_nat n # 4.

(** A configured key and a service that answers 429. *)
Definition quota_exceeded : world :=
  mk_world (Some "key") quarter_seconds (Ok "payload")
    (λ _, Ok (mk_response 429 (Ok "") (Ok "")))
    (λ _, Raise (OtherExn "unused")) false (λ items, Ok items).

(** A configured key and a connection that fails. *)
Definition unreachable : world :=
  mk_world (Some "key") quarter_seconds (Ok "payload")
    (λ _, Raise (ClientErrorExn "connection refused"))
    (λ _, Raise (OtherExn "unused")) false (λ items, Ok items).

End Analyzer.

(* ===================================================================== *)
(** ** app/db/sqlite.py: the api_tokens table                             *)
(* ===================================================================== *)

Module Database.

(** A row of [api_tokens]. *)
Record token_row := mk_row {
  id : Z;
  token : string;
  name : string;
  created_at : string;
  last_used : option string;
  is_active : Z
}.

(** The table, in rowid order. *)
Definition table := list token_row.

(** The constraints of the schema: [id INTEGER PRIMARY KEY] and
    [token TEXT UNIQUE NOT NULL]. *)
Definition constraints (t : list token_row) : Prop :=
  NoDup (id <$> t) ∧ NoDup (token <$> t).

(** [SELECT ... WHERE token = ?] then [fetchone()] *)
Definition select_by_token (tok : string) (t : list token_row)
    : option token_row :=
  List.find (λ r, bool_decide (token r = tok)) t.

(** [UPDATE api_tokens SET last_used = ? WHERE id = ?] *)
Definition set_last_used (now : string) (row_id : Z) (t : list token_row)
    : list token_row :=
  (λ r, if bool_decide (id r = row_id)
        then mk_row (id r) (token r) (name r) (created_at r) (Some now)
               (is_active r)
        else r) <$> t.

(** [UPDATE api_tokens SET is_active = 0 WHERE id = ?] *)
Definition set_inactive (row_id : Z) (t : list token_row) : list token_row :=
  (λ r, if bool_decide (id r = row_id)
        then mk_row (id r) (token r) (name r) (created_at r) (last_used r) 0
        else r) <$> t.

(** [cursor.rowcount] of an [UPDATE] or [DELETE ... WHERE id = ?] *)
Definition rowcount (row_id : Z) (t : list token_row) : nat :=
  length (filter (λ r, id r = row_id) t).

(** [Database.verify_api_token]; [now] is [datetime.utcnow().isoformat()].
    Returns the answer and the table afterwards. *)
Definition verify_api_token (now : string) (tok : string)
    (t : list token_row) : bool * list token_row :=
  match select_by_token tok t with
  | None => (false, t)
  | Some row =>
      if is_active row =? 0 then (false, t)
      else (true, set_last_used now (id row) t)
  end.

(** [Database.revoke_api_token] *)
Definition revoke_api_token (token_id : Z) (t : list token_row)
    : bool * list token_row :=
  (bool_decide (0 < rowcount token_id t)%nat, set_inactive token_id t).

(** [Database.delete_api_token] *)
Definition delete_api_token (token_id : Z) (t : list token_row)
    : bool * list token_row :=
  (bool_decide (0 < rowcount token_id t)%nat,
   filter (λ r, id r ≠ token_id) t).

(** [Database.create_api_token]: [fresh] is the value of
    [secrets.token_urlsafe(32)] and [new_id] the rowid SQLite assigns;
    the [INSERT] fails ([None]) when a constraint would be broken. *)
Definition create_api_token (fresh : string) (new_id : Z) (nm now : string)
    (t : list token_row) : option (string * list token_row) :=
  if bool_decide (fresh ∈ token <$> t) || bool_decide (new_id ∈ id <$> t)
  then None
  else Some (fresh, t ++ [mk_row new_id fresh nm now None 1]).

(** A table with two active tokens. *)
Definition two_tokens : list token_row :=
  [ mk_row 1 "tok-phone" "phone" "2024-01-01T09:00:00" None 1;
    mk_row 2 "tok-tablet" "tablet" "2024-01-02T09:00:00" None 1 ].

End Database.

(* ===================================================================== *)
(** ** app/core/gamification.py: level lookup                             *)
(* ===================================================================== *)

Module GamificationMore.
Import Datetime Gamification.

(** [get_level_info]: the first entry of [LEVELS] with that level number. *)
Fixpoint find_level (lv : Z) (levels : list Level) : option Level :=
  match levels with
  | [] => None
  | lvl :: rest => if bool_decide (level lvl = lv) then Some lvl
                   else find_level lv rest
  end.

Definition get_level_info (lv : Z) : option Level := find_level lv LEVELS.

(** December 31st and the January 1st that follows it. *)
Definition new_years_eve (y : Z) : datetime := date y 12 31.
Definition new_years_day (y : Z) : datetime := date (y + 1) 1 1.

(** The index [get_daily_challenge] computes for a date. *)
Definition challenge_index (d : datetime) : Z :=
  (year d * 365 + tm_yday d) mod Z.of_nat (length DAILY_CHALLENGES).

End GamificationMore.

(* ===================================================================== *)
(** ** app/core/memory.py: frequency table and time statistics            *)
(* ===================================================================== *)

Module MemoryStats.
Import Datetime PyCounter Memory.

(** [sorted(items, key=itemgetter(1), reverse=True)]: a stable sort, so
    entries of equal count keep their order.  [x] comes from before
    [l] and is put in front of the first entry that does not beat it. *)
Fixpoint insert_desc {K} (x : K * nat) (l : list (K * nat)) : list (K * nat) :=
  match l with
  | [] => [x]
  | y :: l' => if (x.2 <? y.2)%nat then y :: insert_desc x l' else x :: l
  end.

Definition sorted_desc {K} (l : list (K * nat)) : list (K * nat) :=
  foldr insert_desc [] l.

(** [y] does not beat [x]: the order of a descending sort. *)
Definition not_beaten {K} (x y : K * nat) : Prop := (y.2 ≤ x.2)%nat.

(** [counter.most_common(n)], which is [heapq.nlargest(n, items, key)],
    documented as [sorted(items, key=key, reverse=True)[:n]]. *)
Definition most_common {K} (n : nat) (c : list (K * nat)) : list (K * nat) :=
  take n (sorted_desc c).

(** [MemoryEngine._count_all_items]; [None] is the exception. *)
Definition _count_all_items (checks : list check)
    : option (list (string * nat)) :=
  most_common 20 <$> count_items checks.

(** The period of the day an hour falls in. *)
Definition period_of (hour : Z) : string :=
  if (6 <=? hour) && (hour <? 12) then "morning"
  else if (12 <=? hour) && (hour <? 17) then "afternoon"
  else if (17 <=? hour) && (hour <? 21) then "evening"
  else "night".

(** [time_stats[period]["total"] += 1] and the status counters, for a
    period that is a key of the dict. *)
Definition bump_period (period : string) (st : option string)
    (stats : list (string * tally)) : list (string * tally) :=
  (λ pt : string * tally,
     if decide (pt.1 = period)
     then (pt.1,
           mk_tally
             (if bool_decide (st = Some "sorted") then S (t_sorted pt.2)
              else t_sorted pt.2)
             (if bool_decide (st = Some "sorted") then t_needs_attention pt.2
              else if bool_decide (st = Some "needs_attention")
                   then S (t_needs_attention pt.2) else t_needs_attention pt.2)
             (S (t_total pt.2)))
     else pt) <$> stats.

(** [MemoryEngine._calculate_time_of_day_stats] *)
Definition _calculate_time_of_day_stats (checks : list check)
    : list (string * tally) :=
  foldl (λ time_stats check,
           match timestamp check with
           | Some dt => bump_period (period_of (hour dt)) (status check) time_stats
           | None => time_stats
           end)
        [ ("morning", mk_tally 0 0 0); ("afternoon", mk_tally 0 0 0);
          ("evening", mk_tally 0 0 0); ("night", mk_tally 0 0 0) ]
        checks.

(** The 12-hour label of an hour. *)
Definition hour_label (h : Z) : string :=
  if h =? 0 then "midnight"
  else if h =? 12 then "noon"
  else if h <? 12 then pretty h +:+ ":00 AM"
  else pretty (h - 12) +:+ ":00 PM".

(** The [hour_counts] counter of [_find_usual_sorted_time]. *)
Definition hour_counts (checks : list check) : list (Z * nat) :=
  foldl (λ counter check,
           if bool_decide (status check = Some "sorted") then
             match timestamp check with
             | Some dt => incr (hour dt) counter
             | None => counter
             end
           else counter)
        [] checks.

(** [MemoryEngine._find_usual_sorted_time] *)
Definition _find_usual_sorted_time (checks : list check) : option string :=
  match hour_counts checks with
  | [] => None
  | counts => match most_common_1 counts with
              | (h, _) :: _ => Some (hour_label h)
              | [] => None
              end
  end.

(** *** Vocabulary of the statements *)

(** The weekday names, periods and hours of the checks with a readable
    timestamp, in history order. *)
Definition days_all (checks : list check) : list string :=
  omap (λ c, strftime_A <$> timestamp c) checks.

Definition periods_all (checks : list check) : list string :=
  omap (λ c, (λ dt, period_of (hour dt)) <$> timestamp c) checks.

Definition periods_with (wanted : string) (checks : list check) : list string :=
  omap (λ c, if bool_decide (status c = Some wanted)
             then (λ dt, period_of (hour dt)) <$> timestamp c else None) checks.

Definition sorted_hours (checks : list check) : list Z :=
  omap (λ c, if bool_decide (status c = Some "sorted")
             then hour <$> timestamp c else None) checks.

(** The tally the statistics hold for a key, from the lists of keys of
    all checks, of the sorted ones and of those needing attention. *)
Definition tally_of (k : string) (all sorted needing : list string) : tally :=
  mk_tally (occurrences k sorted) (occurrences k needing) (occurrences k all).

(** What one check of status [st] adds to a tally. *)
Definition tally_bump (st : option string) (t : tally) : tally :=
  mk_tally
    (if bool_decide (st = Some "sorted") then S (t_sorted t) else t_sorted t)
    (if bool_decide (st = Some "sorted") then t_needs_attention t
     else if bool_decide (st = Some "needs_attention")
          then S (t_needs_attention t) else t_needs_attention t)
    (S (t_total t)).

(** The four periods, in the order of the dict literal. *)
Definition PERIODS : list string := ["morning"; "afternoon"; "evening"; "night"].

End MemoryStats.

(* ===================================================================== *)
(** ** app/core/models.py                                                 *)
(* ===================================================================== *)

Module SpotPatterns.
Import Memory.
(** [SpotPatterns] *)
Record t := mk {
  recurring_items : list (string * nat);
  usually_sorted_by : option string;
  worst_day : option string;
  best_day : option string;
  items_frequency : list (string * nat);
  day_of_week_stats : list (string * tally);
  time_of_day_stats : list (string * tally);
  pattern_insights : list string
}.
(** The field defaults of the dataclass. *)
Definition empty : t := mk [] None None None [] [] [] [].
End SpotPatterns.

Module SpotMemory.
(** [SpotMemory] *)
Record t := mk {
  spot_id : Z;
  patterns : SpotPatterns.t;
  current_streak : Z;
  longest_streak : Z;
  total_checks : Z;
  last_check_status : option string;
  xp_total : Z;
  level : Z;
  level_name : string;
  achievements : list string
}.
End SpotMemory.

Module Spot.
(** [SpotStatus] *)
Inductive SpotStatus := SORTED | NEEDS_ATTENTION | ERROR | UNKNOWN | SNOOZED.

(** [Spot] *)
Record t := mk {
  id : Z;
  name : string;
  camera_entity : string;
  definition : string;
  spot_type : string;
  voice : string;
  custom_voice_prompt : option string;
  personality : option string;
  created_at : option string;
  status : SpotStatus;
  last_check : option string;
  current_streak : Z;
  longest_streak : Z;
  snoozed_until : option string;
  total_resets : Z;
  last_reset : option string;
  check_schedule : option string;
  dream_state_image : option string;
  dream_state_generating : bool;
  dream_state_error : option string
}.
End Spot.

(* ===================================================================== *)
(** ** app/core/memory.py: memory and prompt context                      *)
(* ===================================================================== *)

Module MemoryContext.
Import Datetime PyCounter Memory MemoryStats.

(** The newline character. *)
Definition newline : string := String (ascii_of_nat 10) EmptyString.

Section Calculate.
(** [_generate_pattern_insights] formats floating-point rates into
    text; it is taken as given, whatever strings it returns. *)
Variable _generate_pattern_insights :
  list check → list (string * nat) → list (string * tally)
  → list (string * tally) → list string.

(** [MemoryEngine.calculate_memory]; [None] stands for an exception:
    the [AttributeError] of an item that is not a string, or the
    [KeyError] of [last_check["status"]] on a last check without
    status. *)
Definition calculate_memory (spot_id : Z) (checks : list check)
    (spot : option Spot.t) : option SpotMemory.t :=
  let current_streak :=
    match spot with Some s => Spot.current_streak s | None => 0 end in
  let longest_streak :=
    match spot with Some s => Spot.longest_streak s | None => 0 end in
  match last checks with
  | None =>
      Some (SpotMemory.mk spot_id SpotPatterns.empty current_streak
              longest_streak 0 None 0 1 "Tidy Novice" [])
  | Some last_check =>
      items_frequency ← _count_all_items checks;
      let day_stats := _calculate_day_of_week_stats checks in
      let time_stats := _calculate_time_of_day_stats checks in
      let insights :=
        _generate_pattern_insights checks items_frequency day_stats
          time_stats in
      recurring_items ← _count_recurring_items checks;
      let patterns :=
        SpotPatterns.mk recurring_items (_find_usual_sorted_time checks)
          (_find_worst_day checks) (_find_best_day checks) items_frequency
          day_stats time_stats insights in
      st ← status last_check;
      Some (SpotMemory.mk spot_id patterns current_streak longest_streak
              (Z.of_nat (length checks)) (Some st) 0 1 "Tidy Novice" [])
  end.
End Calculate.

(** The [lines] list of [build_memory_context] for a memory with checks. *)
Definition context_lines (memory : SpotMemory.t) : list string :=
  let p := SpotMemory.patterns memory in
  [ "Total checks: " +:+ pretty (SpotMemory.total_checks memory) ]
  ++ (if truthy (SpotMemory.last_check_status memory)
      then [ "Last check: " +:+ default "" (SpotMemory.last_check_status memory) ]
      else [])
  ++ (if 0 <? SpotMemory.current_streak memory
      then [ "Current streak: " +:+ pretty (SpotMemory.current_streak memory)
             +:+ " days" ]
      else [])
  ++ (match SpotPatterns.recurring_items p with
      | [] => []
      | items =>
          [ "Recurring items: "
            +:+ String.concat ", "
                  ((λ ic : string * nat, ic.1 +:+ " (" +:+ pretty ic.2 +:+ "x)")
                     <$> take 3 items) ]
      end)
  ++ (if truthy (SpotPatterns.worst_day p)
      then [ "Worst day: " +:+ default "" (SpotPatterns.worst_day p) ] else [])
  ++ (if truthy (SpotPatterns.best_day p)
      then [ "Best day: " +:+ default "" (SpotPatterns.best_day p) ] else [])
  ++ (if truthy (SpotPatterns.usually_sorted_by p)
      then [ "Usually sorted by: "
             +:+ default "" (SpotPatterns.usually_sorted_by p) ]
      else []).

(** [MemoryEngine.build_memory_context] *)
Definition build_memory_context (memory : SpotMemory.t) : string :=
  if SpotMemory.total_checks memory =? 0 then "First check - no history yet."
  else match context_lines memory with
       | [] => "No patterns detected yet."
       | lines => String.concat newline lines
       end.

End MemoryContext.

(* ===================================================================== *)
(** ** JSON values and app/core/memory.py: enrich_items_with_recurring    *)
(* ===================================================================== *)

Module Json.

(** A JSON value as Python holds it; a float is kept as its text. *)
Inductive value :=
| Null
| Bool (b : bool)
| Int (n : Z)
| Float (repr : string)
| Str (s : string)
| List (l : list value)
| Dict (d : list (string * value)).

(** An element of a to-sort list: a dict, or any other value, of which
    the code reads [str(item)] only. *)
Inductive item := Obj (d : gmap string value) | Other (text : string).

End Json.

Module Enrich.
Import Memory Json.

(** [recurring_items[k]] when [k in recurring_items]. *)
Definition dict_lookup (k : string) (d : list (string * nat)) : option nat :=
  snd <$> List.find (λ p : string * nat, bool_decide (p.1 = k)) d.

(** The to-sort entry the memory engine reads off an item. *)
Definition entry_of (it : item) : to_sort_entry :=
  match it with
  | Obj d => match d !! "item" with
             | None => EntryDict None
             | Some (Str s) => EntryDict (Some (ItemStr s))
             | Some _ => EntryDict (Some ItemOther)
             end
  | Other text => EntryOther text
  end.

(** The body of the loop of [enrich_items_with_recurring]; [None] is the
    [AttributeError] of a value under ["item"] that is not a string. *)
Definition enrich_item (recurring_items : list (string * nat)) (it : item)
    : option (gmap string value) :=
  match it with
  | Obj d =>
      match default (Str "") (d !! "item") with
      | Str s =>
          let item_name := Unicode.strip (Unicode.lower s) in
          Some match dict_lookup item_name recurring_items with
               | Some n => <["recurrence_count" := Int (Z.of_nat n)]>
                             (<["recurring" := Bool true]> d)
               | None => <["recurring" := Bool false]> d
               end
      | _ => None
      end
  | Other text =>
      let item_name := Unicode.strip (Unicode.lower text) in
      Some match dict_lookup item_name recurring_items with
           | Some n => <["recurrence_count" := Int (Z.of_nat n)]>
                         (<["recurring" := Bool true]>
                            (<["item" := Str text]> ∅))
           | None => <["recurring" := Bool false]> (<["item" := Str text]> ∅)
           end
  end.

(** [MemoryEngine.enrich_items_with_recurring] *)
Definition enrich_items_with_recurring (items : list item)
    (recurring_items : list (string * nat))
    : option (list (gmap string value)) :=
  mapM (enrich_item recurring_items) items.

End Enrich.

Module Samples.
Import Memory Json.

(** A pattern-insight generator that reports nothing. *)
Definition no_insights (_ : list check) (_ : list (string * nat))
    (_ _ : list (string * tally)) : list string := [].

(** A to-sort list as the model returns it: a dict and a bare string. *)
Definition two_items : list item :=
  [ Obj (<["priority" := Str "high"]> (<["item" := Str " Mug "]> ∅));
    Other "Sock" ].

End Samples.

(* ===================================================================== *)
(** ** app/db/sqlite.py: gamification and spots                           *)
(* ===================================================================== *)

Module GamificationDb.
Import Gamification.

(** The text of the [achievements_json] column, by what [json.loads]
    makes of it: a list of strings, or a [JSONDecodeError] (the empty
    text, which the code does not even parse, included).  [json.dumps]
    of a list of strings is the text that decodes to it. *)
Inductive json_text := Malformed | ListOf (l : list string).

(** A row of [gamification]; SQLite integers are taken unbounded. *)
Record row := mk_row {
  id : Z;
  xp_total : Z;
  level : Z;
  achievements_json : option json_text;
  daily_challenge_completed : option string;
  last_reset_session : option string;
  spots_reset_in_session : option Z;
  updated_at : string
}.

(** The dict [get_gamification_state] returns; the last two keys are
    missing ([None]) from the default it returns without a row. *)
Record state := mk_state {
  s_xp_total : Z;
  s_level : Z;
  s_level_name : string;
  s_level_emoji : string;
  s_xp_to_next_level : Z;
  s_xp_progress_percent : Q;
  achievements_unlocked : list string;
  s_daily_challenge_completed : option (option string);
  s_spots_reset_in_session : option Z
}.

(** [_ensure_gamification_row]; [new_id] is the rowid SQLite assigns. *)
Definition _ensure_gamification_row (new_id : Z) (now : string)
    (t : list row) : list row :=
  if (length t =? 0)%nat
  then t ++ [mk_row new_id 0 1 (Some (ListOf [])) None None (Some 0) now]
  else t.

(** [get_gamification_state]; [None] only if [calculate_level] raised.
    The emoji of the default is the text the source file holds. *)
Definition get_gamification_state (t : list row) : option state :=
  match head t with
  | None => Some (mk_state 0 1 "Tidy Novice" "ðŸŒ±" 250 0 [] None None)
  | Some row =>
      let xp_total := xp_total row in
      level_info ← calculate_level xp_total;
      let achievements :=
        match achievements_json row with
        | Some (ListOf l) => l
        | Some Malformed | None => []
        end in
      Some (mk_state xp_total (li_level level_info) (li_name level_info)
              (li_emoji level_info) (xp_to_next_level level_info)
              (xp_progress_percent level_info) achievements
              (Some (daily_challenge_completed row))
              (Some (default 0 (spots_reset_in_session row))))
  end.

(** [UPDATE gamification SET xp_total = xp_total + ?, updated_at = ?] *)
Definition update_xp (amount : Z) (now : string) (t : list row) : list row :=
  (λ r, mk_row (id r) (xp_total r + amount) (level r) (achievements_json r)
          (daily_challenge_completed r) (last_reset_session r)
          (spots_reset_in_session r) now) <$> t.

(** [add_xp]: the state returned and the table afterwards. *)
Definition add_xp (amount : Z) (now : string) (t : list row)
    : option state * list row :=
  let t' := update_xp amount now t in
  (get_gamification_state t', t').

(** [UPDATE gamification SET achievements_json = ?, updated_at = ?] *)
Definition update_achievements (achievements : list string) (now : string)
    (t : list row) : list row :=
  (λ r, mk_row (id r) (xp_total r) (level r) (Some (ListOf achievements))
          (daily_challenge_completed r) (last_reset_session r)
          (spots_reset_in_session r) now) <$> t.

(** [unlock_achievement] *)
Definition unlock_achievement (achievement_id : string) (now : string)
    (t : list row) : option (bool * list row) :=
  state ← get_gamification_state t;
  let achievements := achievements_unlocked state in
  if bool_decide (achievement_id ∈ achievements) then Some (false, t)
  else
    let achievements := achievements ++ [achievement_id] in
    Some (true, update_achievements achievements now t).

(** [UPDATE gamification SET spots_reset_in_session = ?,
    last_reset_session = ?, updated_at = ?] *)
Definition update_session (current_count : Z) (today now : string)
    (t : list row) : list row :=
  (λ r, mk_row (id r) (xp_total r) (level r) (achievements_json r)
          (daily_challenge_completed r) (Some today) (Some current_count)
          now) <$> t.

(** [increment_session_resets]; [now] and [today] are the two readings
    of the clock. *)
Definition increment_session_resets (now today : string) (t : list row)
    : Z * list row :=
  let row := head t in
  let last_session := row ≫= last_reset_session in
  let current_count :=
    match row with
    | Some r => default 0 (spots_reset_in_session r)
    | None => 0
    end in
  let current_count :=
    if bool_decide (last_session ≠ Some today) then 0 else current_count in
  let current_count := current_count + 1 in
  (current_count, update_session current_count today now t).

(** [UPDATE gamification SET daily_challenge_completed = ?,
    updated_at = ?] *)
Definition update_daily (today now : string) (t : list row) : list row :=
  (λ r, mk_row (id r) (xp_total r) (level r) (achievements_json r)
          (Some today) (last_reset_session r) (spots_reset_in_session r)
          now) <$> t.

(** [complete_daily_challenge] *)
Definition complete_daily_challenge (today now : string) (t : list row)
    : bool * list row :=
  match head t with
  | Some row =>
      if bool_decide (daily_challenge_completed row = Some today)
      then (false, t)
      else (true, update_daily today now t)
  | None => (true, update_daily today now t)
  end.

(** The table right after [init] on a new database. *)
Definition fresh_table : list row :=
  _ensure_gamification_row 1 "2024-01-01T09:00:00" [].

End GamificationDb.

Module SpotsDb.

(** A row of [spots], with the columns the migrations of [init] add. *)
Record row := mk_row {
  id : Z;
  name : string;
  camera_entity : string;
  definition : string;
  spot_type : string;
  voice : string;
  custom_voice_prompt : option string;
  personality : option string;
  created_at : string;
  status : string;
  last_check : option string;
  current_streak : Z;
  longest_streak : Z;
  snoozed_until : option string;
  total_resets : Z;
  last_reset : option string;
  check_schedule : option string;
  dream_state_image : option string;
  dream_state_generating : option Z;
  dream_state_error : option string
}.

(** [SpotStatus(value)]; [None] is its [ValueError]. *)
Definition SpotStatus_of (value : string) : option Spot.SpotStatus :=
  if bool_decide (value = "sorted") then Some Spot.SORTED
  else if bool_decide (value = "needs_attention") then Some Spot.NEEDS_ATTENTION
  else if bool_decide (value = "error") then Some Spot.ERROR
  else if bool_decide (value = "unknown") then Some Spot.UNKNOWN
  else if bool_decide (value = "snoozed") then Some Spot.SNOOZED
  else None.

(** [_row_to_spot]; [None] is the [ValueError] of an unknown status. *)
Definition _row_to_spot (r : row) : option Spot.t :=
  st ← (if bool_decide (status r = "") then Some Spot.UNKNOWN
        else SpotStatus_of (status r));
  Some (Spot.mk (id r) (name r) (camera_entity r) (definition r)
          (spot_type r) (voice r) (custom_voice_prompt r) (personality r)
          (Some (created_at r)) st (last_check r) (current_streak r)
          (longest_streak r) (snoozed_until r) (total_resets r)
          (last_reset r) (check_schedule r) (dream_state_image r)
          (match dream_state_generating r with
           | Some z => negb (z =? 0)
           | None => false
           end)
          (dream_state_error r)).

(** [get_spot]: the outer [None] is an exception, the inner one the
    [None] returned for a missing row. *)
Definition get_spot (spot_id : Z) (t : list row) : option (option Spot.t) :=
  match List.find (λ r, bool_decide (id r = spot_id)) t with
  | None => Some None
  | Some r => Some <$> _row_to_spot r
  end.

(** A keyword argument of [update_spot], for the columns that
    [record_reset] assigns. *)
Inductive assignment :=
  | set_status (v : string)
  | set_current_streak (v : Z)
  | set_longest_streak (v : Z)
  | set_total_resets (v : Z)
  | set_last_reset (v : string).

(** One assignment of the [SET] clause. *)
Definition assign (r : row) (a : assignment) : row :=
  match a with
  | set_status v =>
      mk_row (id r) (name r) (camera_entity r) (definition r) (spot_type r)
        (voice r) (custom_voice_prompt r) (personality r) (created_at r)
        v (last_check r) (current_streak r) (longest_streak r)
        (snoozed_until r) (total_resets r) (last_reset r) (check_schedule r)
        (dream_state_image r) (dream_state_generating r) (dream_state_error r)
  | set_current_streak v =>
      mk_row (id r) (name r) (camera_entity r) (definition r) (spot_type r)
        (voice r) (custom_voice_prompt r) (personality r) (created_at r)
        (status r) (last_check r) v (longest_streak r)
        (snoozed_until r) (total_resets r) (last_reset r) (check_schedule r)
        (dream_state_image r) (dream_state_generating r) (dream_state_error r)
  | set_longest_streak v =>
      mk_row (id r) (name r) (camera_entity r) (definition r) (spot_type r)
        (voice r) (custom_voice_prompt r) (personality r) (created_at r)
        (status r) (last_check r) (current_streak r) v
        (snoozed_until r) (total_resets r) (last_reset r) (check_schedule r)
        (dream_state_image r) (dream_state_generating r) (dream_state_error r)
  | set_total_resets v =>
      mk_row (id r) (name r) (camera_entity r) (definition r) (spot_type r)
        (voice r) (custom_voice_prompt r) (personality r) (created_at r)
        (status r) (last_check r) (current_streak r) (longest_streak r)
        (snoozed_until r) v (last_reset r) (check_schedule r)
        (dream_state_image r) (dream_state_generating r) (dream_state_error r)
  | set_last_reset v =>
      mk_row (id r) (name r) (camera_entity r) (definition r) (spot_type r)
        (voice r) (custom_voice_prompt r) (personality r) (created_at r)
        (status r) (last_check r) (current_streak r) (longest_streak r)
        (snoozed_until r) (total_resets r) (Some v) (check_schedule r)
        (dream_state_image r) (dream_state_generating r) (dream_state_error r)
  end.

(** [update_spot]: the answer and the table afterwards. *)
Definition update_spot (spot_id : Z) (kwargs : list assignment)
    (t : list row) : bool * list row :=
  match kwargs with
  | [] => (false, t)
  | _ =>
      (bool_decide (0 < length (filter (λ r, id r = spot_id) t))%nat,
       (λ r, if bool_decide (id r = spot_id) then foldl assign r kwargs
             else r) <$> t)
  end.

(** [record_reset]; [None] is an exception of [get_spot]. *)
Definition record_reset (spot_id : Z) (now : string) (t : list row)
    : option (list row) :=
  spot ← get_spot spot_id t;
  match spot with
  | None => Some t
  | Some spot =>
      let new_streak := Spot.current_streak spot + 1 in
      let longest := Z.max (Spot.longest_streak spot) new_streak in
      Some (update_spot spot_id
              [ set_status "sorted"; set_current_streak new_streak;
                set_longest_streak longest;
                set_total_resets (Spot.total_resets spot + 1);
                set_last_reset now ] t).2
  end.

(** [record_reset] once for each clock reading of [nows], in order. *)
Definition record_resets (spot_id : Z) (nows : list string) (t : list row)
    : option (list row) :=
  foldl (λ acc now, acc ≫= record_reset spot_id now) (Some t) nows.

(** Two spots: a desk on a 2-day streak and a sink never reset. *)
Definition two_spots : list row :=
  [ mk_row 1 "Desk" "camera.desk" "Clear desk" "work" "supportive" None None
      "2024-01-01T09:00:00" "needs_attention" None 2 5 None 7 None None None
      (Some 0) None;
    mk_row 2 "Sink" "camera.sink" "Empty sink" "kitchen" "supportive" None
      None "2024-01-02T09:00:00" "unknown" None 0 0 None 0 None None None
      (Some 0) None ].

End SpotsDb.

(* ===================================================================== *)
(** ** app/camera: camera URLs and custom cameras                         *)
(* ===================================================================== *)

Module CameraUrls.
Import Camera.

(** [s[n:]] *)
Fixpoint string_drop (n : nat) (s : string) : string :=
  match n, s with
  | O, _ => s
  | S n', String _ s' => string_drop n' s'
  | S _, EmptyString => EmptyString
  end.

(** [sub in s] *)
Fixpoint contains (sub s : string) : bool :=
  String.prefix sub s
  || match s with
     | EmptyString => false
     | String _ s' => contains sub s'
     end.

(** [s.split(sep, 1)], cut at the first [sep]: [None] when there is no
    [sep], in which case Python returns the one-element list [[s]]. *)
Fixpoint split_1 (sep s : string) : option (string * string) :=
  if String.prefix sep s
  then Some (EmptyString, string_drop (String.length sep) s)
  else match s with
       | EmptyString => None
       | String c s' =>
           (λ ab : string * string, (String c ab.1, ab.2)) <$> split_1 sep s'
       end.

(** [s.rsplit(sep, 1)], cut at the last [sep]. *)
Fixpoint rsplit_1 (sep s : string) : option (string * string) :=
  match s with
  | EmptyString => None
  | String c s' =>
      match rsplit_1 sep s' with
      | Some ab => Some (String c ab.1, ab.2)
      | None =>
          if String.prefix sep s
          then Some (EmptyString, string_drop (String.length sep) s)
          else None
      end
  end.

(** [RTSPCamera._mask_credentials] and [MJPEGCamera._mask_credentials],
    which have the same body; [None] is the [ValueError] of unpacking a
    one-element list. *)
Definition _mask_credentials (url : string) : option string :=
  if contains "@" url && contains "://" url then
    match split_1 "://" url with
    | Some (prefix, rest) =>
        if contains "@" rest then
          match rsplit_1 "@" rest with
          | Some (creds, host_part) =>
              Some (prefix +:+ "://***@" +:+ host_part)
          | None => None
          end
        else Some url
    | None => None
    end
  else Some url.

(** [RTSPCamera._build_rtsp_url] on the values [cam.get] returns for
    ["url"], ["username"] and ["password"], a string or Python's [None]
    each.  The outer [None] is an exception: the [TypeError] of
    ["://" in url] on a [None], or the [ValueError] of unpacking. *)
Definition _build_rtsp_url (url username password : option string)
    : option (option string) :=
  if truthy username && truthy password then
    match url with
    | None => None
    | Some u =>
        if contains "://" u && negb (contains "@" u) then
          match split_1 "://" u with
          | Some (prefix, rest) =>
              Some (Some (prefix +:+ "://" +:+ default "" username +:+ ":"
                          +:+ default "" password +:+ "@" +:+ rest))
          | None => None
          end
        else Some url
    end
  else Some url.

End CameraUrls.

Module CustomCameras.
Import Camera CameraUrls.

(** A key of a camera dict: missing ([None]), or there with a value
    that is Python's [None] or a value of the column's type. *)
Definition field (A : Type) : Type := option (option A).

(** [cam.get(key, default)] *)
Definition get {A} (f : field A) (default : option A) : option A :=
  match f with
  | None => default
  | Some v => v
  end.

(** A camera dict: the keys the adapters read, with values of the
    types of the camera table, and whether the dict holds further keys. *)
Record camera_dict := mk_cam {
  cam_id : field Z;
  cam_name : field string;
  cam_camera_type : field string;
  cam_url : field string;
  cam_host : field string;
  cam_port : field Z;
  cam_username : field string;
  cam_password : field string;
  cam_further_keys : bool
}.

(** [CameraInfo]; a name or URL read from the dict may be [None]. *)
Record CameraInfo := mk_info {
  id : string;
  name : option string;
  camera_type : string;
  url : option string;
  state : string
}.

(** [f"{v}"] of a value that may be [None]. *)
Definition format {A} `{Pretty A} (v : option A) : string :=
  match v with
  | Some a => pretty a
  | None => "None"
  end.

(** [CameraManager.load_custom_cameras]: the lists handed to the
    [set_cameras] of the RTSP, MJPEG and ONVIF adapters. *)
Definition load_custom_cameras (cameras : list camera_dict)
    : list camera_dict * list camera_dict * list camera_dict :=
  foldl (λ '(rtsp_cameras, mjpeg_cameras, onvif_cameras) cam,
           let cam_type := get (cam_camera_type cam) (Some "mjpeg") in
           if bool_decide (cam_type = Some "rtsp")
           then (rtsp_cameras ++ [cam], mjpeg_cameras, onvif_cameras)
           else if bool_decide (cam_type = Some "mjpeg")
           then (rtsp_cameras, mjpeg_cameras ++ [cam], onvif_cameras)
           else if bool_decide (cam_type = Some "onvif")
           then (rtsp_cameras, mjpeg_cameras, onvif_cameras ++ [cam])
           else (rtsp_cameras, mjpeg_cameras, onvif_cameras))
        ([], [], []) cameras.

(** One [CameraInfo] of [RTSPCamera.get_cameras]; [None] is the
    [TypeError] of ["@" in url] on a [None]. *)
Definition rtsp_info (i : nat) (cam : camera_dict) : option CameraInfo :=
  url ← get (cam_url cam) (Some "");
  masked ← _mask_credentials url;
  Some (mk_info ("rtsp_" +:+ format (get (cam_id cam) (Some (Z.of_nat i))))
          (get (cam_name cam) (Some ("RTSP Camera " +:+ pretty i)))
          "rtsp" (Some masked) "unknown").

(** [RTSPCamera.get_cameras] *)
Definition rtsp_get_cameras (_cameras : list camera_dict)
    : option (list CameraInfo) :=
  mapM (λ x, x) (imap rtsp_info _cameras).

(** One [CameraInfo] of [MJPEGCamera.get_cameras]. *)
Definition mjpeg_info (i : nat) (cam : camera_dict) : option CameraInfo :=
  url ← get (cam_url cam) (Some "");
  masked ← _mask_credentials url;
  Some (mk_info ("mjpeg_" +:+ format (get (cam_id cam) (Some (Z.of_nat i))))
          (get (cam_name cam) (Some ("HTTP Camera " +:+ pretty i)))
          "mjpeg" (Some masked) "unknown").

(** [MJPEGCamera.get_cameras] *)
Definition mjpeg_get_cameras (_cameras : list camera_dict)
    : option (list CameraInfo) :=
  mapM (λ x, x) (imap mjpeg_info _cameras).

(** The text of a string that may be [None], as an f-string writes it. *)
Definition format_str (v : option string) : string := default "None" v.

(** [ONVIFCameraAdapter.get_cameras] *)
Definition onvif_get_cameras (_cameras : list camera_dict)
    (_discovered_cameras : list CameraInfo) : list CameraInfo :=
  imap (λ i cam,
          let host := get (cam_host cam) (get (cam_url cam) (Some "")) in
          let port := get (cam_port cam) (Some 80) in
          mk_info ("onvif_" +:+ format (get (cam_id cam) (Some (Z.of_nat i))))
            (get (cam_name cam)
               (Some ("ONVIF Camera (" +:+ format_str host +:+ ")")))
            "onvif"
            (Some ("http://" +:+ format_str host +:+ ":" +:+ format port))
            "unknown")
       _cameras
  ++ _discovered_cameras.

(** [str(c.get('id'))] *)
Definition str_id (c : camera_dict) : string := format (get (cam_id c) None).

(** The truth value of a camera dict: an empty dict is false. *)
Definition dict_truthy (c : camera_dict) : bool :=
  match c with
  | mk_cam None None None None None None None None false => false
  | _ => true
  end.

(** The [for c in self._cameras] loop of [get_snapshot_with_error] of
    the RTSP, MJPEG and ONVIF adapters, for the prefix of the adapter:
    the camera the request goes to, or [None] on the way to the
    [not_found] error. *)
Definition find_camera (prefix : string) (_cameras : list camera_dict)
    (camera_id : string) : option camera_dict :=
  match List.find (λ c, bool_decide (prefix +:+ str_id c = camera_id))
          _cameras with
  | Some cam => if dict_truthy cam then Some cam else None
  | None => None
  end.

(** The type under which [load_custom_cameras] files a camera. *)
Definition filed_as (type : string) (cam : camera_dict) : Prop :=
  get (cam_camera_type cam) (Some "mjpeg") = Some type.

#[export] Instance filed_as_dec (type : string) (cam : camera_dict) : Decision (filed_as type cam).
Proof. unfold filed_as. apply _. Defined.

(** The cameras an adapter lists, one per camera it holds: each of the
    adapter's type, under an id that leads back to the adapter, and for a
    camera stored with an integer id under an id the lookup loop finds. *)
Definition listed (type : string) (adapter : Camera.adapter)
    (all held : list camera_dict) (infos : list CameraInfo) : Prop :=
  ∀ (i : nat) (cam : camera_dict), held !! i = Some cam →
    ∃ info, infos !! i = Some info
      ∧ camera_type info = type
      ∧ _get_adapter_for_camera (id info) = adapter
      ∧ ∀ z, cam_id cam = Some (Some z) →
          id info = type +:+ "_" +:+ pretty z
          ∧ ∃ cam', find_camera (type +:+ "_") held (id info) = Some cam'
                    ∧ cam' ∈ all ∧ cam_id cam' = Some (Some z).

(** Three cameras of the database: two RTSP ones and one without type. *)
Definition three_cameras : list camera_dict :=
  [ mk_cam (Some (Some 4)) (Some (Some "Porch")) (Some (Some "rtsp"))
      (Some (Some "rtsp://192.168.1.10:554/stream1")) None None
      (Some (Some "admin")) (Some (Some "s3cret")) false;
    mk_cam (Some (Some 5)) None None
      (Some (Some "http://192.168.1.11/snap.jpg")) None None None None
      false;
    mk_cam (Some (Some 9)) (Some (Some "Shed")) (Some (Some "rtsp"))
      (Some (Some "rtsp://viewer:pw@192.168.1.12/live")) None None
      (Some None) (Some None) true ].

End CustomCameras.

(* ===================================================================== *)
(** ** app/api/routes.py: the reward of a verified reset                  *)
(* ===================================================================== *)

Module ResetRoute.
Import Datetime Gamification.

(** The dict [reset_spot] returns for a spot verified as tidy. *)
Record response := mk_response {
  message : string;
  status : string;
  new_streak : Z;
  xp_earned : Z;
  level : Z;
  achievements_unlocked : list string;
  check_id : Z
}.

(** The achievements [reset_spot] tries, in the order of its list. *)
Definition candidates : list string :=
  [ "first_blood"; "streak_3"; "streak_7"; "streak_30"; "speed_demon";
    "multi_spot"; "centurion" ].

Section Reset.
(** The readings of the clock: [clock n] is [datetime.utcnow().isoformat()]
    at the [n]-th place that reads it, [today] the date read by
    [increment_session_resets], and [local k] the [datetime.now()] of
    round [k] of the achievement loop. *)
Variables (clock : nat → string) (today : string) (local : nat → datetime).
(** The spot, the minutes since its last check and the id of the check
    just saved. *)
Variables (spot_id : Z) (minutes_since_check : option Z) (the_check_id : Z).

(** The [for achievement_id in [...]] loop, from round [k] on; [None] is
    an exception. *)
Fixpoint achievement_loop (ids : list string) (k : nat)
    (updated_spot : Spot.t) (session_resets : Z)
    (gam : list GamificationDb.row) (achievements_unlocked : list string)
    (xp_earned : Z)
    : option (list GamificationDb.row * list string * Z) :=
  match ids with
  | [] => Some (gam, achievements_unlocked, xp_earned)
  | achievement_id :: ids' =>
      if check_achievement_unlock achievement_id
           (mk_context (Spot.current_streak updated_spot)
              (Spot.total_resets updated_spot) (Some (local k))
              minutes_since_check 0 session_resets 0)
      then
        '(newly_unlocked, gam1) ←
          GamificationDb.unlock_achievement achievement_id
            (clock (3 + 2 * k)%nat) gam;
        if (newly_unlocked : bool) then
          achievement ← ACHIEVEMENTS !! achievement_id;
          let bonus_xp := xp_bonus achievement in
          let added :=
            GamificationDb.add_xp bonus_xp (clock (4 + 2 * k)%nat) gam1 in
          state ← added.1;
          achievement_loop ids' (S k) updated_spot session_resets added.2
            (achievements_unlocked ++ [achievement_id])
            (xp_earned + bonus_xp)
        else
          achievement_loop ids' (S k) updated_spot session_resets gam1
            achievements_unlocked xp_earned
      else
        achievement_loop ids' (S k) updated_spot session_resets gam
          achievements_unlocked xp_earned
  end.

(** The block of [reset_spot] that runs when the analysis answers
    "sorted", on the tables of spots and of gamification: the response
    and the tables afterwards, or [None] for an exception. *)
Definition reset_spot_sorted (spots : list SpotsDb.row)
    (gam : list GamificationDb.row)
    : option (response * list SpotsDb.row * list GamificationDb.row) :=
  spots' ← SpotsDb.record_reset spot_id (clock 0) spots;
  updated ← SpotsDb.get_spot spot_id spots';
  updated_spot ← updated;
  let xp_earned :=
    calculate_xp_for_action "reset" (Spot.current_streak updated_spot)
      minutes_since_check in
  let added := GamificationDb.add_xp xp_earned (clock 1) gam in
  gamification_state ← added.1;
  let session :=
    GamificationDb.increment_session_resets (clock 2) today added.2 in
  looped ← achievement_loop candidates 0 updated_spot session.1 session.2
              [] xp_earned;
  let '(gam', achievements_unlocked, xp_earned) := looped in
  Some (mk_response "Spot verified as tidy! Great work!" "sorted"
          (Spot.current_streak updated_spot) xp_earned
          (GamificationDb.s_level gamification_state) achievements_unlocked
          the_check_id,
        spots', gam').

End Reset.

(** The XP bonuses of a list of achievements. *)
Definition bonus_total (ids : list string) : Z :=
  foldr Z.add 0 ((λ a, default 0 (xp_bonus <$> ACHIEVEMENTS !! a)) <$> ids).

(** A clock for the examples. *)
Definition sample_clock (n : nat) : string :=
  "2024-01-03T09:00:" +:+ pretty (10 + n)%nat.

End ResetRoute.

(* ===================================================================== *)
(** ** app/api/auth.py: the token routes                                  *)
(* ===================================================================== *)

Module AuthRoutes.
Import Database.

(** What a route does: it returns a value or raises an [HTTPException]. *)
Inductive http (A : Type) :=
  | Returns (a : A)
  | HTTPException (status_code : Z) (detail : string).
Arguments Returns {A} a.
Arguments HTTPException {A} status_code detail.

(** [CreateTokenResponse] *)
Record CreateTokenResponse := mk_created {
  r_token : string;
  r_name : string;
  r_message : string
}.

(** [VerifyTokenResponse] *)
Record VerifyTokenResponse := mk_verified {
  valid : bool;
  v_message : string
}.

(** [s[:n]], the first [n] characters. *)
Definition first_chars (n : nat) (s : string) : string :=
  Unicode.encode (take n (Unicode.decode s)).

(** [len(s)] *)
Definition len (s : string) : nat := length (Unicode.decode s).

(** [create_token]; [fresh], [new_id] and [now] are what
    [Database.create_api_token] draws and reads.  The answer and the
    table afterwards. *)
Definition create_token (name : string) (fresh : string) (new_id : Z)
    (now : string) (t : list token_row)
    : http CreateTokenResponse * list token_row :=
  if negb (truthy (Some name)) || (len (Unicode.strip name) <? 1)%nat
  then (HTTPException 400 "Token name is required", t)
  else
    let name := first_chars 50 (Unicode.strip name) in
    match create_api_token fresh new_id name now t with
    | Some (token, t') =>
        (Returns (mk_created token name
           "Token created. Save this token securely - it won't be shown again!"),
         t')
    | None => (HTTPException 500 "Failed to create token", t)
    end.

(** [verify_token]; errors of the database connection are outside the
    model, so the [except] branch is not reached. *)
Definition verify_token (authorization : option string) (now : string)
    (t : list token_row) : VerifyTokenResponse * list token_row :=
  if negb (truthy authorization)
  then (mk_verified false "No authorization header provided", t)
  else
    let authorization := default "" authorization in
    if negb (Camera.startswith authorization "Bearer ")
    then (mk_verified false
            "Invalid authorization header format. Use 'Bearer <token>'", t)
    else
      let token := Unicode.strip (CameraUrls.string_drop 7 authorization) in
      if negb (truthy (Some token))
      then (mk_verified false "No token provided", t)
      else
        let '(is_valid, t') := verify_api_token now token t in
        (mk_verified is_valid
           (if is_valid then "Token is valid"
            else "Token is invalid or revoked"), t').

(** [revoke_token]: the message and id returned, or the 404. *)
Definition revoke_token (token_id : Z) (t : list token_row)
    : http (string * Z) * list token_row :=
  let '(success, t') := revoke_api_token token_id t in
  if negb success then (HTTPException 404 "Token not found", t')
  else (Returns ("Token revoked", token_id), t').

End AuthRoutes.

(* ===================================================================== *)
(** * Properties                                                          *)
(* ===================================================================== *)

(** ** Gamification *)

Module GamificationProofs.
Import Datetime Gamification.

(** Decides every threshold comparison in the goal. *)
Ltac split_thresholds :=
  repeat match goal with
         | |- context [Z.leb ?a ?b] => destruct (Z.leb_spec a b); try lia
         | |- context [Z.ltb ?a ?b] => destruct (Z.ltb_spec a b); try lia
         end.

Ltac unfold_level := unfold calculate_level, LEVELS; cbn -[Z.leb Z.ltb Z.sub].

Lemma XP_REWARDS_streak_day : XP_REWARDS !! "streak_day" = Some 25.
Proof. reflexivity. Qed.

Lemma LEVELS_sorted :
  ∀ (i j : nat) li lj,
    LEVELS !! i = Some li → LEVELS !! j = Some lj → (i < j)%nat →
    xp_required li < xp_required lj ∧ level li < level lj.
Proof.
  intros i j li lj Hi Hj Hlt.
  assert (j < 10)%nat by (apply lookup_lt_Some in Hj; exact Hj).
  do 10 (destruct i as [|i]; [ do 10 (destruct j as [|j]; [ try lia;
    cbn in Hi, Hj; injection Hi as <-; injection Hj as <-; cbn; lia |]); lia |]).
  lia.
Qed.

Lemma calculate_level_total (xp : Z) : is_Some (calculate_level xp).
Proof. unfold_level. split_thresholds; eauto. Qed.

Lemma calculate_level_mono (a b : Z) ra rb :
  a ≤ b → calculate_level a = Some ra → calculate_level b = Some rb →
  li_level ra ≤ li_level rb.
Proof.
  unfold_level. intros Hab.
  split_thresholds; intros [= <-] [= <-]; cbn; lia.
Qed.

Lemma xp_to_next_level_nonneg (xp : Z) r :
  calculate_level xp = Some r → 0 ≤ xp_to_next_level r.
Proof. unfold_level. split_thresholds; intros [= <-]; cbn; lia. Qed.

(** Below the top threshold the remaining XP is strictly positive, and
    it is 0 from the top threshold on. *)
Lemma xp_to_next_level_zero_iff (xp : Z) r :
  calculate_level xp = Some r → (xp_to_next_level r = 0 ↔ 7500 ≤ xp).
Proof. unfold_level. split_thresholds; intros [= <-]; cbn; lia. Qed.

Lemma progress_at_max_level (xp : Z) r :
  7500 ≤ xp → calculate_level xp = Some r →
  li_level r = 10 ∧ xp_progress_percent r = 100%Q.
Proof. unfold_level. intros Hxp. split_thresholds. intros [= <-]. done. Qed.

(** C3. For non-negative XP totals [a ≤ b] the level computed for [a] is
    at most the level computed for [b]; for every XP total (negative
    ones included) [calculate_level] returns and its [xp_to_next_level]
    is non-negative; and once the XP total reaches the threshold of the
    last level of the table the progress percent is exactly 100. *)
Theorem calculate_level_monotone_bounded :
  (∀ a b : Z, 0 ≤ a → a ≤ b →
     ∃ ra rb, calculate_level a = Some ra ∧ calculate_level b = Some rb
              ∧ li_level ra ≤ li_level rb)
  ∧ (∀ xp : Z, ∃ r, calculate_level xp = Some r ∧ 0 ≤ xp_to_next_level r)
  ∧ (∀ (xp : Z) (top : Level),
       last LEVELS = Some top → xp_required top ≤ xp →
       ∃ r, calculate_level xp = Some r ∧ xp_progress_percent r = 100%Q).
Proof.
  split; [|split].
  - intros a b _ Hab.
    destruct (calculate_level_total a) as [ra Ha].
    destruct (calculate_level_total b) as [rb Hb].
    exists ra, rb. eauto using calculate_level_mono.
  - intros xp. destruct (calculate_level_total xp) as [r Hr].
    exists r. eauto using xp_to_next_level_nonneg.
  - intros xp top [= <-] Hxp. cbn in Hxp.
    destruct (calculate_level_total xp) as [r Hr].
    exists r. split; [done|]. by eapply progress_at_max_level.
Qed.

Lemma calculate_level_monotone_bounded_witness :
  ∃ ra rb, calculate_level 599 = Some ra ∧ calculate_level 7500 = Some rb
           ∧ li_level ra ≤ li_level rb.
Proof. apply (proj1 calculate_level_monotone_bounded 599 7500); lia. Defined.

(** C4. The base rewards of the table, and for a reset the streak bonus
    of 25 XP per streak day capped at 250 plus the speed bonus: 50 when
    at most 5 minutes have passed since the check, 25 when more than 5
    and at most 30, nothing later or when the delay is unknown.  In
    particular a reset within 5 minutes earns 50 more than the same
    reset without a recorded delay. *)
Theorem calculate_xp_for_action_rewards
    (streak_days : Z) (minutes_since_check : option Z) :
  calculate_xp_for_action "sorted" streak_days minutes_since_check = 50
  ∧ calculate_xp_for_action "streak_day" streak_days minutes_since_check = 25
  ∧ calculate_xp_for_action "first_check" streak_days minutes_since_check = 100
  ∧ calculate_xp_for_action "perfect_day" streak_days minutes_since_check = 200
  ∧ calculate_xp_for_action "reset" 0 None = 50
  ∧ (0 ≤ streak_days →
     calculate_xp_for_action "reset" streak_days None
     = 50 + Z.min (25 * streak_days) 250)
  ∧ (∀ m : Z, 0 ≤ streak_days → m ≤ 5 →
     calculate_xp_for_action "reset" streak_days (Some m)
     = 50 + Z.min (25 * streak_days) 250 + 50)
  ∧ (∀ m : Z, 0 ≤ streak_days → 5 < m → m ≤ 30 →
     calculate_xp_for_action "reset" streak_days (Some m)
     = 50 + Z.min (25 * streak_days) 250 + 25)
  ∧ (∀ m : Z, 0 ≤ streak_days → 30 < m →
     calculate_xp_for_action "reset" streak_days (Some m)
     = 50 + Z.min (25 * streak_days) 250)
  ∧ (∀ m : Z, m ≤ 5 →
     calculate_xp_for_action "reset" streak_days (Some m)
     = calculate_xp_for_action "reset" streak_days None + 50).
Proof.
  repeat split; try (destruct minutes_since_check; reflexivity).
  all: intros; unfold calculate_xp_for_action;
    change (XP_REWARDS !!! "streak_day") with 25;
    change (default 0 (XP_REWARDS !! "reset")) with 50;
    change (bool_decide ("reset" = "reset")) with true; cbn [andb];
    split_thresholds.
Qed.

Lemma calculate_xp_for_action_rewards_witness :
  calculate_xp_for_action "reset" 12 (Some 3) = 50 + Z.min (25 * 12) 250 + 50.
Proof.
  apply (proj1 (proj2 (proj2 (proj2 (proj2 (proj2 (proj2
           (calculate_xp_for_action_rewards 12 None))))))) 3); lia.
Defined.

(** What the table holds besides: a quick reset is worth 75, an action
    the table does not list is worth nothing, and a negative streak
    earns no bonus. *)
Lemma calculate_xp_for_action_other (streak_days : Z) (m : option Z) :
  calculate_xp_for_action "quick_reset" streak_days m = 75
  ∧ calculate_xp_for_action "dance" streak_days m = 0
  ∧ (streak_days ≤ 0 → calculate_xp_for_action "reset" streak_days None = 50).
Proof.
  repeat split; try (destruct m; reflexivity).
  intros. unfold calculate_xp_for_action.
  change (bool_decide ("reset" = "reset")) with true; cbn [andb].
  split_thresholds. reflexivity.
Qed.

Lemma py_index_in_range {A} (l : list A) (i : Z) :
  0 ≤ i < Z.of_nat (length l) →
  ∃ x, py_index l i = Some x ∧ l !! Z.to_nat i = Some x.
Proof.
  intros Hi. unfold py_index.
  destruct (Z.leb_spec 0 i); [|lia].
  destruct (lookup_lt_is_Some_2 l (Z.to_nat i)) as [x Hx]; [lia|].
  exists x. by rewrite Hx.
Qed.

(** C5. For every explicit date, [get_daily_challenge] returns the
    entry of [DAILY_CHALLENGES] at index [(year*365 + day_of_year) mod N],
    [N] being the length of the list; the index is always in range, and
    the result does not depend on the clock, so two calls with the same
    date return the same challenge. *)
Theorem get_daily_challenge_rotation (d now : datetime) :
  (∃ c, get_daily_challenge (Some d) now = Some c
        ∧ DAILY_CHALLENGES
            !! Z.to_nat ((year d * 365 + tm_yday d)
                         mod Z.of_nat (length DAILY_CHALLENGES)) = Some c)
  ∧ (∀ now' : datetime,
       get_daily_challenge (Some d) now' = get_daily_challenge (Some d) now).
Proof.
  split; [|done].
  unfold get_daily_challenge. cbn [default].
  apply py_index_in_range. apply Z.mod_pos_bound. cbn. lia.
Qed.

(** The year multiplier only shifts the rotation by the year itself,
    since 365 leaves remainder 1 modulo 7. *)
Lemma daily_challenge_index_shift (d : datetime) :
  (year d * 365 + tm_yday d) mod Z.of_nat (length DAILY_CHALLENGES)
  = (year d + tm_yday d) mod 7.
Proof.
  cbn [length DAILY_CHALLENGES]. change (Z.of_nat 7) with 7.
  replace (year d * 365 + tm_yday d)
    with (year d + tm_yday d + (year d * 52) * 7) by lia.
  apply Z.mod_add. lia.
Qed.

Example get_daily_challenge_2024_03_01 :
  ch_id <$> get_daily_challenge (Some (date 2024 3 1)) (date 1999 1 1)
  = Some "streak_saver".
Proof. reflexivity. Qed.

(** C10. Whatever the context, [check_achievement_unlock] answers false
    for an id that is not a key of [ACHIEVEMENTS], and false for
    ["perfectionist"], whose condition is ["perfect_day"]: no context
    unlocks it, nor any achievement with that condition. *)
Theorem check_achievement_unlock_never (ctx : Context) :
  (∀ achievement_id : string,
     ACHIEVEMENTS !! achievement_id = None →
     check_achievement_unlock achievement_id ctx = false)
  ∧ condition <$> ACHIEVEMENTS !! "perfectionist" = Some "perfect_day"
  ∧ check_achievement_unlock "perfectionist" ctx = false
  ∧ (∀ (achievement_id : string) (a : Achievement),
       ACHIEVEMENTS !! achievement_id = Some a →
       condition a = "perfect_day" →
       check_achievement_unlock achievement_id ctx = false).
Proof.
  split; [|split; [|split]].
  - intros achievement_id Hnone. unfold check_achievement_unlock.
    by rewrite Hnone.
  - reflexivity.
  - reflexivity.
  - intros achievement_id a Ha Hc. unfold check_achievement_unlock.
    rewrite Ha, Hc. reflexivity.
Qed.

Lemma check_achievement_unlock_never_witness :
  check_achievement_unlock "pacifist" (mk_context 40 200 None (Some 1) 12 5 9)
  = false.
Proof.
  apply (proj1 (check_achievement_unlock_never
                  (mk_context 40 200 None (Some 1) 12 5 9)) "pacifist").
  reflexivity.
Defined.

(** Every other achievement of the catalogue can be unlocked. *)
Lemma other_achievements_unlockable :
  ∀ achievement_id : string,
    achievement_id ∈ (map_to_list ACHIEVEMENTS).*1 →
    achievement_id ≠ "perfectionist" →
    ∃ ctx, check_achievement_unlock achievement_id ctx = true.
Proof.
  intros achievement_id Hin Hne.
  vm_compute in Hin.
  repeat (apply elem_of_cons in Hin as [-> | Hin];
    [ try done;
      first
        [ by exists (mk_context 30 100 (Some (at_hour 2024 1 1 23))
                       (Some 5) 10 3 5)
        | by exists (mk_context 30 100 (Some (at_hour 2024 1 1 6))
                       (Some 5) 10 3 5) ] |]).
  by apply elem_of_nil in Hin.
Qed.

End GamificationProofs.

(** ** collections.Counter *)

Module PyCounterProofs.
Import PyCounter Memory.
Local Open Scope nat_scope.

Section Facts.
Context {K : Type} `{EqDecision K}.
Implicit Types (k x : K) (l ks : list K) (c : list (K * nat)).

(** *** Occurrences and order of first appearance *)

Lemma occurrences_snoc k l x :
  occurrences k (l ++ [x])
  = occurrences k l + (if decide (x = k) then 1 else 0).
Proof.
  unfold occurrences. rewrite filter_app, length_app. f_equal.
  rewrite filter_cons, filter_nil. by case_decide.
Qed.

Lemma occurrences_cons k l x :
  occurrences k (x :: l)
  = (if decide (x = k) then 1 else 0) + occurrences k l.
Proof. unfold occurrences. rewrite filter_cons. by case_decide. Qed.

Lemma occurrences_app k l1 l2 :
  occurrences k (l1 ++ l2) = occurrences k l1 + occurrences k l2.
Proof. unfold occurrences. by rewrite filter_app, length_app. Qed.

Lemma occurrences_pos k l : 0 < occurrences k l ↔ k ∈ l.
Proof.
  induction l as [|x l IH]; [cbn; rewrite elem_of_nil; lia|].
  rewrite occurrences_cons, elem_of_cons.
  case_decide; subst; [intuition lia|].
  rewrite <- IH. intuition (try lia; congruence).
Qed.

Lemma occurrences_zero k l : occurrences k l = 0 ↔ k ∉ l.
Proof. rewrite <- occurrences_pos. lia. Qed.

Lemma elem_of_first_seen k l : k ∈ first_seen l ↔ k ∈ l.
Proof.
  induction l as [|x l IH]; [done|]. cbn [first_seen].
  rewrite !elem_of_cons, list_elem_of_filter, IH.
  destruct (decide (k = x)); intuition.
Qed.

Lemma NoDup_first_seen l : NoDup (first_seen l).
Proof.
  induction l as [|x l IH]; [constructor|]. cbn [first_seen].
  apply NoDup_cons. split; [|by apply NoDup_filter].
  rewrite list_elem_of_filter. intuition.
Qed.

Lemma first_seen_snoc l x :
  first_seen (l ++ [x])
  = if decide (x ∈ l) then first_seen l else first_seen l ++ [x].
Proof.
  induction l as [|y l IH]; [done|].
  cbn [app first_seen]. rewrite IH.
  destruct (decide (x ∈ l)) as [Hin|Hnin].
  - rewrite decide_True by (by right). done.
  - rewrite filter_app, filter_cons, filter_nil.
    destruct (decide (x = y)) as [->|Hne].
    + rewrite (decide_True (P := y ∈ y :: l)) by left.
      rewrite (decide_False (P := y ≠ y)) by auto.
      by rewrite app_nil_r.
    + rewrite (decide_False (P := x ∈ y :: l))
        by (rewrite elem_of_cons; intuition).
      by rewrite (decide_True (P := x ≠ y)).
Qed.

(** A duplicate-free list splits around an element in one way only. *)
Lemma NoDup_split_unique l1 l2 l1' l2' x :
  NoDup (l1 ++ x :: l2) → l1 ++ x :: l2 = l1' ++ x :: l2' →
  l1 = l1' ∧ l2 = l2'.
Proof.
  revert l1'. induction l1 as [|a l1 IH]; intros l1' Hnd Heq.
  - destruct l1' as [|b l1']; [by simplify_eq/=|].
    simplify_eq/=. apply NoDup_cons in Hnd as [Hnin _].
    exfalso. apply Hnin. rewrite elem_of_app, elem_of_cons. auto.
  - destruct l1' as [|b l1']; simplify_eq/=.
    + apply NoDup_cons in Hnd as [Hnin _].
      exfalso. apply Hnin. rewrite elem_of_app, elem_of_cons. auto.
    + apply NoDup_cons in Hnd as [_ Hnd].
      destruct (IH l1' Hnd) as [-> ->]; done.
Qed.

(** In a duplicate-free list, what comes before [x] comes after
    nothing that [x] comes before. *)
Lemma NoDup_split_order l1 l2 l1' l2' x y :
  NoDup (l1 ++ x :: l2) → l1 ++ x :: l2 = l1' ++ y :: l2' →
  y ∈ l1 → x ∈ l2'.
Proof.
  intros Hnd Heq Hy.
  apply list_elem_of_split in Hy as (a & b & ->).
  rewrite <- app_assoc in Heq, Hnd. cbn in Heq, Hnd.
  rewrite Heq in Hnd. symmetry in Heq.
  destruct (NoDup_split_unique _ _ _ _ _ Hnd Heq) as [_ ->].
  rewrite elem_of_app, elem_of_cons. auto.
Qed.

Lemma NoDup_split_order_r l1 l2 l1' l2' x y :
  NoDup (l1 ++ x :: l2) → l1 ++ x :: l2 = l1' ++ y :: l2' →
  y ∈ l2 → x ∈ l1'.
Proof.
  intros Hnd Heq Hy.
  apply list_elem_of_split in Hy as (a & b & ->).
  change (l1 ++ x :: a ++ y :: b) with (l1 ++ (x :: a) ++ y :: b) in *.
  rewrite app_assoc in Heq, Hnd.
  rewrite Heq in Hnd. symmetry in Heq.
  destruct (NoDup_split_unique _ _ _ _ _ Hnd Heq) as [-> _].
  rewrite elem_of_app, elem_of_cons. auto.
Qed.

(** *** The counter after a run of increments *)

Lemma incr_tally (g : K → nat) l x :
  NoDup l →
  incr x ((λ k, (k, g k)) <$> l)
  = if decide (x ∈ l)
    then (λ k, (k, if decide (k = x) then S (g k) else g k)) <$> l
    else ((λ k, (k, g k)) <$> l) ++ [(x, 1)].
Proof.
  induction l as [|y l IH]; intros Hnd; [done|].
  apply NoDup_cons in Hnd as [Hy Hnd]. cbn [fmap list_fmap incr].
  destruct (decide (x = y)) as [->|Hne].
  - rewrite decide_True by left. rewrite decide_True by done.
    f_equal. apply Forall_fmap_ext_1, Forall_forall. intros z Hz.
    rewrite decide_False; [done|]. intros ->. done.
  - rewrite (IH Hnd). destruct (decide (x ∈ l)) as [Hin|Hnin].
    + rewrite decide_True by (by right).
      rewrite (decide_False (P := y = x)) by done. done.
    + rewrite decide_False by (rewrite elem_of_cons; intuition). done.
Qed.

(** The counter lists the keys in order of first appearance, each
    with its number of occurrences. *)
Lemma count_all_spec ks :
  count_all ks = (λ k, (k, occurrences k ks)) <$> first_seen ks.
Proof.
  induction ks as [|x ks IH] using rev_ind; [done|].
  unfold count_all in *. rewrite foldl_snoc, IH.
  rewrite incr_tally by apply NoDup_first_seen.
  rewrite first_seen_snoc.
  destruct (decide (x ∈ first_seen ks)) as [Hin|Hnin].
  - rewrite decide_True by (by apply elem_of_first_seen).
    apply Forall_fmap_ext_1, Forall_forall. intros z _.
    rewrite occurrences_snoc. f_equal.
    destruct (decide (z = x)) as [->|?].
    + rewrite decide_True by done. lia.
    + rewrite decide_False by done. lia.
  - rewrite elem_of_first_seen in Hnin.
    rewrite decide_False by done. rewrite fmap_app. f_equal.
    + apply Forall_fmap_ext_1, Forall_forall. intros z Hz.
      rewrite occurrences_snoc, decide_False; [f_equal; lia|].
      intros ->. by rewrite elem_of_first_seen in Hz.
    + cbn. rewrite occurrences_snoc, decide_True by done.
      apply occurrences_zero in Hnin. by rewrite Hnin.
Qed.

Lemma count_all_keys ks : (count_all ks).*1 = first_seen ks.
Proof.
  rewrite count_all_spec, <- list_fmap_compose.
  apply list_fmap_id.
Qed.

Lemma get_count_all k ks : get k (count_all ks) = occurrences k ks.
Proof.
  rewrite count_all_spec.
  assert (Hfs : k ∈ first_seen ks ↔ k ∈ ks) by apply elem_of_first_seen.
  induction (first_seen ks) as [|y l IH] in Hfs |- *.
  - cbn. symmetry. apply occurrences_zero. rewrite <- Hfs. apply not_elem_of_nil.
  - cbn. destruct (decide (k = y)) as [->|Hne]; [done|].
    destruct (decide (k ∈ ks)) as [Hin|Hnin].
    + apply IH. rewrite elem_of_cons in Hfs. intuition.
    + clear IH. induction l as [|z l IHl]; cbn.
      * symmetry. by apply occurrences_zero.
      * destruct (decide (k = z)) as [->|?]; [|apply IHl].
        -- exfalso. apply Hnin, Hfs. right. left.
        -- rewrite !elem_of_cons in *. intuition.
Qed.

(** *** most_common(1) *)

Lemma max_by_count_spec (best : K * nat) (rest : list (K * nat)) :
  (max_by_count best rest = best ∧ Forall (λ p, p.2 ≤ best.2) rest)
  ∨ (∃ c1 c2, rest = c1 ++ max_by_count best rest :: c2
              ∧ best.2 < (max_by_count best rest).2
              ∧ Forall (λ p, p.2 < (max_by_count best rest).2) c1
              ∧ Forall (λ p, p.2 ≤ (max_by_count best rest).2) c2).
Proof.
  revert best. induction rest as [|x rest IH]; intros best.
  - left. by split.
  - cbn [max_by_count]. destruct (Nat.ltb_spec best.2 x.2) as [Hlt|Hge].
    + right.
      destruct (IH x) as [[Heq Hall]|(c1 & c2 & Hr & Hx & H1 & H2)].
      * exists [], rest. rewrite Heq. by repeat split.
      * exists (x :: c1), c2. repeat split; [by rewrite Hr at 1|lia| |done].
        constructor; [lia|done].
    + destruct (IH best) as [[Heq Hall]|(c1 & c2 & Hr & Hx & H1 & H2)].
      * left. split; [done|]. by constructor.
      * right. exists (x :: c1), c2.
        repeat split; [by rewrite Hr at 1|done| |done].
        constructor; [lia|done].
Qed.

(** [most_common(1)] of a non-empty counter is its first entry of
    maximal count. *)
Lemma most_common_1_spec c :
  c ≠ [] →
  ∃ r c1 c2, most_common_1 c = [r] ∧ c = c1 ++ r :: c2
             ∧ Forall (λ p, p.2 < r.2) c1 ∧ Forall (λ p, p.2 ≤ r.2) c2.
Proof.
  destruct c as [|x rest]; [done|]. intros _. cbn [most_common_1].
  exists (max_by_count x rest).
  destruct (max_by_count_spec x rest)
    as [[Heq Hall]|(c1 & c2 & Hr & Hx & H1 & H2)].
  - exists [], rest. rewrite Heq. by repeat split.
  - exists (x :: c1), c2. repeat split; [by rewrite Hr at 1| |done].
    constructor; [lia|done].
Qed.

Lemma first_most_frequent_unique k k' ks :
  first_most_frequent k ks → first_most_frequent k' ks → k = k'.
Proof.
  intros (l1 & l2 & Hs & Hb & Ha) (l1' & l2' & Hs' & Hb' & Ha').
  destruct (decide (k = k')) as [|Hne]; [done|exfalso].
  assert (Hnd : NoDup (l1 ++ k :: l2))
    by (rewrite <- Hs; apply NoDup_first_seen).
  assert (Heq : l1 ++ k :: l2 = l1' ++ k' :: l2') by congruence.
  assert (Hk' : k' ∈ l1 ++ k :: l2).
  { rewrite Heq, elem_of_app, elem_of_cons. auto. }
  rewrite elem_of_app, elem_of_cons in Hk'.
  destruct Hk' as [Hin|[->|Hin]]; [|done|].
  - pose proof (NoDup_split_order _ _ _ _ _ _ Hnd Heq Hin) as Hk.
    specialize (Hb _ Hin). specialize (Ha' _ Hk). lia.
  - pose proof (NoDup_split_order_r _ _ _ _ _ _ Hnd Heq Hin) as Hk.
    specialize (Ha _ Hin). specialize (Hb' _ Hk). lia.
Qed.

(** [most_common(1)] of the counter built from [ks]. *)
Lemma most_common_1_count_all ks k n :
  most_common_1 (count_all ks) = [(k, n)]
  ↔ first_most_frequent k ks ∧ n = occurrences k ks.
Proof.
  assert (Hfwd : ∀ k n, most_common_1 (count_all ks) = [(k, n)] →
                        first_most_frequent k ks ∧ n = occurrences k ks).
  { clear k n. intros k n Hmc.
    destruct (decide (count_all ks = [])) as [Hnil|Hnn];
      [by rewrite Hnil in Hmc|].
    destruct (most_common_1_spec _ Hnn) as (r & c1 & c2 & Hr & Hc & H1 & H2).
    rewrite Hr in Hmc. injection Hmc as ->.
    rewrite count_all_spec in Hc.
    apply fmap_app_inv in Hc as (l1 & l2' & -> & Hc2 & Hfs).
    symmetry in Hc2.
    apply fmap_cons_inv in Hc2 as (k0 & l2 & [= -> ->] & -> & ->).
    split; [|done]. exists l1, l2. split; [done|].
    rewrite Forall_fmap, Forall_forall in H1, H2. cbn in H1, H2.
    split; intros k' Hk'; auto. }
  split; [apply Hfwd|]. intros [Hk ->].
  destruct (decide (count_all ks = [])) as [Hnil|Hnn].
  { destruct Hk as (l1 & l2 & Hs & _).
    rewrite <- count_all_keys, Hnil in Hs. by destruct l1. }
  destruct (most_common_1_spec _ Hnn) as ([k0 n0] & _ & _ & Hr & _).
  destruct (Hfwd _ _ Hr) as [Hk0 ->].
  by rewrite Hr, (first_most_frequent_unique _ _ _ Hk Hk0).
Qed.

End Facts.
End PyCounterProofs.

(** ** Memory engine *)

Module MemoryProofs.
Import Datetime PyCounter Memory PyCounterProofs.
Local Open Scope nat_scope.

(** *** The loops as runs of counter increments *)

Lemma filter_bind {A B} (P : B → Prop) `{∀ x, Decision (P x)}
    (f : A → list B) (l : list A) :
  filter P (l ≫= f) = l ≫= (λ x, filter P (f x)).
Proof.
  induction l as [|x l IH]; [done|].
  by rewrite !bind_cons, filter_app, IH.
Qed.

(** The names read off a to-sort list, or [None] when one of them
    raises. *)
Lemma mapM_item_name_omap (items : list to_sort_entry) (names : list string) :
  mapM item_name items = Some names → omap item_name items = names.
Proof.
  revert names. induction items as [|item items IH]; intros names.
  - by intros [= <-].
  - cbn. destruct (item_name item) as [n|]; [|done]. cbn.
    destruct (mapM item_name items) as [ns|]; [|done]. cbn.
    intros [= <-]. f_equal. by apply IH.
Qed.

Lemma count_items_inner_None (items : list to_sort_entry) :
  foldl (λ counter item,
           counter ← counter;
           name ← item_name item;
           Some (if bool_decide (name ≠ "") then incr name counter
                 else counter))
        None items
  = None.
Proof. by induction items. Qed.

Lemma count_items_inner (counter : list (string * nat))
    (items : list to_sort_entry) :
  foldl (λ counter item,
           counter ← counter;
           name ← item_name item;
           Some (if bool_decide (name ≠ "") then incr name counter
                 else counter))
        (Some counter) items
  = names ← mapM item_name items;
    Some (foldl (λ c k, incr k c) counter (filter (λ n, n ≠ "") names)).
Proof.
  revert counter. induction items as [|item items IH]; intros counter; [done|].
  cbn [foldl mapM mbind option_bind].
  destruct (item_name item) as [n|]; cbn [mbind option_bind];
    [|apply count_items_inner_None].
  rewrite IH. destruct (mapM item_name items) as [ns|]; [|done].
  cbn [mbind option_bind mret option_ret]. rewrite filter_cons.
  destruct (decide (n ≠ "")) as [Hne|He].
  - by rewrite bool_decide_true.
  - by rewrite bool_decide_false.
Qed.

Lemma count_items_outer_None (checks : list check) :
  foldl (λ counter check,
           foldl (λ counter item,
                    counter ← counter;
                    name ← item_name item;
                    Some (if bool_decide (name ≠ "") then incr name counter
                          else counter))
                 counter (default [] (to_sort check)))
        None checks
  = None.
Proof.
  induction checks as [|c checks IH]; [done|].
  cbn [foldl]. by rewrite count_items_inner_None.
Qed.

Lemma count_items_from (counter : list (string * nat)) (checks : list check) :
  foldl (λ counter check,
           foldl (λ counter item,
                    counter ← counter;
                    name ← item_name item;
                    Some (if bool_decide (name ≠ "") then incr name counter
                          else counter))
                 counter (default [] (to_sort check)))
        (Some counter) checks
  = names ← mapM (λ c, mapM item_name (default [] (to_sort c))) checks;
    Some (foldl (λ c k, incr k c) counter
            (filter (λ n, n ≠ "") (concat names))).
Proof.
  revert counter. induction checks as [|c checks IH]; intros counter; [done|].
  cbn [foldl mapM mbind option_bind]. rewrite count_items_inner.
  destruct (mapM item_name (default [] (to_sort c))) as [ns|];
    cbn [mbind option_bind]; [|apply count_items_outer_None].
  rewrite IH.
  destruct (mapM _ checks) as [nss|]; [|done].
  cbn [mbind option_bind mret option_ret concat].
  by rewrite filter_app, foldl_app.
Qed.

Lemma readable_entry_names (checks : list check) (names : list (list string)) :
  mapM (λ c, mapM item_name (default [] (to_sort c))) checks = Some names →
  entry_names checks = concat names.
Proof.
  unfold entry_names, names_of.
  revert names. induction checks as [|c checks IH]; intros names.
  - by intros [= <-].
  - cbn [mapM mbind option_bind].
    destruct (mapM item_name (default [] (to_sort c))) as [ns|] eqn:Hc;
      [|done].
    cbn [mbind option_bind].
    destruct (mapM _ checks) as [nss|]; [|done].
    cbn [mbind option_bind mret option_ret]. intros [= <-].
    rewrite bind_cons. cbn [concat].
    by rewrite (mapM_item_name_omap _ _ Hc), (IH nss eq_refl).
Qed.

Lemma unreadable_iff (checks : list check) :
  unreadable checks
  ↔ mapM (λ c, mapM item_name (default [] (to_sort c))) checks = None.
Proof.
  unfold unreadable. rewrite mapM_None, Exists_exists.
  split.
  - intros (c & e & Hc & He & Hn). exists c. split; [done|].
    apply mapM_None, Exists_exists. by exists e.
  - intros (c & Hc & Hn). apply mapM_None, Exists_exists in Hn.
    destruct Hn as (e & He & Hn). by exists c, e.
Qed.

(** The loops raise exactly on an unreadable history, and count the
    non-empty names otherwise. *)
Lemma count_items_eq (checks : list check) :
  (count_items checks = None ↔ unreadable checks)
  ∧ (∀ counter, count_items checks = Some counter →
       counter = count_all (filter (λ n, n ≠ "") (entry_names checks))).
Proof.
  unfold count_items. rewrite count_items_from, unreadable_iff.
  destruct (mapM _ checks) as [names|] eqn:Hm; cbn [mbind option_bind].
  - split; [done|]. intros counter [= <-].
    by rewrite (readable_entry_names _ _ Hm).
  - done.
Qed.

Lemma day_counts_eq (wanted : string) (checks : list check) :
  day_counts wanted checks = count_all (days_with wanted checks).
Proof.
  unfold day_counts, count_all, days_with.
  generalize (@nil (string * nat)) as counter.
  induction checks as [|c checks IH]; intros counter; [done|].
  cbn [foldl omap list_omap]. rewrite IH.
  destruct (bool_decide (status c = Some wanted)); [|done].
  by destruct (timestamp c).
Qed.

Lemma occurrences_nonempty (s : string) (l : list string) :
  s ≠ "" → occurrences s (filter (λ n, n ≠ "") l) = occurrences s l.
Proof.
  intros Hs. unfold occurrences. rewrite list_filter_filter.
  f_equal. apply list_filter_iff. intros x. split; [tauto|].
  intros ->. done.
Qed.

(** *** Recurring items *)

Lemma elem_of_count_recurring_items (checks : list check)
    (m : list (string * nat)) (s : string) (n : nat) :
  _count_recurring_items checks = Some m →
  (s, n) ∈ m
  ↔ s ≠ "" ∧ n = occurrences s (entry_names checks) ∧ 3 ≤ n.
Proof.
  unfold _count_recurring_items, RECURRING_THRESHOLD.
  destruct (count_items checks) as [counter|] eqn:Hc; [|done].
  intros [= <-].
  rewrite (proj2 (count_items_eq checks) counter Hc).
  rewrite list_elem_of_filter, count_all_spec, list_elem_of_fmap. cbn [snd].
  split.
  - intros (Hn & k & [= -> ->] & Hk).
    rewrite elem_of_first_seen, list_elem_of_filter in Hk.
    destruct Hk as [Hne _].
    rewrite occurrences_nonempty in * by done. done.
  - intros (Hne & -> & Hn). split; [done|].
    exists s. rewrite occurrences_nonempty by done. split; [done|].
    rewrite elem_of_first_seen, list_elem_of_filter. split; [done|].
    apply occurrences_pos. lia.
Qed.

Lemma count_recurring_items_None (checks : list check) :
  _count_recurring_items checks = None ↔ unreadable checks.
Proof.
  unfold _count_recurring_items.
  rewrite <- (proj1 (count_items_eq checks)).
  by destruct (count_items checks).
Qed.

Lemma NoDup_filter_tally {K} (P : K * nat → Prop) `{∀ x, Decision (P x)}
    (g : K → nat) (l : list K) :
  NoDup l → NoDup (filter P ((λ k, (k, g k)) <$> l)).*1.
Proof.
  induction l as [|k l IH]; intros Hnd; [constructor|].
  apply NoDup_cons in Hnd as [Hk Hnd].
  cbn [fmap list_fmap]. rewrite filter_cons.
  case_decide; [|by apply IH]. cbn. apply NoDup_cons. split; [|by apply IH].
  intros Hin. apply Hk.
  apply list_elem_of_fmap in Hin as ([k' n'] & -> & Hin).
  apply list_elem_of_filter in Hin as [_ Hin].
  apply list_elem_of_fmap in Hin as (k'' & [= -> ->] & Hin). done.
Qed.

Lemma NoDup_count_recurring_items (checks : list check)
    (m : list (string * nat)) :
  _count_recurring_items checks = Some m → NoDup m.*1.
Proof.
  unfold _count_recurring_items.
  destruct (count_items checks) as [counter|] eqn:Hc; [|done].
  intros [= <-].
  rewrite (proj2 (count_items_eq checks) counter Hc), count_all_spec.
  apply NoDup_filter_tally, NoDup_first_seen.
Qed.

(** C1, as the code has it.  The engine raises exactly when some dict
    entry holds a value under "item" that is not a string.  Otherwise an
    item name, lower-cased and trimmed as [str.lower] and [str.strip]
    do, is a key of the recurring-items mapping exactly when it is
    non-empty and the to-sort lists of the checks handed to the engine
    name it at least 3 times in total, each occurrence counting, also
    several within one check; its value is that number.  The mapping
    has no duplicate key; a name with exactly 2 occurrences is never in
    it and a non-empty name with exactly 3 is. *)
Theorem count_recurring_items_threshold (checks : list check) :
  (_count_recurring_items checks = None
   ↔ ∃ c e, c ∈ checks ∧ e ∈ default [] (to_sort c) ∧ item_name e = None)
  ∧ ∀ m : list (string * nat),
      _count_recurring_items checks = Some m →
      (∀ (s : string) (n : nat),
         (s, n) ∈ m
         ↔ s ≠ "" ∧ n = occurrences s (entry_names checks) ∧ 3 ≤ n)
      ∧ NoDup m.*1
      ∧ (∀ s : string, occurrences s (entry_names checks) = 2 → s ∉ m.*1)
      ∧ (∀ s : string,
           s ≠ "" → occurrences s (entry_names checks) = 3 → (s, 3) ∈ m).
Proof.
  split; [apply count_recurring_items_None|].
  intros m Hm. split; [|split; [|split]].
  - intros s n. by apply elem_of_count_recurring_items.
  - by eapply NoDup_count_recurring_items.
  - intros s Hs Hin.
    apply list_elem_of_fmap in Hin as ([s' n] & Heq & Hin).
    cbn in Heq. subst s'.
    apply (elem_of_count_recurring_items checks m) in Hin as (_ & -> & Hn);
      [lia|done].
  - intros s Hne Hs. apply (elem_of_count_recurring_items checks m); [done|].
    auto with lia.
Qed.

Lemma count_recurring_items_threshold_witness :
  ∃ m, _count_recurring_items mug_thrice = Some m ∧ ("mug", 3) ∈ m.
Proof.
  exists [("mug", 3)]. split; [reflexivity|].
  apply (proj2 (proj2 (proj2 (proj2 (count_recurring_items_threshold
           mug_thrice) [("mug", 3)] eq_refl))) "mug"); [done|reflexivity].
Defined.

(** C1, as the specification words it, fails: the one check of [mug_thrice]
    makes the mug recurring with count 3, yet a single check lists it. *)
Lemma recurring_without_three_checks :
  _count_recurring_items mug_thrice = Some [("mug", 3)]
  ∧ checks_listing "mug" mug_thrice = 1
  ∧ length mug_thrice = 1.
Proof. repeat split; vm_compute; reflexivity. Qed.

(** The names are compared as [str.lower] and [str.strip] leave them:
    three spellings of one word, one of them followed by a no-break
    space, count as the same name; and an entry whose item is not a
    string makes the engine raise. *)
Example count_recurring_items_unicode :
  _count_recurring_items cafe_thrice = Some [("café", 3)]
  ∧ _count_recurring_items null_item = None.
Proof. split; vm_compute; reflexivity. Qed.

(** *** Best and worst day *)

Lemma most_common_day_spec (ks : list string) :
  (∀ d, most_common_day (count_all ks) = Some d ↔ first_most_frequent d ks)
  ∧ (most_common_day (count_all ks) = None ↔ ks = []).
Proof.
  assert (Hnil : count_all ks = [] ↔ ks = []).
  { rewrite count_all_spec. split.
    - intros Hm. apply fmap_nil_inv in Hm.
      destruct ks as [|k ks]; [done|discriminate].
    - by intros ->. }
  destruct (decide (ks = [])) as [->|Hne].
  { split; [|done]. intros d. split; [done|].
    intros (l1 & l2 & Hs & _). by destruct l1. }
  assert (Hc : count_all ks ≠ []) by (by rewrite Hnil).
  destruct (most_common_1_spec _ Hc) as ([k n] & _ & _ & Hr & _).
  pose proof (proj1 (most_common_1_count_all ks k n) Hr) as [Hk _].
  assert (Hmc : most_common_day (count_all ks) = Some k).
  { unfold most_common_day. rewrite Hr. by destruct (count_all ks). }
  rewrite Hmc. split; [|by split].
  intros d. split.
  - by intros [= <-].
  - intros Hd. f_equal. by eapply first_most_frequent_unique.
Qed.



(** The tie rule at work: Tuesday and Monday both have two sorted
    checks, and Tuesday, seen first, is the best day. *)
Example find_best_day_tie :
  _find_best_day
    [ check_on (at_hour 2024 1 2 9) "sorted";
      check_on (at_hour 2024 1 1 9) "sorted";
      check_on (at_hour 2024 1 8 9) "sorted";
      check_on (at_hour 2024 1 9 9) "sorted" ]
  = Some "Tuesday".
Proof. reflexivity. Qed.

End MemoryProofs.

(** ** Camera manager and Home Assistant adapter *)

Module CameraProofs.
Import Camera.

(** *** Adapter dispatch *)

Lemma startswith_cons (s : string) (c : ascii) (p : string) :
  startswith s (String c p) = true → ∃ s', s = String c s'.
Proof.
  unfold startswith. destruct s as [|c' s']; cbn; [done|].
  destruct (ascii_dec c c') as [->|]; [eauto|done].
Qed.

(** Two prefixes that start with different characters exclude each
    other. *)
Lemma startswith_exclusive (s : string) (c1 c2 : ascii) (p1 p2 : string) :
  c1 ≠ c2 → startswith s (String c1 p1) = true →
  startswith s (String c2 p2) = false.
Proof.
  intros Hne H1. apply startswith_cons in H1 as [s' ->].
  unfold startswith. cbn. destruct (ascii_dec c2 c1); congruence.
Qed.

(** C6. An identifier that starts with one of the registered prefixes
    is given that prefix's adapter, and an identifier that starts with
    none of them is given the Home Assistant adapter. *)
Theorem get_adapter_for_camera_by_prefix (camera_id : string) :
  (startswith camera_id "camera." = true →
   _get_adapter_for_camera camera_id = ha_camera)
  ∧ (startswith camera_id "rtsp_" = true →
     _get_adapter_for_camera camera_id = rtsp_camera)
  ∧ (startswith camera_id "mjpeg_" = true →
     _get_adapter_for_camera camera_id = mjpeg_camera)
  ∧ (startswith camera_id "onvif_" = true →
     _get_adapter_for_camera camera_id = onvif_camera)
  ∧ ((∀ prefix adapter, (prefix, adapter) ∈ _adapters →
                        startswith camera_id prefix = false) →
     _get_adapter_for_camera camera_id = ha_camera).
Proof.
  unfold _get_adapter_for_camera, _adapters. cbn [first_adapter].
  assert (Hex : ∀ c1 c2 p1 p2, c1 ≠ c2 →
            startswith camera_id (String c1 p1) = true →
            startswith camera_id (String c2 p2) = false)
    by (intros; by eapply startswith_exclusive).
  repeat split.
  - by intros ->.
  - intros Hp.
    rewrite (Hex "r"%char "c"%char "tsp_" "amera.") by done.
    by rewrite Hp.
  - intros Hp.
    rewrite (Hex "m"%char "c"%char "jpeg_" "amera.") by done.
    rewrite (Hex "m"%char "r"%char "jpeg_" "tsp_") by done.
    by rewrite Hp.
  - intros Hp.
    rewrite (Hex "o"%char "c"%char "nvif_" "amera.") by done.
    rewrite (Hex "o"%char "r"%char "nvif_" "tsp_") by done.
    rewrite (Hex "o"%char "m"%char "nvif_" "jpeg_") by done.
    by rewrite Hp.
  - intros Hnone.
    rewrite (Hnone "camera." ha_camera) by (rewrite !elem_of_cons; auto 10).
    rewrite (Hnone "rtsp_" rtsp_camera) by (rewrite !elem_of_cons; auto 10).
    rewrite (Hnone "mjpeg_" mjpeg_camera) by (rewrite !elem_of_cons; auto 10).
    rewrite (Hnone "onvif_" onvif_camera) by (rewrite !elem_of_cons; auto 10).
    done.
Qed.

Lemma get_adapter_for_camera_by_prefix_witness :
  _get_adapter_for_camera "onvif_garage" = onvif_camera
  ∧ _get_adapter_for_camera "front_door" = ha_camera.
Proof.
  split.
  - by apply (get_adapter_for_camera_by_prefix "onvif_garage").
  - apply (get_adapter_for_camera_by_prefix "front_door").
    intros prefix adapter Hin.
    repeat (apply elem_of_cons in Hin as [[= -> ->]|Hin]; [reflexivity|]).
    by apply elem_of_nil in Hin.
Defined.

(** The adapter is always the one of the first matching entry of
    [_adapters], whatever the table. *)
Lemma first_adapter_spec (camera_id : string) (items : list (string * adapter)) :
  match first_adapter camera_id items with
  | Some a =>
      ∃ l1 p l2, items = l1 ++ (p, a) :: l2 ∧ startswith camera_id p = true
                 ∧ Forall (λ pa, startswith camera_id pa.1 = false) l1
  | None => Forall (λ pa, startswith camera_id pa.1 = false) items
  end.
Proof.
  induction items as [|[p a] items IH]; cbn [first_adapter]; [constructor|].
  destruct (startswith camera_id p) eqn:Hp.
  - exists [], p, items. by repeat split.
  - destruct (first_adapter camera_id items) as [a'|].
    + destruct IH as (l1 & p' & l2 & -> & Hp' & Hall).
      exists ((p, a) :: l1), p', l2. repeat split; [done|].
      by constructor.
    + by constructor.
Qed.

(** *** Snapshot retries *)

Section Retry.
Variables (ha_token : option string) (entity_id : string)
          (world : nat → http_outcome).

Lemma get_snapshot_once_shape (o : http_outcome) :
  (∃ d, _get_snapshot_once ha_token entity_id o = (Some d, None))
  ∨ (∃ e, _get_snapshot_once ha_token entity_id o = (None, Some e)).
Proof.
  unfold _get_snapshot_once.
  destruct (truthy ha_token); cbn [negb]; [|eauto].
  destruct o as [status body| | |]; eauto.
  destruct (status =? 200); [|eauto].
  destruct (truthy (Some body)); eauto.
Qed.

Lemma no_retry_true_iff (error : option SnapshotError) :
  no_retry error = true
  ↔ ∃ e, error = Some e
         ∧ (error_type e = "auth" ∨ error_type e = "not_found").
Proof.
  destruct error as [e|]; cbn [no_retry].
  - rewrite orb_true_iff, !bool_decide_eq_true. split; [eauto|].
    by intros (e' & [= <-] & He).
  - split; [done|]. by intros (e & He & _).
Qed.

(** The errors that are not retried are exactly those of the HTTP
    statuses 401, 403 and 404 (a token being configured). *)
Lemma no_retry_iff (o : http_outcome) :
  truthy ha_token = true →
  no_retry (_get_snapshot_once ha_token entity_id o).2 = true
  ↔ ∃ body, o = Response 401 body ∨ o = Response 403 body
            ∨ o = Response 404 body.
Proof.
  intros Htok. rewrite no_retry_true_iff.
  unfold _get_snapshot_once. rewrite Htok. cbn [negb].
  destruct o as [status body| | |]; cbn [snd];
    try (split; [intros (err & [= <-] & [?|?]); done
                |intros (? & [?|[?|?]]); done]).
  unfold _parse_error_response.
  repeat match goal with
         | |- context [Z.eqb ?a ?b] =>
             destruct (Z.eqb_spec a b); [subst; cbn [orb snd]|]
         | |- context [Z.leb ?a ?b] => destruct (Z.leb a b)
         | |- context [truthy ?a] => destruct (truthy a)
         end;
    (split;
     [ intros (err & [= <-] & [?|?]); try done; eauto
     | intros (? & [?|[?|?]]); simplify_eq; eauto ]).
Qed.

Local Abbreviation run := (get_snapshot_with_error ha_token entity_id world).
Local Abbreviation outcome := (outcome ha_token entity_id world).
Local Abbreviation stops := (stops ha_token entity_id world).

(** C7. With a token configured, the snapshot operation makes at most
    3 attempts, sleeps 1 second before the second and 2 seconds
    before the third, and ends at the first attempt that stops the
    loop, without sleeping after it: an attempt stops the loop exactly
    when it succeeds or fails with an auth or not_found error.  What is
    returned is that attempt's bytes or error, or the third attempt's
    when none of the first two stopped the loop.  [get_snapshot] does
    the same and returns the bytes alone. *)
Theorem get_snapshot_retries :
  truthy ha_token = true →
  (∀ k, stops k = true
        ↔ is_Some (outcome k).1
          ∨ ∃ e, (outcome k).2 = Some e
                 ∧ (error_type e = "auth" ∨ error_type e = "not_found"))
  ∧ (stops 0 = true → run = (outcome 0, [Attempt 0]))
  ∧ (stops 0 = false → stops 1 = true →
     run = (outcome 1, [Attempt 0; Sleep 1; Attempt 1]))
  ∧ (stops 0 = false → stops 1 = false →
     run = (outcome 2,
            [Attempt 0; Sleep 1; Attempt 1; Sleep 2; Attempt 2]))
  ∧ (length (filter is_attempt run.2) ≤ MAX_RETRIES)%nat
  ∧ get_snapshot ha_token entity_id world = (run.1.1, run.2).
Proof.
  intros Htok. split.
  { intros k. unfold Camera.stops.
    by rewrite orb_true_iff, bool_decide_eq_true, no_retry_true_iff. }
  unfold get_snapshot_with_error, get_snapshot, Camera.stops, Camera.outcome.
  rewrite Htok. cbn [negb seq MAX_RETRIES attempts].
  destruct (get_snapshot_once_shape (world 0)) as [[d0 H0]|[e0 H0]];
    rewrite H0; cbn [fst snd].
  { repeat split; try done; vm_compute; lia. }
  destruct (no_retry (Some e0)) eqn:Hn0.
  { rewrite bool_decide_false by (by intros [? ?]).
    repeat split; try done; vm_compute; lia. }
  rewrite bool_decide_false by (by intros [? ?]). cbn [orb].
  destruct (get_snapshot_once_shape (world 1)) as [[d1 H1]|[e1 H1]];
    rewrite H1; cbn [fst snd].
  { repeat split; try done; vm_compute; lia. }
  destruct (no_retry (Some e1)) eqn:Hn1.
  { rewrite bool_decide_false by (by intros [? ?]).
    repeat split; try done; vm_compute; lia. }
  rewrite bool_decide_false by (by intros [? ?]). cbn [orb].
  destruct (get_snapshot_once_shape (world 2)) as [[d2 H2]|[e2 H2]];
    rewrite H2; cbn [fst snd].
  { repeat split; try done; vm_compute; lia. }
  destruct (no_retry (Some e2)) eqn:Hn2;
    repeat split; try done; vm_compute; lia.
Qed.

(** Without a token nothing is attempted. *)
Lemma get_snapshot_no_token :
  truthy ha_token = false →
  run.2 = [] ∧ run.1.1 = None
  ∧ (error_type <$> run.1.2) = Some "auth"
  ∧ get_snapshot ha_token entity_id world = (None, []).
Proof.
  intros Htok. unfold get_snapshot_with_error, get_snapshot.
  by rewrite Htok.
Qed.

End Retry.

Lemma get_snapshot_retries_witness :
  get_snapshot_with_error (Some "token") "camera.desk" flaky
  = (Some "JFIF", None, [Attempt 0; Sleep 1; Attempt 1; Sleep 2; Attempt 2]).
Proof.
  destruct (get_snapshot_retries (Some "token") "camera.desk" flaky eq_refl)
    as (_ & _ & _ & Hthird & _).
  exact (Hthird eq_refl eq_refl).
Defined.

Example get_snapshot_not_found_stops :
  get_snapshot (Some "token") "camera.desk"
    (λ k, match k with 0%nat => TimeoutError | _ => Response 404 "" end)
  = (None, [Attempt 0; Sleep 1; Attempt 1]).
Proof. reflexivity. Qed.

End CameraProofs.

(** ** Analyzer *)

Module AnalyzerProofs.
Import Analyzer.

(** Running [analyze] from the first clock reading. *)
Local Abbreviation run w := (analyze w 0%nat).

Lemma analyze_no_key (w : world) :
  truthy (api_key w) = false →
  run w = (Ok (error_result
                 "Gemini API key not configured. Please configure in Settings."
                 None), 0%nat).
Proof. intros Hkey. unfold analyze. by rewrite Hkey. Qed.

(** With a key, [analyze] is the [try] statement run after the first
    clock reading. *)
Lemma analyze_with_key (w : world) :
  truthy (api_key w) = true →
  ∃ body handler,
    run w = try_except body handler 1%nat
    ∧ ∀ e n, ∃ msg,
        handler e n
        = (Ok (error_result msg (Some (clock w n - clock w 0)%Q)), S n).
Proof.
  intros Hkey. unfold analyze. rewrite Hkey. cbn [negb].
  eexists _, _. split; [reflexivity|].
  intros [msg|msg] n; eexists; reflexivity.
Qed.

(** A [try] whose handler always returns cannot raise. *)
Lemma try_except_total {A} (body : M A) (handler : exn → M A) (n : nat) :
  (∀ e m, ∃ a m', handler e m = (Ok a, m')) →
  ∃ a m', try_except body handler n = (Ok a, m').
Proof.
  intros Hh. unfold try_except.
  destruct (body n) as [[a|e] n']; eauto.
Qed.

(** C8. [analyze] always returns a result and never raises, whatever
    the steps it calls do.  Without an API key the result has status
    "error" and the message that the key is not configured.  With a
    key, a response of status 429, a response of any other status than
    200, and a request that raises each give a result of status
    "error" whose [api_response_time] is the time elapsed since the
    start: read when the response arrived, or in the handler when an
    exception was caught. *)
Theorem analyze_never_raises (w : world) :
  (∃ r n, run w = (Ok r, n))
  ∧ (truthy (api_key w) = false →
     ∃ n, run w
          = (Ok (mk_result "error" [] []
                   (Some "Gemini API key not configured. Please configure in Settings.")
                   None), n))
  ∧ (∀ payload resp,
       truthy (api_key w) = true → build_request w = Ok payload →
       post w payload = Ok resp → resp_status resp = 429 →
       ∃ n, run w
            = (Ok (mk_result "error" [] []
                     (Some "API quota exceeded. Please try again later.")
                     (Some (clock w 1 - clock w 0)%Q)), n))
  ∧ (∀ payload resp,
       truthy (api_key w) = true → build_request w = Ok payload →
       post w payload = Ok resp → resp_status resp ≠ 200 →
       ∃ r n k, run w = (Ok r, n) ∧ status r = "error"
                ∧ is_Some (error_message r) ∧ (1 ≤ k)%nat
                ∧ api_response_time r = Some (clock w k - clock w 0)%Q)
  ∧ (∀ payload e,
       truthy (api_key w) = true → build_request w = Ok payload →
       post w payload = Raise e →
       ∃ msg n, run w
                = (Ok (mk_result "error" [] [] (Some msg)
                         (Some (clock w 1 - clock w 0)%Q)), n)).
Proof.
  split; [|split; [|split; [|split]]].
  - destruct (truthy (api_key w)) eqn:Hkey.
    + destruct (analyze_with_key w Hkey) as (body & handler & -> & Hh).
      apply try_except_total. intros e m.
      destruct (Hh e m) as [msg ->]. eauto.
    + rewrite (analyze_no_key w Hkey). eauto.
  - intros Hkey. rewrite (analyze_no_key w Hkey). eauto.
  - intros payload resp Hkey Hb Hp Hs. unfold analyze.
    rewrite Hkey. cbn [negb].
    unfold mbind, M_bind, bind, try_except, lift, time, ret.
    rewrite Hb, Hp, Hs. cbn. eauto.
  - intros payload resp Hkey Hb Hp Hs. unfold analyze.
    rewrite Hkey. cbn [negb].
    unfold mbind, M_bind, bind, try_except, lift, time, ret.
    rewrite Hb, Hp.
    destruct (Z.eqb_spec (resp_status resp) 429) as [_|_].
    { eexists _, _, 1%nat. repeat split; eauto. }
    destruct (Z.eqb_spec (resp_status resp) 200) as [|_]; [done|].
    cbn [negb]. destruct (resp_text resp) as [text|[msg|msg]].
    + eexists _, _, 1%nat. repeat split; eauto.
    + eexists _, _, 2%nat. repeat split; eauto.
    + eexists _, _, 2%nat. repeat split; eauto.
  - intros payload e Hkey Hb Hp. unfold analyze.
    rewrite Hkey. cbn [negb].
    unfold mbind, M_bind, bind, try_except, lift, time, ret.
    rewrite Hb, Hp. destruct e as [msg|msg]; eauto.
Qed.

Lemma analyze_never_raises_witness :
  ∃ n, analyze quota_exceeded 0%nat
       = (Ok (mk_result "error" [] []
                (Some "API quota exceeded. Please try again later.")
                (Some (clock quota_exceeded 1 - clock quota_exceeded 0)%Q)), n).
Proof.
  apply (proj1 (proj2 (proj2 (analyze_never_raises quota_exceeded)))
           "payload" (mk_response 429 (Ok "") (Ok "")));
    reflexivity.
Defined.

(** A request that cannot connect ends in a network-error result. *)
Example analyze_network_error :
  (analyze unreachable 0%nat).1
  = Ok (mk_result "error" [] [] (Some "Network error: connection refused")
          (Some (clock unreachable 1 - clock unreachable 0)%Q)).
Proof. reflexivity. Qed.

End AnalyzerProofs.

(** ** API tokens *)

Module DatabaseProofs.
Import Database.

Implicit Types (t : list token_row) (row : token_row).

(** *** Lookup by token *)

Lemma select_by_token_Some tok t row :
  select_by_token tok t = Some row → row ∈ t ∧ token row = tok.
Proof.
  unfold select_by_token. intros Hf.
  apply find_some in Hf as [Hin Htok].
  apply list_elem_of_In in Hin. by apply bool_decide_eq_true in Htok.
Qed.

Lemma select_by_token_None tok t :
  select_by_token tok t = None → tok ∉ token <$> t.
Proof.
  unfold select_by_token. intros Hf Hin.
  apply list_elem_of_fmap in Hin as (row & -> & Hin).
  apply list_elem_of_In in Hin.
  pose proof (find_none _ _ Hf _ Hin) as Hb. cbn in Hb.
  by rewrite bool_decide_true in Hb.
Qed.

(** Under the UNIQUE constraint a token selects its own row. *)
Lemma select_by_token_elem_of t row :
  NoDup (token <$> t) → row ∈ t → select_by_token (token row) t = Some row.
Proof.
  unfold select_by_token.
  induction t as [|r t IH]; intros Hnd Hin; [by apply elem_of_nil in Hin|].
  cbn [fmap list_fmap] in Hnd. apply NoDup_cons in Hnd as [Hr Hnd].
  cbn [List.find]. apply elem_of_cons in Hin as [->|Hin].
  - by rewrite bool_decide_true.
  - rewrite bool_decide_false; [by apply IH|].
    intros Heq. apply Hr. rewrite Heq. by apply list_elem_of_fmap_2.
Qed.

(** *** The updates keep ids and tokens *)

Lemma set_inactive_ids i t : id <$> set_inactive i t = id <$> t.
Proof.
  unfold set_inactive. rewrite <- list_fmap_compose.
  apply Forall_fmap_ext_1, Forall_forall. intros r _. cbn.
  by case_bool_decide.
Qed.

Lemma set_inactive_tokens i t : token <$> set_inactive i t = token <$> t.
Proof.
  unfold set_inactive. rewrite <- list_fmap_compose.
  apply Forall_fmap_ext_1, Forall_forall. intros r _. cbn.
  by case_bool_decide.
Qed.

Lemma set_last_used_ids now i t : id <$> set_last_used now i t = id <$> t.
Proof.
  unfold set_last_used. rewrite <- list_fmap_compose.
  apply Forall_fmap_ext_1, Forall_forall. intros r _. cbn.
  by case_bool_decide.
Qed.

Lemma set_last_used_tokens now i t :
  token <$> set_last_used now i t = token <$> t.
Proof.
  unfold set_last_used. rewrite <- list_fmap_compose.
  apply Forall_fmap_ext_1, Forall_forall. intros r _. cbn.
  by case_bool_decide.
Qed.

(** A row of the table after [set_inactive]: it is inactive when it has
    the given id, and unchanged otherwise. *)
Lemma elem_of_set_inactive i t row' :
  row' ∈ set_inactive i t
  ↔ ∃ row, row ∈ t
           ∧ row' = (if bool_decide (id row = i)
                     then mk_row (id row) (token row) (name row)
                            (created_at row) (last_used row) 0
                     else row).
Proof.
  unfold set_inactive. rewrite list_elem_of_fmap.
  split; intros (row & H1 & H2); eauto.
Qed.

(** *** The operations keep the constraints of the schema *)

Lemma revoke_api_token_constraints i t :
  constraints t → constraints (revoke_api_token i t).2.
Proof.
  unfold constraints, revoke_api_token. cbn [snd].
  by rewrite set_inactive_ids, set_inactive_tokens.
Qed.

Lemma verify_api_token_constraints now tok t :
  constraints t → constraints (verify_api_token now tok t).2.
Proof.
  unfold constraints, verify_api_token.
  destruct (select_by_token tok t) as [row|]; [|done].
  destruct (is_active row =? 0); [done|]. cbn [snd].
  by rewrite set_last_used_ids, set_last_used_tokens.
Qed.

Lemma delete_api_token_constraints i t :
  constraints t → constraints (delete_api_token i t).2.
Proof.
  unfold constraints, delete_api_token. cbn [snd]. intros [Hi Ht].
  split.
  - clear Ht. induction t as [|r t IH]; [done|].
    cbn [fmap list_fmap] in Hi. apply NoDup_cons in Hi as [Hr Hi].
    rewrite filter_cons. case_decide; [|by apply IH].
    cbn [fmap list_fmap]. apply NoDup_cons. split; [|by apply IH].
    intros Hin. apply Hr.
    apply list_elem_of_fmap in Hin as (r' & -> & Hin).
    apply list_elem_of_filter in Hin as [_ Hin].
    by apply list_elem_of_fmap_2.
  - clear Hi. induction t as [|r t IH]; [done|].
    cbn [fmap list_fmap] in Ht. apply NoDup_cons in Ht as [Hr Ht].
    rewrite filter_cons. case_decide; [|by apply IH].
    cbn [fmap list_fmap]. apply NoDup_cons. split; [|by apply IH].
    intros Hin. apply Hr.
    apply list_elem_of_fmap in Hin as (r' & -> & Hin).
    apply list_elem_of_filter in Hin as [_ Hin].
    by apply list_elem_of_fmap_2.
Qed.

Lemma create_api_token_constraints fresh new_id nm now t tok t' :
  constraints t → create_api_token fresh new_id nm now t = Some (tok, t') →
  constraints t' ∧ tok = fresh
  ∧ (verify_api_token now tok t').1 = true.
Proof.
  unfold constraints, create_api_token. intros [Hi Ht].
  destruct (bool_decide (fresh ∈ token <$> t)) eqn:Hf; [done|].
  destruct (bool_decide (new_id ∈ id <$> t)) eqn:Hn; [done|].
  apply bool_decide_eq_false in Hf, Hn.
  cbn [orb]. intros [= <- <-].
  assert (Hc : NoDup (id <$> t ++ [mk_row new_id fresh nm now None 1])
               ∧ NoDup (token <$> t ++ [mk_row new_id fresh nm now None 1])).
  { rewrite !fmap_app. cbn [fmap list_fmap]. split.
    - apply NoDup_app. repeat split; [done| |apply NoDup_singleton].
      intros x Hx Hx'. apply list_elem_of_singleton in Hx'. by subst.
    - apply NoDup_app. repeat split; [done| |apply NoDup_singleton].
      intros x Hx Hx'. apply list_elem_of_singleton in Hx'. by subst. }
  split; [done|]. split; [done|].
  unfold verify_api_token.
  rewrite (select_by_token_elem_of _ (mk_row new_id fresh nm now None 1));
    [done|apply Hc|].
  rewrite elem_of_app, list_elem_of_singleton. auto.
Qed.

(** *** Verification *)

(** Under the constraints, verifying the token of a row of the table
    answers whether that row is active. *)
Lemma verify_api_token_row now t row :
  constraints t → row ∈ t →
  (verify_api_token now (token row) t).1 = negb (is_active row =? 0).
Proof.
  intros [_ Ht] Hin. unfold verify_api_token.
  rewrite (select_by_token_elem_of t row Ht Hin).
  by destruct (is_active row =? 0).
Qed.

Lemma verify_api_token_unknown now tok t :
  tok ∉ token <$> t → verify_api_token now tok t = (false, t).
Proof.
  intros Hnin. unfold verify_api_token.
  destruct (select_by_token tok t) as [row|] eqn:Hs; [|done].
  apply select_by_token_Some in Hs as [Hin <-].
  exfalso. apply Hnin. by apply list_elem_of_fmap_2.
Qed.

(** C9. In a token table that meets the constraints of the schema,
    once [revoke_api_token] has succeeded for an id, verifying the
    token of the row with that id answers false, while verifying the
    token of any other row answers as before, true when the row is
    active.  A successful revocation means a row had the id, the
    table still meets the constraints, and an inactive token never
    verifies. *)
Theorem revoke_then_verify (t t' : list token_row) (token_id : Z)
    (now : string) :
  constraints t →
  revoke_api_token token_id t = (true, t') →
  constraints t'
  ∧ (∃ row, row ∈ t ∧ id row = token_id)
  ∧ (∀ row, row ∈ t → id row = token_id →
            (verify_api_token now (token row) t').1 = false)
  ∧ (∀ row, row ∈ t → id row ≠ token_id → is_active row ≠ 0 →
            (verify_api_token now (token row) t').1 = true)
  ∧ (∀ row, row ∈ t → id row ≠ token_id →
            (verify_api_token now (token row) t').1
            = (verify_api_token now (token row) t).1)
  ∧ (∀ row, row ∈ t' → is_active row = 0 →
            (verify_api_token now (token row) t').1 = false).
Proof.
  intros Hc Hrev.
  assert (Hc' : constraints t').
  { replace t' with (revoke_api_token token_id t).2 by (by rewrite Hrev).
    by apply revoke_api_token_constraints. }
  unfold revoke_api_token in Hrev. injection Hrev as Hcount <-.
  apply bool_decide_eq_true in Hcount.
  split; [done|]. split; [|split; [|split; [|split]]].
  - unfold rowcount in Hcount.
    destruct (filter (λ r, id r = token_id) t) as [|row rest] eqn:Hf;
      [cbn in Hcount; lia|].
    assert (Hin : row ∈ filter (λ r, id r = token_id) t)
      by (rewrite Hf; left).
    apply list_elem_of_filter in Hin as [? ?]. eauto.
  - intros row Hin Hid.
    pose (row' := mk_row (id row) (token row) (name row) (created_at row)
                    (last_used row) 0).
    assert (Hin' : row' ∈ set_inactive token_id t).
    { apply elem_of_set_inactive. exists row. split; [done|].
      by rewrite bool_decide_true. }
    exact (verify_api_token_row now _ row' Hc' Hin').
  - intros row Hin Hid Hact.
    assert (Hin' : row ∈ set_inactive token_id t).
    { apply elem_of_set_inactive. exists row. split; [done|].
      by rewrite bool_decide_false. }
    rewrite (verify_api_token_row now _ row Hc' Hin').
    by destruct (Z.eqb_spec (is_active row) 0).
  - intros row Hin Hid.
    assert (Hin' : row ∈ set_inactive token_id t).
    { apply elem_of_set_inactive. exists row. split; [done|].
      by rewrite bool_decide_false. }
    by rewrite (verify_api_token_row now _ row Hc' Hin'),
      (verify_api_token_row now _ row Hc Hin).
  - intros row Hin Hact.
    rewrite (verify_api_token_row now _ row Hc' Hin), Hact. done.
Qed.

Lemma two_tokens_constraints : constraints two_tokens.
Proof. split; apply (bool_decide_unpack _); vm_compute; exact I. Defined.

Lemma revoke_then_verify_witness :
  (verify_api_token "2024-02-01T10:00:00" "tok-phone"
     (revoke_api_token 1 two_tokens).2).1 = false
  ∧ (verify_api_token "2024-02-01T10:00:00" "tok-tablet"
       (revoke_api_token 1 two_tokens).2).1 = true.
Proof.
  destruct (revoke_then_verify two_tokens (revoke_api_token 1 two_tokens).2
              1 "2024-02-01T10:00:00" two_tokens_constraints eq_refl)
    as (_ & _ & Hrevoked & Hother & _).
  split.
  - apply (Hrevoked (mk_row 1 "tok-phone" "phone" "2024-01-01T09:00:00" None 1));
      [left|reflexivity].
  - apply (Hother (mk_row 2 "tok-tablet" "tablet" "2024-01-02T09:00:00" None 1));
      [right; left|discriminate|discriminate].
Defined.

(** Without the UNIQUE constraint the statement would fail: of two
    rows that share a token the first one answers. *)
Example verify_needs_unique_tokens :
  let t := [ mk_row 1 "same" "a" "" None 1; mk_row 2 "same" "b" "" None 1 ] in
  (verify_api_token "" "same" (revoke_api_token 2 t).2).1 = true.
Proof. reflexivity. Qed.

End DatabaseProofs.

(** ** Gamification: levels, rewards, achievements and rotation *)

Module GamificationMoreProofs.
Import Datetime Gamification GamificationMore GamificationProofs.

Ltac split_decides :=
  repeat match goal with
         | |- context [Z.leb ?a ?b] => destruct (Z.leb_spec a b); try lia
         | |- context [Z.ltb ?a ?b] => destruct (Z.ltb_spec a b); try lia
         end.

Lemma elem_of_LEVELS (lv : Level) :
  lv ∈ LEVELS → 1 ≤ level lv ≤ 10 ∧ get_level_info (level lv) = Some lv.
Proof.
  unfold LEVELS. intros Hin.
  repeat (apply elem_of_cons in Hin as [->|Hin]; [split; [cbn; lia|reflexivity]|]).
  by apply elem_of_nil in Hin.
Qed.

Lemma py_min_100 (q : Q) : (py_min 100 q <= 100)%Q.
Proof.
  unfold py_min. destruct (Qle_bool 100 q) eqn:Hq; [apply Qle_refl|].
  destruct (Qlt_le_dec q 100) as [Hlt|Hle]; [by apply Qlt_le_weak|].
  apply Qle_bool_iff in Hle. congruence.
Qed.

Lemma progress_bounds (a b : Z) :
  0 ≤ a → a < b →
  (0 <= py_min 100 ((a # Z.to_pos b) * 100) ∧ py_min 100 ((a # Z.to_pos b) * 100) < 100)%Q.
Proof.
  intros Ha Hb.
  assert (Hlt : ((a # Z.to_pos b) * 100 < 100)%Q).
  { unfold Qlt, Qmult. cbn. rewrite Pos.mul_1_r, Z2Pos.id by lia. lia. }
  assert (Hge : (0 <= (a # Z.to_pos b) * 100)%Q).
  { unfold Qle, Qmult. cbn. lia. }
  unfold py_min. destruct (Qle_bool 100 _) eqn:Hq; [|done].
  apply Qle_bool_iff in Hq. exfalso. by eapply Qlt_not_le.
Qed.

(** X1. For a non-negative XP total, [calculate_level] returns the
    highest level whose requirement is met: [get_level_info] of the
    returned level gives the entry the name and emoji come from, its
    requirement is at most the XP, and no level of the table with a
    requirement within the XP is higher.  When a next level exists, the
    XP is below its requirement, [xp_to_next_level] is exactly what is
    missing, and the progress percent lies in [0, 100); the progress
    never exceeds 100. *)
Theorem calculate_level_highest_met (xp : Z) :
  0 ≤ xp →
  ∃ r lv,
    calculate_level xp = Some r
    ∧ get_level_info (li_level r) = Some lv
    ∧ li_name r = level_name lv ∧ li_emoji r = level_emoji lv
    ∧ xp_required lv ≤ xp
    ∧ (∀ lv', lv' ∈ LEVELS → xp_required lv' ≤ xp → level lv' ≤ li_level r)
    ∧ (∀ nxt, get_level_info (li_level r + 1) = Some nxt →
              xp < xp_required nxt
              ∧ xp + xp_to_next_level r = xp_required nxt
              ∧ (0 <= xp_progress_percent r)%Q
              ∧ (xp_progress_percent r < 100)%Q)
    ∧ (xp_progress_percent r <= 100)%Q.
Proof.
  intros Hxp. unfold calculate_level, LEVELS.
  cbn -[Z.leb Z.ltb Z.sub py_min Qmult].
  split_decides;
    (eexists _, _; split; [reflexivity|]; split; [reflexivity|];
     cbn -[py_min Qmult Z.sub]; repeat split).
  all: try done; try lia; try apply py_min_100.
  all: try (intros lv' Hin Hreq;
            repeat (apply elem_of_cons in Hin as [->|Hin]; [cbn in *; lia|]);
            by apply elem_of_nil in Hin).
  all: match goal with
       | H : _ = Some _ |- _ => vm_compute in H; try discriminate H;
                                injection H as <-
       end; cbn -[py_min Qmult Z.sub]; try lia; apply progress_bounds; lia.
Qed.

Lemma calculate_level_highest_met_witness :
  ∃ r lv, calculate_level 1234 = Some r
          ∧ get_level_info (li_level r) = Some lv ∧ xp_required lv ≤ 1234.
Proof.
  destruct (calculate_level_highest_met 1234 ltac:(lia))
    as (r & lv & H1 & H2 & _ & _ & H3 & _).
  by exists r, lv.
Defined.

(** X2. A reset always earns between 50 and 350 XP; it never earns less
    for a longer streak, never more for a longer delay, and a recorded
    delay never earns less than an unrecorded one. *)
Theorem reset_xp_bounds_monotone (s s' m m' : Z) :
  (∀ mm, 50 ≤ calculate_xp_for_action "reset" s mm ≤ 350)
  ∧ (∀ mm, s ≤ s' →
           calculate_xp_for_action "reset" s mm
           ≤ calculate_xp_for_action "reset" s' mm)
  ∧ (m ≤ m' →
     calculate_xp_for_action "reset" s (Some m')
     ≤ calculate_xp_for_action "reset" s (Some m))
  ∧ calculate_xp_for_action "reset" s None
    ≤ calculate_xp_for_action "reset" s (Some m).
Proof.
  unfold calculate_xp_for_action.
  change (XP_REWARDS !!! "streak_day") with 25.
  change (default 0 (XP_REWARDS !! "reset")) with 50.
  change (bool_decide ("reset" = "reset")) with true. cbn [andb].
  repeat split; intros;
    repeat match goal with mm : option Z |- _ => destruct mm end;
    split_decides; lia.
Qed.

Lemma reset_xp_bounds_monotone_witness :
  calculate_xp_for_action "reset" 2 (Some 40)
  ≤ calculate_xp_for_action "reset" 2 (Some 4).
Proof.
  apply (proj1 (proj2 (proj2 (reset_xp_bounds_monotone 2 2 4 40)))). lia.
Defined.

(** The predicate of each achievement, read off the catalogue. *)
Lemma unlock_conditions (ctx : Context) :
  check_achievement_unlock "first_blood" ctx = (1 <=? total_resets ctx)
  ∧ check_achievement_unlock "streak_3" ctx = (3 <=? streak_days ctx)
  ∧ check_achievement_unlock "streak_7" ctx = (7 <=? streak_days ctx)
  ∧ check_achievement_unlock "streak_30" ctx = (30 <=? streak_days ctx)
  ∧ check_achievement_unlock "early_bird" ctx
    = match reset_time ctx with Some t => hour t <? 7 | None => false end
  ∧ check_achievement_unlock "night_owl" ctx
    = match reset_time ctx with Some t => 23 <=? hour t | None => false end
  ∧ check_achievement_unlock "speed_demon" ctx
    = match minutes_since_check ctx with Some m => m <=? 5 | None => false end
  ∧ check_achievement_unlock "centurion" ctx = (100 <=? total_resets ctx)
  ∧ check_achievement_unlock "usual_suspect" ctx
    = (10 <=? recurring_item_count ctx)
  ∧ check_achievement_unlock "multi_spot" ctx
    = (3 <=? spots_reset_in_session ctx)
  ∧ check_achievement_unlock "comeback" ctx
    = (5 <=? lost_streak_days ctx) && (1 <=? streak_days ctx).
Proof. repeat split; vm_compute; reflexivity. Qed.

(** X3. The streak achievements are nested: whatever unlocks
    "streak_30" unlocks "streak_7", and whatever unlocks "streak_7"
    unlocks "streak_3"; "centurion" implies "first_blood".  One reset
    time never unlocks both "early_bird" and "night_owl".  And
    "speed_demon" is unlocked exactly when the reset earns the 50 XP
    speed bonus. *)
Theorem achievements_nested (ctx : Context) :
  (check_achievement_unlock "streak_30" ctx = true →
   check_achievement_unlock "streak_7" ctx = true)
  ∧ (check_achievement_unlock "streak_7" ctx = true →
     check_achievement_unlock "streak_3" ctx = true)
  ∧ (check_achievement_unlock "centurion" ctx = true →
     check_achievement_unlock "first_blood" ctx = true)
  ∧ (check_achievement_unlock "early_bird" ctx = true →
     check_achievement_unlock "night_owl" ctx = false)
  ∧ (check_achievement_unlock "speed_demon" ctx = true
     ↔ calculate_xp_for_action "reset" (streak_days ctx)
         (minutes_since_check ctx)
       = calculate_xp_for_action "reset" (streak_days ctx) None + 50).
Proof.
  destruct (unlock_conditions ctx)
    as (-> & -> & -> & -> & -> & -> & -> & -> & _).
  repeat split.
  - intros H. apply Z.leb_le in H. apply Z.leb_le. lia.
  - intros H. apply Z.leb_le in H. apply Z.leb_le. lia.
  - intros H. apply Z.leb_le in H. apply Z.leb_le. lia.
  - destruct (reset_time ctx) as [t|]; [|done].
    intros H. apply Z.ltb_lt in H. apply Z.leb_gt. lia.
  - unfold calculate_xp_for_action.
    change (bool_decide ("reset" = "reset")) with true. cbn [andb].
    destruct (minutes_since_check ctx) as [m|]; [|done].
    intros H. rewrite H. lia.
  - unfold calculate_xp_for_action.
    change (bool_decide ("reset" = "reset")) with true. cbn [andb].
    destruct (minutes_since_check ctx) as [m|]; [|lia].
    destruct (Z.leb_spec m 5); [done|].
    destruct (Z.leb_spec m 30); lia.
Qed.

Lemma achievements_nested_witness :
  check_achievement_unlock "streak_7"
    (mk_context 31 3 None None 0 0 0) = true.
Proof.
  apply (proj1 (achievements_nested (mk_context 31 3 None None 0 0 0))).
  reflexivity.
Defined.

Lemma challenge_index_succ (a : Z) : (a + 1) mod 7 = (a mod 7 + 1) mod 7.
Proof. by rewrite Zplus_mod_idemp_l. Qed.

(** X4. The daily challenge moves one place down the list from one day
    to the next within a year, and so repeats every 7 days; it also
    moves one place from December 31st of a common year to January 1st,
    but after a leap year January 1st repeats the challenge of December
    31st.  [get_daily_challenge] returns the entry at that index. *)
Theorem daily_challenge_day_to_day (d d' : datetime) (y : Z) :
  (year d' = year d → tm_yday d' = tm_yday d + 1 →
   challenge_index d' = (challenge_index d + 1) mod 7)
  ∧ (year d' = year d → tm_yday d' = tm_yday d + 7 →
     challenge_index d' = challenge_index d)
  ∧ challenge_index (new_years_day y)
    = (if is_leap y then challenge_index (new_years_eve y)
       else (challenge_index (new_years_eve y) + 1) mod 7)
  ∧ (∀ now, get_daily_challenge (Some d) now
            = DAILY_CHALLENGES !! Z.to_nat (challenge_index d)).
Proof.
  assert (Hlen : Z.of_nat (length DAILY_CHALLENGES) = 7) by reflexivity.
  split; [|split; [|split]].
  - unfold challenge_index. rewrite Hlen. intros -> ->.
    rewrite <- challenge_index_succ. f_equal. lia.
  - unfold challenge_index. rewrite Hlen. intros -> ->.
    replace (year d * 365 + (tm_yday d + 7))
      with (year d * 365 + tm_yday d + 1 * 7) by lia.
    apply Z.mod_add. lia.
  - unfold challenge_index. rewrite Hlen.
    unfold new_years_day, new_years_eve, date, tm_yday, days_before_month.
    cbn [year month day].
    change (2 <? 1) with false. change (2 <? 12) with true. cbn [andb].
    destruct (is_leap y).
    + f_equal. lia.
    + rewrite <- challenge_index_succ. f_equal. lia.
  - intros now. unfold get_daily_challenge, challenge_index, py_index.
    cbn [default]. unfold id.
    destruct (Z.leb_spec 0 ((year d * 365 + tm_yday d)
                            mod Z.of_nat (length DAILY_CHALLENGES)));
      [reflexivity|].
    pose proof (Z.mod_pos_bound (year d * 365 + tm_yday d) 7 ltac:(lia)).
    rewrite Hlen in *. lia.
Qed.

Lemma daily_challenge_day_to_day_witness :
  challenge_index (date 2025 3 2) = (challenge_index (date 2025 3 1) + 1) mod 7.
Proof.
  apply (proj1 (daily_challenge_day_to_day (date 2025 3 1) (date 2025 3 2) 0));
    reflexivity.
Defined.

End GamificationMoreProofs.

(** ** Memory engine: frequency table and statistics *)

Module MemoryStatsProofs.
Import Datetime PyCounter Memory MemoryStats PyCounterProofs MemoryProofs.
Local Open Scope nat_scope.

(** *** The stable descending sort *)

Section Sorting.
Context {K : Type}.
Implicit Types (x y : K * nat) (c : list (K * nat)).

Lemma insert_desc_perm x c : insert_desc x c ≡ₚ x :: c.
Proof.
  induction c as [|y c IH]; [done|]. cbn [insert_desc].
  destruct (x.2 <? y.2); [|done].
  rewrite IH. apply Permutation_swap.
Qed.

Lemma sorted_desc_perm c : sorted_desc c ≡ₚ c.
Proof.
  induction c as [|x c IH]; [done|]. unfold sorted_desc in *.
  cbn [foldr]. by rewrite insert_desc_perm, IH.
Qed.

Lemma insert_desc_sorted x c :
  StronglySorted not_beaten c → StronglySorted not_beaten (insert_desc x c).
Proof.
  induction 1 as [|y c Hc IH Hy]; cbn [insert_desc].
  { repeat constructor. }
  destruct (Nat.ltb_spec x.2 y.2) as [Hlt|Hge].
  - constructor; [done|].
    rewrite Forall_forall. intros z Hz.
    rewrite insert_desc_perm, elem_of_cons in Hz.
    destruct Hz as [->|Hz]; [unfold not_beaten; lia|].
    rewrite Forall_forall in Hy. by apply Hy.
  - constructor; [by constructor|].
    constructor; [done|].
    rewrite Forall_forall in Hy |- *. intros z Hz.
    specialize (Hy z Hz). unfold not_beaten in *. lia.
Qed.

Lemma sorted_desc_sorted c : StronglySorted not_beaten (sorted_desc c).
Proof.
  induction c as [|x c IH]; [constructor|].
  unfold sorted_desc in *. cbn [foldr]. by apply insert_desc_sorted.
Qed.

(** The sort is stable: entries of equal count keep their order. *)
Lemma insert_desc_stable x c n :
  filter (λ y, y.2 = n) (insert_desc x c) = filter (λ y, y.2 = n) (x :: c).
Proof.
  induction c as [|y c IH]; [done|]. cbn [insert_desc].
  destruct (Nat.ltb_spec x.2 y.2) as [Hlt|Hge]; [|done].
  rewrite filter_cons, IH, !filter_cons.
  destruct (decide (y.2 = n)), (decide (x.2 = n)); try done; lia.
Qed.

Lemma sorted_desc_stable c n :
  filter (λ y, y.2 = n) (sorted_desc c) = filter (λ y, y.2 = n) c.
Proof.
  induction c as [|x c IH]; [done|]. unfold sorted_desc in *.
  cbn [foldr]. by rewrite insert_desc_stable, !filter_cons, IH.
Qed.

Lemma StronglySorted_lookup c i j x y :
  StronglySorted not_beaten c → i < j →
  c !! i = Some x → c !! j = Some y → not_beaten x y.
Proof.
  intros Hs. revert i j. induction Hs as [|z c Hc IH Hz]; intros i j Hij Hi Hj.
  { done. }
  destruct j as [|j]; [lia|]. cbn in Hj. destruct i as [|i].
  - cbn in Hi. injection Hi as ->.
    rewrite Forall_forall in Hz. apply Hz. by eapply list_elem_of_lookup_2.
  - cbn in Hi. apply (IH i j); [lia|done|done].
Qed.

(** What [most_common n] leaves out is beaten by nothing it keeps. *)
Lemma most_common_keeps_top n c x y :
  x ∈ most_common n c → y ∈ c → y ∉ most_common n c → not_beaten x y.
Proof.
  unfold most_common. intros Hx Hy Hny.
  pose proof (sorted_desc_sorted c) as Hs.
  rewrite <- (take_drop n (sorted_desc c)) in Hs.
  assert (Hy' : y ∈ drop n (sorted_desc c)).
  { rewrite <- sorted_desc_perm, <- (take_drop n (sorted_desc c)) in Hy.
    apply elem_of_app in Hy as [?|?]; done. }
  apply list_elem_of_lookup in Hx as [i Hi], Hy' as [j Hj].
  eapply (StronglySorted_lookup _ i (length (take n (sorted_desc c)) + j) _ _ Hs).
  - apply lookup_lt_Some in Hi. lia.
  - by apply lookup_app_l_Some.
  - rewrite lookup_app_r by lia.
    by replace (length (take n (sorted_desc c)) + j
                - length (take n (sorted_desc c))) with j by lia.
Qed.

End Sorting.

(** *** Top 20 items *)

Lemma elem_of_count_all {K} `{EqDecision K} (ks : list K) (k : K) (n : nat) :
  (k, n) ∈ count_all ks ↔ k ∈ ks ∧ n = occurrences k ks.
Proof.
  rewrite count_all_spec, list_elem_of_fmap. split.
  - intros (k' & [= -> ->] & Hk). by rewrite elem_of_first_seen in Hk.
  - intros [Hk ->]. exists k. by rewrite elem_of_first_seen.
Qed.

(** X5. [_count_all_items] raises exactly when some dict entry holds a
    value under "item" that is not a string.  Otherwise the frequency
    table holds at most 20 items, each non-empty name once with its
    number of occurrences in the to-sort lists, in descending order of
    count; nothing that occurs more often than a listed item is left
    out, names of equal count come in the order they were first seen,
    and with at most 20 distinct names every name is listed. *)
Theorem count_all_items_top_20 (checks : list check) :
  let names := filter (λ n, n ≠ "") (entry_names checks) in
  (_count_all_items checks = None ↔ unreadable checks)
  ∧ ∀ top, _count_all_items checks = Some top →
      length top ≤ 20
      ∧ NoDup top.*1
      ∧ (∀ s n, (s, n) ∈ top →
                s ≠ "" ∧ n = occurrences s (entry_names checks) ∧ 1 ≤ n)
      ∧ (∀ i j x y, i < j → top !! i = Some x → top !! j = Some y →
                    y.2 ≤ x.2)
      ∧ (∀ s n s', (s, n) ∈ top → s' ≠ "" →
                   n < occurrences s' (entry_names checks) → s' ∈ top.*1)
      ∧ (∀ n, filter (λ y, y.2 = n) top
              `prefix_of` filter (λ y, y.2 = n) (count_all names))
      ∧ (length (first_seen names) ≤ 20 →
         ∀ s, s ≠ "" → s ∈ entry_names checks →
              (s, occurrences s (entry_names checks)) ∈ top).
Proof.
  intros names. unfold _count_all_items.
  split.
  { rewrite <- (proj1 (count_items_eq checks)).
    by destruct (count_items checks). }
  intros top Htop.
  destruct (count_items checks) as [counter|] eqn:Hc; [|done].
  injection Htop as <-.
  rewrite (proj2 (count_items_eq checks) counter Hc). fold names.
  assert (Hin : ∀ s n, (s, n) ∈ count_all names
                       ↔ s ≠ "" ∧ s ∈ entry_names checks
                         ∧ n = occurrences s (entry_names checks)).
  { intros s n. unfold names.
    rewrite elem_of_count_all, list_elem_of_filter.
    split.
    - intros [[Hne Hs] ->]. by rewrite occurrences_nonempty.
    - intros (Hne & Hs & ->). by rewrite occurrences_nonempty. }
  assert (Hsub : ∀ x, x ∈ most_common 20 (count_all names) →
                      x ∈ count_all names).
  { intros x Hx. unfold most_common in Hx.
    apply subseteq_take in Hx. by rewrite sorted_desc_perm in Hx. }
  split; [|split; [|split; [|split; [|split; [|split]]]]].
  - unfold most_common. rewrite length_take. lia.
  - unfold most_common. rewrite fmap_take.
    eapply sublist_NoDup; [|apply sublist_take].
    rewrite sorted_desc_perm, count_all_keys.
    apply NoDup_first_seen.
  - intros s n Hs. apply Hsub, Hin in Hs as (Hne & Hs & ->).
    repeat split; [done|]. by apply occurrences_pos.
  - intros i j x y Hij Hi Hj.
    eapply (StronglySorted_lookup _ i j x y); [|done|done|done].
    unfold most_common. pose proof (sorted_desc_sorted (count_all names)) as Hs.
    rewrite <- (take_drop 20 (sorted_desc (count_all names))) in Hs.
    by apply StronglySorted_app_1_l in Hs.
  - intros s n s' Hs Hne Hlt.
    destruct (decide ((s', occurrences s' (entry_names checks))
                      ∈ most_common 20 (count_all names))) as [Hk|Hk].
    { by apply (list_elem_of_fmap_2 fst) in Hk. }
    exfalso.
    assert (Hs' : (s', occurrences s' (entry_names checks))
                  ∈ count_all names).
    { apply Hin. repeat split; [done|]. apply occurrences_pos. lia. }
    pose proof (most_common_keeps_top _ _ _ _ Hs Hs' Hk) as Hb.
    unfold not_beaten in Hb. cbn in Hb. lia.
  - intros n. rewrite <- (sorted_desc_stable (count_all names) n).
    unfold most_common.
    exists (filter (λ y, y.2 = n) (drop 20 (sorted_desc (count_all names)))).
    by rewrite <- filter_app, take_drop.
  - intros Hlen s Hne Hs. unfold most_common.
    rewrite take_ge.
    + rewrite sorted_desc_perm. by apply Hin.
    + rewrite sorted_desc_perm, count_all_spec, length_fmap.
      done.
Qed.

Lemma count_all_items_top_20_witness :
  ∃ top, _count_all_items mug_thrice = Some top ∧ ("mug", 3) ∈ top.
Proof.
  exists [("mug", 3)]. split; [reflexivity|].
  apply (proj2 (proj2 (proj2 (proj2 (proj2 (proj2
           (proj2 (count_all_items_top_20 mug_thrice) [("mug", 3)]
              eq_refl)))))));
    [vm_compute; lia|done|].
  apply (bool_decide_unpack _). vm_compute. exact I.
Defined.

End MemoryStatsProofs.

(** ** Memory engine: weekday, day-part and hour statistics *)

Module MemoryTalliesProofs.
Import Datetime PyCounter Memory MemoryStats PyCounterProofs MemoryProofs.
Local Open Scope nat_scope.

Lemma occurrences_singleton (k d : string) :
  occurrences k [d] = if decide (d = k) then 1 else 0.
Proof. rewrite occurrences_cons. cbn. case_decide; lia. Qed.

(** One more check of status [st] on key [d]. *)
Lemma tally_of_snoc (k d : string) (st : option string)
    (all so na : list string) :
  tally_of k (all ++ [d])
    (so ++ if bool_decide (st = Some "sorted") then [d] else [])
    (na ++ if bool_decide (st = Some "needs_attention") then [d] else [])
  = if decide (k = d) then tally_bump st (tally_of k all so na)
    else tally_of k all so na.
Proof.
  unfold tally_of, tally_bump. cbn [t_sorted t_needs_attention t_total].
  rewrite !occurrences_app, occurrences_singleton.
  destruct (decide (k = d)) as [->|Hne].
  - rewrite decide_True by done.
    destruct (decide (st = Some "sorted")) as [->|Hs].
    + rewrite bool_decide_true by done.
      rewrite (bool_decide_false (Some "sorted" = Some "needs_attention")) by done.
      rewrite occurrences_singleton, decide_True by done.
      cbn. f_equal; lia.
    + rewrite (bool_decide_false _ Hs).
      destruct (bool_decide (st = Some "needs_attention"));
        rewrite ?occurrences_singleton, ?decide_True by done; cbn; f_equal; lia.
  - rewrite decide_False by done.
    destruct (bool_decide (st = Some "sorted")),
      (bool_decide (st = Some "needs_attention"));
      rewrite ?occurrences_singleton, ?decide_False by done; cbn; f_equal; lia.
Qed.

Lemma bump_tally (g : string → tally) (l : list string) (d : string)
    (st : option string) :
  NoDup l →
  bump d st ((λ k, (k, g k)) <$> l)
  = if decide (d ∈ l)
    then (λ k, (k, if decide (k = d) then tally_bump st (g k) else g k)) <$> l
    else ((λ k, (k, g k)) <$> l) ++ [(d, tally_bump st (mk_tally 0 0 0))].
Proof.
  induction l as [|y l IH]; intros Hnd; [done|].
  apply NoDup_cons in Hnd as [Hy Hnd]. cbn [fmap list_fmap bump].
  destruct (decide (d = y)) as [->|Hne].
  - rewrite (decide_True (P := y ∈ y :: l)) by left.
    cbn [fmap list_fmap]. rewrite (decide_True (P := y = y)) by done.
    f_equal. apply Forall_fmap_ext_1, Forall_forall. intros z Hz.
    rewrite decide_False; [done|]. by intros ->.
  - rewrite (IH Hnd). destruct (decide (d ∈ l)) as [Hin|Hnin].
    + rewrite (decide_True (P := d ∈ y :: l)) by (by right).
      cbn [fmap list_fmap]. by rewrite (decide_False (P := y = d)).
    + by rewrite (decide_False (P := d ∈ y :: l))
        by (rewrite elem_of_cons; intuition).
Qed.

Lemma days_snoc (checks : list check) (c : check) (wanted : string) :
  days_all (checks ++ [c])
  = days_all checks ++ match timestamp c with
                       | Some dt => [strftime_A dt] | None => [] end
  ∧ days_with wanted (checks ++ [c])
    = days_with wanted checks
      ++ match timestamp c with
         | Some dt => if bool_decide (status c = Some wanted)
                      then [strftime_A dt] else []
         | None => []
         end.
Proof.
  unfold days_all, days_with. rewrite !omap_app. cbn.
  split; f_equal.
  - by destruct (timestamp c).
  - by destruct (bool_decide _), (timestamp c).
Qed.

Lemma day_of_week_stats_eq (checks : list check) :
  _calculate_day_of_week_stats checks
  = (λ d, (d, tally_of d (days_all checks) (days_with "sorted" checks)
                (days_with "needs_attention" checks)))
      <$> first_seen (days_all checks).
Proof.
  induction checks as [|c checks IH] using rev_ind; [done|].
  unfold _calculate_day_of_week_stats in *. rewrite foldl_snoc, IH.
  destruct (days_snoc checks c "sorted") as [Hall Hso].
  destruct (days_snoc checks c "needs_attention") as [_ Hna].
  rewrite Hall, Hso, Hna.
  destruct (timestamp c) as [dt|]; [|by rewrite !app_nil_r].
  rewrite bump_tally by apply NoDup_first_seen.
  rewrite first_seen_snoc.
  destruct (decide (strftime_A dt ∈ first_seen (days_all checks))) as [Hin|Hnin].
  - rewrite decide_True by (by apply elem_of_first_seen).
    apply Forall_fmap_ext_1, Forall_forall. intros z _.
    by rewrite tally_of_snoc.
  - rewrite elem_of_first_seen in Hnin. rewrite decide_False by done.
    rewrite fmap_app. f_equal.
    + apply Forall_fmap_ext_1, Forall_forall. intros z Hz.
      rewrite tally_of_snoc, decide_False; [done|].
      intros ->. by rewrite elem_of_first_seen in Hz.
    + cbn. rewrite tally_of_snoc, decide_True by done.
      do 3 f_equal. unfold tally_of.
      assert (Hsub : ∀ w, strftime_A dt ∉ days_with w checks).
      { intros w Hw. apply Hnin. unfold days_with, days_all in *.
        apply list_elem_of_omap in Hw as (x & Hx & Hfx).
        apply list_elem_of_omap. exists x. split; [done|].
        by case_bool_decide. }
      by rewrite !(proj2 (occurrences_zero _ _)).
Qed.

Lemma days_with_le (d wanted1 wanted2 : string) (checks : list check) :
  wanted1 ≠ wanted2 →
  occurrences d (days_with wanted1 checks)
  + occurrences d (days_with wanted2 checks)
  ≤ occurrences d (days_all checks).
Proof.
  intros Hne. induction checks as [|c checks IH] using rev_ind; [done|].
  destruct (days_snoc checks c wanted1) as [-> ->].
  destruct (days_snoc checks c wanted2) as [_ ->].
  rewrite !occurrences_app.
  destruct (timestamp c) as [dt|]; [|cbn; lia].
  destruct (decide (status c = Some wanted1)) as [Hs|Hs].
  - rewrite (bool_decide_true _ Hs), bool_decide_false by congruence.
    cbn. lia.
  - rewrite (bool_decide_false _ Hs).
    destruct (bool_decide (status c = Some wanted2)); cbn; lia.
Qed.

(** X6. The weekday statistics list each weekday that has a check with
    a readable timestamp once, in order of first appearance, with the
    number of its checks, of its sorted checks and of its checks needing
    attention; so every total is at least 1 and at least the sum of the
    two status counts.  The best day is a weekday of this table whose
    sorted count no other weekday exceeds. *)
Theorem day_of_week_stats_counts (checks : list check) :
  _calculate_day_of_week_stats checks
  = (λ d, (d, tally_of d (days_all checks) (days_with "sorted" checks)
                (days_with "needs_attention" checks)))
      <$> first_seen (days_all checks)
  ∧ (∀ d t, (d, t) ∈ _calculate_day_of_week_stats checks →
            1 ≤ t_total t ∧ t_sorted t + t_needs_attention t ≤ t_total t)
  ∧ (∀ d, _find_best_day checks = Some d →
          ∃ t, (d, t) ∈ _calculate_day_of_week_stats checks
               ∧ 1 ≤ t_sorted t
               ∧ ∀ d' t', (d', t') ∈ _calculate_day_of_week_stats checks →
                          t_sorted t' ≤ t_sorted t).
Proof.
  rewrite day_of_week_stats_eq. split; [done|]. split.
  - intros d t Hin. apply list_elem_of_fmap in Hin as (d' & [= -> ->] & Hd).
    rewrite elem_of_first_seen in Hd. cbn. split.
    + by apply occurrences_pos.
    + by apply days_with_le.
  - intros d Hbest. unfold _find_best_day in Hbest.
    rewrite day_counts_eq in Hbest.
    apply (proj1 (most_common_day_spec _)) in Hbest.
    destruct Hbest as (l1 & l2 & Hfs & Hb & Ha).
    assert (Hd : d ∈ days_with "sorted" checks).
    { apply elem_of_first_seen. rewrite Hfs, elem_of_app, elem_of_cons. auto. }
    assert (Hmax : ∀ d', occurrences d' (days_with "sorted" checks)
                         ≤ occurrences d (days_with "sorted" checks)).
    { intros d'.
      destruct (decide (d' ∈ days_with "sorted" checks)) as [Hd'|Hd'].
      - apply elem_of_first_seen in Hd'.
        rewrite Hfs, elem_of_app, elem_of_cons in Hd'.
        destruct Hd' as [H1|[->|H2]]; [|done|by apply Ha].
        specialize (Hb _ H1). lia.
      - apply occurrences_zero in Hd'. lia. }
    exists (tally_of d (days_all checks) (days_with "sorted" checks)
              (days_with "needs_attention" checks)).
    split; [|split].
    + apply list_elem_of_fmap. exists d. split; [done|].
      apply elem_of_first_seen. unfold days_with, days_all in *.
      apply list_elem_of_omap in Hd as (x & Hx & Hfx).
      apply list_elem_of_omap. exists x. split; [done|].
      by case_bool_decide.
    + cbn. by apply occurrences_pos.
    + intros d' t' Hin.
      apply list_elem_of_fmap in Hin as (d'' & [= -> ->] & _). cbn. apply Hmax.
Qed.

Lemma day_of_week_stats_counts_witness :
  ∃ t, ("Monday", t) ∈ _calculate_day_of_week_stats busy_monday
       ∧ 1 ≤ t_sorted t.
Proof.
  destruct (proj2 (proj2 (day_of_week_stats_counts busy_monday)) "Monday"
              eq_refl) as (t & Hin & Hpos & _).
  by exists t.
Defined.

(** *** Parts of the day *)

Lemma periods_snoc (checks : list check) (c : check) (wanted : string) :
  periods_all (checks ++ [c])
  = periods_all checks ++ match timestamp c with
                          | Some dt => [period_of (hour dt)] | None => [] end
  ∧ periods_with wanted (checks ++ [c])
    = periods_with wanted checks
      ++ match timestamp c with
         | Some dt => if bool_decide (status c = Some wanted)
                      then [period_of (hour dt)] else []
         | None => []
         end.
Proof.
  unfold periods_all, periods_with. rewrite !omap_app. cbn.
  split; f_equal.
  - by destruct (timestamp c).
  - by destruct (bool_decide _), (timestamp c).
Qed.

Lemma bump_period_tally (g : string → tally) (l : list string) (p : string)
    (st : option string) :
  bump_period p st ((λ k, (k, g k)) <$> l)
  = (λ k, (k, if decide (k = p) then tally_bump st (g k) else g k)) <$> l.
Proof.
  unfold bump_period. rewrite <- list_fmap_compose.
  apply Forall_fmap_ext_1, Forall_forall. intros k _. cbn.
  by destruct (decide (k = p)).
Qed.

Lemma time_of_day_stats_eq (checks : list check) :
  _calculate_time_of_day_stats checks
  = (λ p, (p, tally_of p (periods_all checks) (periods_with "sorted" checks)
                (periods_with "needs_attention" checks))) <$> PERIODS.
Proof.
  induction checks as [|c checks IH] using rev_ind; [done|].
  unfold _calculate_time_of_day_stats in *. rewrite foldl_snoc, IH.
  destruct (periods_snoc checks c "sorted") as [Hall Hso].
  destruct (periods_snoc checks c "needs_attention") as [_ Hna].
  rewrite Hall, Hso, Hna.
  destruct (timestamp c) as [dt|]; [|by rewrite !app_nil_r].
  rewrite bump_period_tally.
  apply Forall_fmap_ext_1, Forall_forall. intros z _.
  by rewrite tally_of_snoc.
Qed.

Lemma period_of_cases (h : Z) :
  ((period_of h = "morning" ↔ 6 ≤ h < 12)
   ∧ (period_of h = "afternoon" ↔ 12 ≤ h < 17)
   ∧ (period_of h = "evening" ↔ 17 ≤ h < 21)
   ∧ (period_of h = "night" ↔ h < 6 ∨ 21 ≤ h))%Z
  ∧ period_of h ∈ PERIODS.
Proof.
  unfold period_of, PERIODS.
  destruct (Z.leb_spec 6 h), (Z.ltb_spec h 12), (Z.leb_spec 12 h),
    (Z.ltb_spec h 17), (Z.leb_spec 17 h), (Z.ltb_spec h 21);
    cbn [andb]; try lia;
    (split; [repeat split; intros; try done; try lia
            |rewrite !elem_of_cons; auto 10]).
Qed.

Lemma occurrences_periods (l : list string) :
  Forall (λ p, p ∈ PERIODS) l →
  occurrences "morning" l + occurrences "afternoon" l
  + occurrences "evening" l + occurrences "night" l = length l.
Proof.
  induction 1 as [|p l Hp _ IH]; [done|].
  rewrite !occurrences_cons. cbn [length].
  unfold PERIODS in Hp.
  repeat (apply elem_of_cons in Hp as [->|Hp];
          [repeat (case_decide; try done); lia|]).
  by apply elem_of_nil in Hp.
Qed.

Lemma periods_with_le (p wanted1 wanted2 : string) (checks : list check) :
  wanted1 ≠ wanted2 →
  occurrences p (periods_with wanted1 checks)
  + occurrences p (periods_with wanted2 checks)
  ≤ occurrences p (periods_all checks).
Proof.
  intros Hne. induction checks as [|c checks IH] using rev_ind; [done|].
  destruct (periods_snoc checks c wanted1) as [-> ->].
  destruct (periods_snoc checks c wanted2) as [_ ->].
  rewrite !occurrences_app.
  destruct (timestamp c) as [dt|]; [|cbn; lia].
  destruct (decide (status c = Some wanted1)) as [Hs|Hs].
  - rewrite (bool_decide_true _ Hs), bool_decide_false by congruence.
    cbn. lia.
  - rewrite (bool_decide_false _ Hs).
    destruct (bool_decide (status c = Some wanted2)); cbn; lia.
Qed.

(** X7. The day-part statistics always hold exactly the four periods
    morning (hours 6 to 11), afternoon (12 to 16), evening (17 to 20)
    and night (every other hour), each with the number of checks that
    fall in it, of its sorted ones and of those needing attention.
    Every check with a readable timestamp is counted in exactly one
    period: the four totals add up to the number of such checks. *)
Theorem time_of_day_stats_counts (checks : list check) :
  _calculate_time_of_day_stats checks
  = (λ p, (p, tally_of p (periods_all checks) (periods_with "sorted" checks)
                (periods_with "needs_attention" checks))) <$> PERIODS
  ∧ (∀ h : Z,
       (period_of h = "morning" ↔ 6 ≤ h < 12)%Z
       ∧ (period_of h = "afternoon" ↔ 12 ≤ h < 17)%Z
       ∧ (period_of h = "evening" ↔ 17 ≤ h < 21)%Z
       ∧ (period_of h = "night" ↔ h < 6 ∨ 21 ≤ h)%Z)
  ∧ sum_list ((λ pt, t_total pt.2) <$> _calculate_time_of_day_stats checks)
    = length (omap timestamp checks)
  ∧ (∀ p t, (p, t) ∈ _calculate_time_of_day_stats checks →
            t_sorted t + t_needs_attention t ≤ t_total t).
Proof.
  rewrite time_of_day_stats_eq. split; [done|].
  split; [intros h; apply period_of_cases|]. split.
  - cbn. rewrite Nat.add_0_r, !Nat.add_assoc, occurrences_periods.
    + unfold periods_all. clear.
      induction checks as [|c checks IH]; [done|].
      cbn. destruct (timestamp c); cbn; by rewrite ?IH.
    + apply Forall_forall. intros p Hp. unfold periods_all in Hp.
      apply list_elem_of_omap in Hp as (c & _ & Hc).
      destruct (timestamp c) as [dt|]; [|done].
      injection Hc as <-. apply period_of_cases.
  - intros p t Hin. apply list_elem_of_fmap in Hin as (p' & [= -> ->] & _).
    cbn. by apply periods_with_le.
Qed.

(** *** Usual sorted time *)

Lemma hour_counts_eq (checks : list check) :
  hour_counts checks = count_all (sorted_hours checks).
Proof.
  unfold hour_counts, count_all, sorted_hours.
  generalize (@nil (Z * nat)) as counter.
  induction checks as [|c checks IH]; intros counter; [done|].
  cbn [foldl omap list_omap]. rewrite IH.
  destruct (bool_decide (status c = Some "sorted")); [|done].
  by destruct (timestamp c).
Qed.

Lemma hour_label_inj (h h' : Z) :
  (0 ≤ h < 24)%Z → (0 ≤ h' < 24)%Z → hour_label h = hour_label h' → h = h'.
Proof.
  intros Hh Hh'.
  rewrite <- (Z2Nat.id h), <- (Z2Nat.id h') by lia.
  assert (Hn : Z.to_nat h < 24) by lia.
  assert (Hn' : Z.to_nat h' < 24) by lia.
  revert Hn Hn'. generalize (Z.to_nat h) (Z.to_nat h'). clear.
  intros n n' Hn Hn'.
  do 24 (destruct n as [|n]; [
    do 24 (destruct n' as [|n']; [vm_compute; by intros [=]|]); lia|]).
  lia.
Qed.

(** X8. The usual sorted time is [None] exactly when no sorted check has
    a readable timestamp; otherwise it is the 12-hour label of the hour
    with the most sorted checks, the hour seen first winning a tie.
    Over the 24 hours of a day the labels are pairwise different, so
    the label tells the hour. *)
Theorem find_usual_sorted_time_spec (checks : list check) :
  (_find_usual_sorted_time checks = None ↔ sorted_hours checks = [])
  ∧ (∀ label, _find_usual_sorted_time checks = Some label
              ↔ ∃ h, first_most_frequent h (sorted_hours checks)
                     ∧ label = hour_label h)
  ∧ (∀ h h' : Z, (0 ≤ h < 24)%Z → (0 ≤ h' < 24)%Z →
                 hour_label h = hour_label h' → h = h')
  ∧ hour_label 0 = "midnight" ∧ hour_label 12 = "noon"
  ∧ hour_label 9 = "9:00 AM" ∧ hour_label 13 = "1:00 PM".
Proof.
  split; [|split; [|split; [apply hour_label_inj|by vm_compute]]].
  - unfold _find_usual_sorted_time. rewrite hour_counts_eq.
    destruct (sorted_hours checks) as [|h hs] eqn:Hs; [done|].
    split; [|done]. intros Hnone. exfalso.
    assert (Hc : count_all (h :: hs) ≠ []).
    { rewrite count_all_spec. done. }
    destruct (most_common_1_spec _ Hc) as ([k n] & _ & _ & Hr & _).
    destruct (count_all (h :: hs)); [done|]. by rewrite Hr in Hnone.
  - intros label. unfold _find_usual_sorted_time. rewrite hour_counts_eq.
    destruct (decide (sorted_hours checks = [])) as [Hnil|Hne].
    { rewrite Hnil. split; [done|].
      intros (h & (l1 & l2 & Hfs & _) & _). by destruct l1. }
    assert (Hc : count_all (sorted_hours checks) ≠ []).
    { rewrite count_all_spec. intros Hm. apply fmap_nil_inv in Hm.
      destruct (sorted_hours checks); [done|discriminate]. }
    destruct (most_common_1_spec _ Hc) as ([k n] & _ & _ & Hr & _).
    pose proof (proj1 (most_common_1_count_all _ k n) Hr) as [Hk _].
    destruct (count_all (sorted_hours checks)); [done|]. rewrite Hr.
    split.
    + intros [= <-]. eauto.
    + intros (h & Hh & ->). f_equal. f_equal.
      by eapply first_most_frequent_unique.
Qed.

End MemoryTalliesProofs.

(* ===================================================================== *)
(** ** Memory: prompt context and recurring flags                         *)
(* ===================================================================== *)

Module MemoryContextProofs.
Import Datetime PyCounter Memory MemoryStats MemoryContext Json Enrich Samples.
Import PyCounterProofs MemoryProofs.

Lemma append_nil_r (s : string) : s +:+ "" = s.
Proof.
  induction s as [|c s IH]; [done|].
  change (String c (s +:+ "") = String c s). by f_equal.
Qed.

Lemma append_assoc (s1 s2 s3 : string) :
  (s1 +:+ s2) +:+ s3 = s1 +:+ s2 +:+ s3.
Proof.
  induction s1 as [|c s1 IH]; [done|].
  change (String c ((s1 +:+ s2) +:+ s3) = String c (s1 +:+ s2 +:+ s3)).
  by f_equal.
Qed.

Lemma concat_cons_prefix (sep x : string) (xs : list string) :
  ∃ rest, String.concat sep (x :: xs) = x +:+ rest.
Proof.
  destruct xs as [|y ys].
  - exists "". by rewrite append_nil_r.
  - by exists (sep +:+ String.concat sep (y :: ys)).
Qed.

Lemma context_lines_cons (memory : SpotMemory.t) :
  ∃ rest, context_lines memory
          = ("Total checks: " +:+ pretty (SpotMemory.total_checks memory)) :: rest.
Proof. unfold context_lines. cbn [app]. by eexists. Qed.

Lemma build_memory_context_cases (memory : SpotMemory.t) :
  (SpotMemory.total_checks memory = 0
   ∧ build_memory_context memory = "First check - no history yet.")
  ∨ (SpotMemory.total_checks memory ≠ 0
     ∧ ∃ rest, build_memory_context memory
               = "Total checks: "
                 +:+ pretty (SpotMemory.total_checks memory) +:+ rest).
Proof.
  unfold build_memory_context.
  destruct (Z.eqb_spec (SpotMemory.total_checks memory) 0) as [H0|H0];
    [by left|right].
  split; [done|].
  destruct (context_lines_cons memory) as [rest ->].
  destruct (concat_cons_prefix newline
              ("Total checks: " +:+ pretty (SpotMemory.total_checks memory))
              rest) as [r ->].
  exists r. by rewrite append_assoc.
Qed.

(** [calculate_memory] fails only on a history that is not empty: on
    the [AttributeError] of an item that is not a string, or the
    [KeyError] of a last check without status. *)
Lemma calculate_memory_None
    (insights : list check → list (string * nat) → list (string * tally)
                → list (string * tally) → list string)
    (spot_id : Z) (checks : list check) (spot : option Spot.t) :
  calculate_memory insights spot_id checks spot = None
  ↔ checks ≠ []
    ∧ (unreadable checks ∨ ∃ c, last checks = Some c ∧ status c = None).
Proof.
  unfold calculate_memory, _count_all_items.
  destruct (count_items_eq checks) as [Hnone _].
  destruct (last checks) as [c|] eqn:Hl.
  - assert (checks ≠ []) by (by intros ->).
    unfold _count_recurring_items.
    destruct (count_items checks) as [counter|] eqn:Hc; cbn.
    + destruct (status c) eqn:Hs; cbn.
      * split; [done|]. intros [_ [Hu|(c' & [= <-] & ?)]]; [|congruence].
        apply Hnone in Hu. done.
      * split; [|done]. intros _. split; [done|]. right. by exists c.
    + split; [|done]. intros _. split; [done|]. left. by apply Hnone.
  - apply last_None in Hl as ->. split; [done|]. by intros [? _].
Qed.

(** X9. [build_memory_context] answers "First check - no history yet."
    exactly for a memory of zero checks; otherwise the text begins with
    the line "Total checks: N", and the fallback "No patterns detected
    yet." is never returned.  For a memory built by [calculate_memory]
    from a history, N is the length of the history, the first-check text
    appears exactly for the empty history, the streaks are those of the
    spot (0 without one), the status is that of the last check and the
    recurring items are those of [_count_recurring_items]. *)
Theorem build_memory_context_total_checks
    (insights : list check → list (string * nat) → list (string * tally)
                → list (string * tally) → list string)
    (spot_id : Z) (checks : list check) (spot : option Spot.t)
    (memory : SpotMemory.t) :
  calculate_memory insights spot_id checks spot = Some memory →
  SpotMemory.total_checks memory = Z.of_nat (length checks)
  ∧ (build_memory_context memory = "First check - no history yet."
     ↔ checks = [])
  ∧ (checks ≠ [] →
     ∃ rest, build_memory_context memory
             = "Total checks: " +:+ pretty (Z.of_nat (length checks))
               +:+ rest)
  ∧ build_memory_context memory ≠ "No patterns detected yet."
  ∧ SpotMemory.current_streak memory
    = from_option Spot.current_streak 0 spot
  ∧ SpotMemory.longest_streak memory
    = from_option Spot.longest_streak 0 spot
  ∧ SpotMemory.last_check_status memory = (last checks ≫= status)
  ∧ _count_recurring_items checks
    = Some (SpotPatterns.recurring_items (SpotMemory.patterns memory)).
Proof.
  intros Hm.
  assert (Hfields :
    SpotMemory.total_checks memory = Z.of_nat (length checks)
    ∧ SpotMemory.current_streak memory
      = from_option Spot.current_streak 0 spot
    ∧ SpotMemory.longest_streak memory
      = from_option Spot.longest_streak 0 spot
    ∧ SpotMemory.last_check_status memory = (last checks ≫= status)
    ∧ _count_recurring_items checks
      = Some (SpotPatterns.recurring_items (SpotMemory.patterns memory))).
  { unfold calculate_memory in Hm.
    destruct (last checks) as [c|] eqn:Hl.
    - cbn [mbind option_bind].
      destruct (_count_all_items checks); [|done]. cbn in Hm.
      destruct (_count_recurring_items checks); [|done]. cbn in Hm.
      destruct (status c); [|done]. cbn in Hm.
      injection Hm as <-. by destruct spot.
    - injection Hm as <-. apply last_None in Hl as ->. by destruct spot. }
  destruct Hfields as (Htot & Hcur & Hlong & Hlast & Hrec).
  assert (Hnil : SpotMemory.total_checks memory = 0 ↔ checks = []).
  { rewrite Htot. destruct checks; cbn [length]; split; (done || lia). }
  split; [done|].
  destruct (build_memory_context_cases memory) as [[H0 ->]|[H0 [rest Hr]]].
  - split; [by rewrite <- Hnil|].
    split; [intros Hne; by apply Hnil in H0|]. done.
  - rewrite Hr, <- Htot.
    split; [split; [done|by intros ?%Hnil]|].
    split; [by exists rest|]. done.
Qed.

Lemma build_memory_context_total_checks_witness :
  ∃ memory rest,
    calculate_memory no_insights 7 mug_thrice None = Some memory
    ∧ build_memory_context memory
      = "Total checks: " +:+ pretty (Z.of_nat (length mug_thrice)) +:+ rest.
Proof.
  destruct (calculate_memory no_insights 7 mug_thrice None) as [memory|]
    eqn:Hm; [|vm_compute in Hm; discriminate Hm].
  destruct (proj1 (proj2 (proj2
              (build_memory_context_total_checks no_insights 7 mug_thrice
                 None memory Hm)))) as [rest Hr]; [discriminate|].
  by exists memory, rest.
Defined.

(** *** enrich_items_with_recurring *)

Lemma dict_lookup_Some (k : string) (d : list (string * nat)) (n : nat) :
  dict_lookup k d = Some n → (k, n) ∈ d.
Proof.
  unfold dict_lookup. destruct (List.find _ d) as [[k' n']|] eqn:Hf; [|done].
  intros [= <-]. apply find_some in Hf as [Hin Hk].
  apply bool_decide_eq_true in Hk. cbn in Hk. subst.
  by apply list_elem_of_In.
Qed.

Lemma dict_lookup_None (k : string) (d : list (string * nat)) :
  dict_lookup k d = None ↔ k ∉ d.*1.
Proof.
  unfold dict_lookup. induction d as [|[k' n'] d IH]; cbn.
  - split; [intros _; apply not_elem_of_nil|done].
  - rewrite not_elem_of_cons. case_bool_decide as Hk; cbn in Hk.
    + subst. split; [done|]. by intros [? _].
    + rewrite IH. split; [by intros ?; split; [congruence|]|by intros [_ ?]].
Qed.

Lemma NoDup_fst_functional (d : list (string * nat)) (k : string) (n m : nat) :
  NoDup d.*1 → (k, n) ∈ d → (k, m) ∈ d → n = m.
Proof.
  induction d as [|[k' n'] d IH]; intros Hnd Hn Hm;
    [by apply elem_of_nil in Hn|].
  cbn in Hnd. apply NoDup_cons in Hnd as [Hk Hnd].
  assert (Htl : ∀ x, (k', x) ∈ d → False).
  { intros x Hx. apply Hk, list_elem_of_fmap. by exists (k', x). }
  apply elem_of_cons in Hn as [Hn|Hn];
    apply elem_of_cons in Hm as [Hm|Hm]; simplify_eq;
    try done; try (exfalso; by eauto).
  by apply IH.
Qed.

Lemma dict_lookup_NoDup (k : string) (d : list (string * nat)) (n : nat) :
  NoDup d.*1 → (k, n) ∈ d → dict_lookup k d = Some n.
Proof.
  intros Hnd Hin.
  destruct (dict_lookup k d) as [m|] eqn:Hl.
  - apply dict_lookup_Some in Hl.
    f_equal. by eapply NoDup_fst_functional.
  - apply dict_lookup_None in Hl. destruct Hl.
    apply list_elem_of_fmap. by exists (k, n).
Qed.

Lemma enrich_item_flags (recurring : list (string * nat)) (name : string)
    (d : gmap string value) :
  let o := match dict_lookup name recurring with
           | Some n => <["recurrence_count" := Int (Z.of_nat n)]>
                         (<["recurring" := Bool true]> d)
           | None => <["recurring" := Bool false]> d
           end in
  o !! "recurring" = Some (Bool (bool_decide (name ∈ recurring.*1)))
  ∧ (∀ n, dict_lookup name recurring = Some n →
          o !! "recurrence_count" = Some (Int (Z.of_nat n)))
  ∧ (name ∉ recurring.*1 → o !! "recurrence_count" = d !! "recurrence_count")
  ∧ ∀ k, k ≠ "recurring" → k ≠ "recurrence_count" → o !! k = d !! k.
Proof.
  destruct (dict_lookup name recurring) as [n|] eqn:Hl; cbn zeta.
  - assert (name ∈ recurring.*1).
    { apply dict_lookup_Some in Hl. apply list_elem_of_fmap.
      by exists (name, n). }
    rewrite bool_decide_eq_true_2 by done.
    split; [by rewrite lookup_insert_ne, lookup_insert_eq|].
    split; [intros ? [= <-]; by rewrite lookup_insert_eq|].
    split; [done|].
    intros k Hk Hk'. by do 2 (rewrite lookup_insert_ne by done).
  - apply dict_lookup_None in Hl.
    rewrite bool_decide_eq_false_2 by done.
    split; [by rewrite lookup_insert_eq|].
    split; [done|].
    split; [intros _; by rewrite lookup_insert_ne|].
    intros k Hk _. by rewrite lookup_insert_ne.
Qed.

Lemma enrich_item_spec (recurring : list (string * nat)) (it : item) :
  match enrich_item recurring it with
  | None => item_name (entry_of it) = None
  | Some o =>
      ∃ name, item_name (entry_of it) = Some name
        ∧ o !! "recurring"
          = Some (Bool (bool_decide (name ∈ recurring.*1)))
        ∧ (∀ n, dict_lookup name recurring = Some n →
                o !! "recurrence_count" = Some (Int (Z.of_nat n)))
        ∧ match it with
          | Obj d =>
              ∀ k, k ≠ "recurring" →
                   k ≠ "recurrence_count" ∨ name ∉ recurring.*1 →
                   o !! k = d !! k
          | Other text =>
              o !! "item" = Some (Str text)
              ∧ (name ∉ recurring.*1 → o !! "recurrence_count" = None)
              ∧ ∀ k, is_Some (o !! k) →
                     k ∈ ["item"; "recurring"; "recurrence_count"]
          end
  end.
Proof.
  destruct it as [d|text]; cbn [enrich_item entry_of].
  - destruct (d !! "item") as [[| | | |s| |]|] eqn:Hd; cbn [default];
      try done.
    + exists (Unicode.strip (Unicode.lower s)). split; [done|].
      destruct (enrich_item_flags recurring
                  (Unicode.strip (Unicode.lower s)) d)
        as (Hrec & Hcnt & Hno & Hrest).
      split; [done|]. split; [done|].
      intros k Hk [Hk'|Hk']; [by apply Hrest|].
      destruct (decide (k = "recurrence_count")) as [->|];
        [by apply Hno|by apply Hrest].
    + exists (Unicode.strip (Unicode.lower "")). split; [done|].
      destruct (enrich_item_flags recurring
                  (Unicode.strip (Unicode.lower "")) d)
        as (Hrec & Hcnt & Hno & Hrest).
      split; [done|]. split; [done|].
      intros k Hk [Hk'|Hk']; [by apply Hrest|].
      destruct (decide (k = "recurrence_count")) as [->|];
        [by apply Hno|by apply Hrest].
  - exists (Unicode.strip (Unicode.lower text)). cbn [item_name].
    split; [done|].
    destruct (enrich_item_flags recurring
                (Unicode.strip (Unicode.lower text))
                (<["item" := Str text]> ∅))
      as (Hrec & Hcnt & Hno & Hrest).
    split; [done|]. split; [done|].
    split; [rewrite Hrest by done; by rewrite lookup_insert_eq|].
    split; [intros Hn; rewrite Hno by done; by rewrite lookup_insert_ne|].
    intros k [x Hx].
    destruct (decide (k = "recurrence_count")) as [->|];
      [rewrite !elem_of_cons; auto|].
    destruct (decide (k = "recurring")) as [->|];
      [rewrite !elem_of_cons; auto|].
    rewrite Hrest in Hx by done.
    destruct (decide (k = "item")) as [->|];
      [rewrite !elem_of_cons; auto|rewrite lookup_insert_ne in Hx by done].
    by rewrite lookup_empty in Hx.
Qed.

(** X10. [enrich_items_with_recurring] fails only on a dict whose
    ["item"] is not a string; otherwise it returns one dict per item, in
    order, whose ["recurring"] flag says whether the item's normalised
    name is a key of the recurring mapping, with the mapping's count
    under ["recurrence_count"] when it is.  A dict keeps its other keys;
    a bare value becomes a dict of ["item"] and these keys only.  With
    the mapping of [_count_recurring_items], the flag is set exactly for
    non-empty names seen at least 3 times. *)
Theorem enrich_items_with_recurring_flags
    (items : list item) (recurring_items : list (string * nat)) :
  (enrich_items_with_recurring items recurring_items = None
   ↔ ∃ it, it ∈ items ∧ item_name (entry_of it) = None)
  ∧ ∀ out, enrich_items_with_recurring items recurring_items = Some out →
      length out = length items
      ∧ ∀ (i : nat) it o, items !! i = Some it → out !! i = Some o →
          ∃ name, item_name (entry_of it) = Some name
            ∧ o !! "recurring"
              = Some (Bool (bool_decide (name ∈ recurring_items.*1)))
            ∧ (∀ n, NoDup recurring_items.*1 →
                    (name, n) ∈ recurring_items →
                    o !! "recurrence_count" = Some (Int (Z.of_nat n)))
            ∧ (∀ checks,
                 _count_recurring_items checks = Some recurring_items →
                 (o !! "recurring" = Some (Bool true)
                  ↔ name ≠ ""
                    ∧ 3 ≤ occurrences name (entry_names checks))%nat
                 ∧ (o !! "recurring" = Some (Bool true) →
                    o !! "recurrence_count"
                    = Some (Int (Z.of_nat
                         (occurrences name (entry_names checks))))))
            ∧ match it with
              | Obj d =>
                  ∀ k, k ≠ "recurring" →
                       k ≠ "recurrence_count" ∨ name ∉ recurring_items.*1 →
                       o !! k = d !! k
              | Other text =>
                  o !! "item" = Some (Str text)
                  ∧ (name ∉ recurring_items.*1 →
                     o !! "recurrence_count" = None)
                  ∧ ∀ k, is_Some (o !! k) →
                         k ∈ ["item"; "recurring"; "recurrence_count"]
              end.
Proof.
  unfold enrich_items_with_recurring. split.
  - rewrite mapM_None, Exists_exists.
    split; intros (it & Hin & H); exists it; (split; [done|]).
    + pose proof (enrich_item_spec recurring_items it) as Hs.
      by rewrite H in Hs.
    + pose proof (enrich_item_spec recurring_items it) as Hs.
      destruct (enrich_item recurring_items it); [|done].
      destruct Hs as (e & He & _). congruence.
  - intros out Hout. split; [symmetry; by eapply length_mapM|].
    intros i it o Hi Ho.
    apply mapM_Some in Hout.
    pose proof (Forall2_lookup_lr _ _ _ _ _ _ Hout Hi Ho) as Hio.
    pose proof (enrich_item_spec recurring_items it) as Hs.
    rewrite Hio in Hs. destruct Hs as (name & He & Hrec & Hcnt & Hrest).
    exists name. split; [done|]. split; [done|].
    split; [intros n Hnd Hin; apply Hcnt; by apply dict_lookup_NoDup|].
    split; [|done].
    intros checks Hchecks.
    assert (Hiff : name ∈ recurring_items.*1
              ↔ name ≠ ""
                ∧ (3 ≤ occurrences name (entry_names checks))%nat).
    { rewrite list_elem_of_fmap. split.
      - intros ([k n] & -> & Hin). cbn [fst].
        apply (elem_of_count_recurring_items _ _ _ _ Hchecks) in Hin
          as (? & -> & ?). done.
      - intros [Hne H3]. eexists (_, _). split; [reflexivity|].
        apply (elem_of_count_recurring_items _ _ _ _ Hchecks). by eauto. }
    split.
    + rewrite Hrec, <- Hiff. split.
      * intros [= Hb]. by apply bool_decide_eq_true in Hb.
      * intros Hin. by rewrite bool_decide_eq_true_2.
    + rewrite Hrec. intros [= Hb]. apply bool_decide_eq_true in Hb.
      apply Hiff in Hb as [Hne H3].
      apply Hcnt, dict_lookup_NoDup;
        [by apply (NoDup_count_recurring_items checks)|].
      apply (elem_of_count_recurring_items _ _ _ _ Hchecks). by eauto.
Qed.

Lemma enrich_items_with_recurring_flags_witness :
  ∃ out o, enrich_items_with_recurring two_items [("mug", 3%nat)] = Some out
       ∧ out !! 0%nat = Some o
       ∧ o !! "recurring" = Some (Bool true)
       ∧ o !! "recurrence_count" = Some (Int 3)
       ∧ o !! "priority" = Some (Str "high").
Proof.
  assert (Hsome : bool_decide
            (is_Some (enrich_items_with_recurring two_items
                        [("mug", 3%nat)])) = true)
    by (vm_compute; reflexivity).
  apply bool_decide_eq_true in Hsome as [out Hout].
  destruct (out !! 0%nat) as [o|] eqn:Ho;
    [|apply lookup_ge_None in Ho; apply length_mapM in Hout;
      cbn in Hout; lia].
  exists out, o. split; [done|]. split; [done|].
  destruct (proj2 (enrich_items_with_recurring_flags two_items
                     [("mug", 3%nat)]) out Hout) as [_ H].
  destruct (H 0%nat _ o eq_refl Ho)
    as (name & He & Hrec & Hcnt & Hchk & Hrest).
  assert (name = "mug") as -> by (vm_compute in He; congruence).
  destruct (Hchk mug_thrice eq_refl) as [Hflag Hc].
  assert (Hr : o !! "recurring" = Some (Bool true)).
  { apply Hflag. vm_compute. split; [done|lia]. }
  split; [done|]. split; [by rewrite (Hc Hr)|].
  rewrite Hrest; [done|done|by left].
Defined.

End MemoryContextProofs.

(* ===================================================================== *)
(** ** Database: gamification state                                      *)
(* ===================================================================== *)

Module GamificationDbProofs.
Import Gamification GamificationDb.
Import GamificationProofs.

Implicit Types (t : list row) (r : row).

(** Reduces the projections of a row that is written out. *)
Ltac row_simpl :=
  cbn [id xp_total GamificationDb.level achievements_json
       daily_challenge_completed last_reset_session spots_reset_in_session
       updated_at] in *.

Lemma head_update_xp amount now t :
  head (update_xp amount now t)
  = (λ r, mk_row (id r) (xp_total r + amount) (GamificationDb.level r)
            (achievements_json r) (daily_challenge_completed r)
            (last_reset_session r) (spots_reset_in_session r) now)
    <$> head t.
Proof. by destruct t. Qed.

Lemma update_xp_compose a b n1 n2 t :
  update_xp b n2 (update_xp a n1 t) = update_xp (a + b) n2 t.
Proof.
  unfold update_xp. rewrite <- list_fmap_compose.
  apply list_fmap_ext. intros i r _. cbn. f_equal. lia.
Qed.

(** The decoded achievements of a row. *)
Lemma state_of_row t r :
  head t = Some r →
  ∃ info, calculate_level (xp_total r) = Some info
    ∧ get_gamification_state t
      = Some (mk_state (xp_total r) (li_level info) (li_name info)
                (li_emoji info) (xp_to_next_level info)
                (xp_progress_percent info)
                match achievements_json r with
                | Some (ListOf l) => l
                | _ => []
                end
                (Some (daily_challenge_completed r))
                (Some (default 0 (spots_reset_in_session r)))).
Proof.
  intros Hh. destruct (calculate_level_total (xp_total r)) as [info Hi].
  exists info. split; [done|].
  unfold get_gamification_state. rewrite Hh. cbv beta iota zeta.
  rewrite Hi. cbn [mbind option_bind].
  by destruct (achievements_json r) as [[|l]|].
Qed.

(** X11. With the gamification row in place, [add_xp] adds the amount to
    the stored XP and returns the level data of the new total; the
    unlocked achievements are as before, two additions store what one
    addition of the sum stores, the stored [level] column is never
    written, and adding a non-negative amount never lowers the level
    reported. *)
Theorem add_xp_accumulates t r (a b : Z) (n1 n2 : string) :
  head t = Some r →
  ∃ st0 st info,
    get_gamification_state t = Some st0
    ∧ (add_xp a n1 t).1 = Some st
    ∧ calculate_level (xp_total r + a) = Some info
    ∧ s_xp_total st = s_xp_total st0 + a
    ∧ s_xp_total st0 = xp_total r
    ∧ s_level st = li_level info
    ∧ s_level_name st = li_name info
    ∧ s_level_emoji st = li_emoji info
    ∧ s_xp_to_next_level st = xp_to_next_level info
    ∧ s_xp_progress_percent st = xp_progress_percent info
    ∧ 0 ≤ s_xp_to_next_level st
    ∧ achievements_unlocked st = achievements_unlocked st0
    ∧ (add_xp b n2 (add_xp a n1 t).2).2 = (add_xp (a + b) n2 t).2
    ∧ GamificationDb.level <$> (add_xp a n1 t).2 = GamificationDb.level <$> t
    ∧ (0 ≤ a → s_level st0 ≤ s_level st).
Proof.
  intros Hh.
  destruct (state_of_row t r Hh) as (info0 & Hi0 & Hs0).
  assert (Hh' : head (update_xp a n1 t)
                = Some (mk_row (id r) (xp_total r + a) (GamificationDb.level r)
                          (achievements_json r) (daily_challenge_completed r)
                          (last_reset_session r) (spots_reset_in_session r)
                          n1)).
  { by rewrite head_update_xp, Hh. }
  destruct (state_of_row _ _ Hh') as (info & Hi & Hs). row_simpl.
  eexists _, _, info. split; [exact Hs0|].
  unfold add_xp. cbn [fst snd]. split; [exact Hs|].
  split; [done|].
  cbn [s_xp_total s_level s_level_name s_level_emoji s_xp_to_next_level
       s_xp_progress_percent achievements_unlocked].
  repeat (split; [done|]).
  split; [by eapply xp_to_next_level_nonneg|].
  split; [done|].
  split; [apply update_xp_compose|].
  split.
  - unfold update_xp. rewrite <- list_fmap_compose.
    by apply list_fmap_ext.
  - intros Ha. eapply calculate_level_mono; [|exact Hi0|exact Hi]. lia.
Qed.

Lemma add_xp_accumulates_witness :
  ∃ st, (add_xp 250 "2024-01-01T10:00:00" fresh_table).1 = Some st
        ∧ s_xp_total st = 250 ∧ s_level st = 2.
Proof.
  destruct (add_xp_accumulates fresh_table
              (mk_row 1 0 1 (Some (ListOf [])) None None (Some 0)
                 "2024-01-01T09:00:00")
              250 0 "2024-01-01T10:00:00" "2024-01-01T10:00:00" eq_refl)
    as (st0 & st & info & H0 & H1 & Hi & Hxp & Hxp0 & Hl & _).
  exists st. split; [done|].
  vm_compute in Hi. injection Hi as <-.
  rewrite Hxp, Hxp0, Hl. done.
Defined.

(** Without a row the default reported is that of 0 XP, except for the
    emoji text. *)
Lemma get_gamification_state_default :
  ∃ st info,
    get_gamification_state [] = Some st ∧ calculate_level 0 = Some info
    ∧ s_xp_total st = 0 ∧ s_level st = li_level info
    ∧ s_level_name st = li_name info
    ∧ s_xp_to_next_level st = xp_to_next_level info
    ∧ (s_xp_progress_percent st == xp_progress_percent info)%Q
    ∧ s_level_emoji st ≠ li_emoji info.
Proof.
  eexists _, _. split; [reflexivity|]. split; [reflexivity|].
  repeat (split; [reflexivity|]). intros H. vm_compute in H. discriminate H.
Qed.

Lemma head_update_achievements l now t :
  head (update_achievements l now t)
  = (λ r, mk_row (id r) (xp_total r) (GamificationDb.level r)
            (Some (ListOf l)) (daily_challenge_completed r)
            (last_reset_session r) (spots_reset_in_session r) now)
    <$> head t.
Proof. by destruct t. Qed.

(** X12. [unlock_achievement] answers True exactly when the id is not
    yet in the unlocked list; afterwards the id is in the list, appended
    after the earlier ones when new, the list has no duplicate if it had
    none, XP and level are untouched, and unlocking the same id again
    answers False and changes nothing.  Without a gamification row it
    answers True and stores nothing. *)
Theorem unlock_achievement_once (achievement_id now now' : string) :
  unlock_achievement achievement_id now [] = Some (true, [])
  ∧ ∀ t r, head t = Some r →
      ∃ st b t' st',
        get_gamification_state t = Some st
        ∧ unlock_achievement achievement_id now t = Some (b, t')
        ∧ get_gamification_state t' = Some st'
        ∧ b = negb (bool_decide (achievement_id ∈ achievements_unlocked st))
        ∧ achievements_unlocked st'
          = (if b then achievements_unlocked st ++ [achievement_id]
             else achievements_unlocked st)
        ∧ achievement_id ∈ achievements_unlocked st'
        ∧ (NoDup (achievements_unlocked st)
           → NoDup (achievements_unlocked st'))
        ∧ s_xp_total st' = s_xp_total st ∧ s_level st' = s_level st
        ∧ (b = false → t' = t)
        ∧ unlock_achievement achievement_id now' t' = Some (false, t').
Proof.
  split; [done|]. intros t r Hh.
  destruct (state_of_row t r Hh) as (info & Hi & Hs).
  unfold unlock_achievement. rewrite Hs. cbn [mbind option_bind].
  cbn [achievements_unlocked].
  set (old := match achievements_json r with
              | Some (ListOf l) => l
              | _ => []
              end) in *.
  case_bool_decide as Hin.
  - eexists _, false, t, _. split; [done|]. split; [done|].
    split; [exact Hs|]. cbn [achievements_unlocked s_xp_total s_level].
    fold old. rewrite bool_decide_eq_true_2 by done.
    split; [done|]. split; [done|]. split; [done|]. split; [done|].
    split; [done|]. split; [done|]. split; [done|].
    rewrite Hs. cbn [mbind option_bind achievements_unlocked]. fold old.
    by rewrite bool_decide_eq_true_2.
  - set (t' := update_achievements (old ++ [achievement_id]) now t).
    assert (Hh' : head t'
                  = Some (mk_row (id r) (xp_total r) (GamificationDb.level r)
                            (Some (ListOf (old ++ [achievement_id])))
                            (daily_challenge_completed r)
                            (last_reset_session r)
                            (spots_reset_in_session r) now)).
    { unfold t'. by rewrite head_update_achievements, Hh. }
    destruct (state_of_row _ _ Hh') as (info' & Hi' & Hs').
    row_simpl. assert (info' = info) as -> by congruence.
    eexists _, true, t', _. split; [done|]. split; [done|].
    split; [exact Hs'|]. cbn [achievements_unlocked s_xp_total s_level].
    fold old. rewrite bool_decide_eq_false_2 by done.
    split; [done|]. split; [done|].
    split; [apply elem_of_app; right; apply list_elem_of_singleton; done|].
    split.
    { intros Hnd. apply NoDup_app. split; [done|].
      split; [|apply NoDup_singleton].
      intros x Hx ->%list_elem_of_singleton. done. }
    split; [done|]. split; [done|]. split; [done|].
    rewrite Hs'. cbn [mbind option_bind achievements_unlocked].
    rewrite bool_decide_eq_true_2; [done|].
    apply elem_of_app; right; by apply list_elem_of_singleton.
Qed.

Lemma unlock_achievement_once_witness :
  ∃ t', unlock_achievement "first_blood" "2024-01-01T10:00:00" fresh_table
        = Some (true, t')
        ∧ unlock_achievement "first_blood" "2024-01-01T11:00:00" t'
          = Some (false, t').
Proof.
  destruct (proj2 (unlock_achievement_once "first_blood"
                     "2024-01-01T10:00:00" "2024-01-01T11:00:00")
              fresh_table _ eq_refl)
    as (st & b & t' & st' & Hs & Hu & _ & Hb & _ & _ & _ & _ & _ & _ & Hagain).
  vm_compute in Hs. injection Hs as <-. vm_compute in Hb. subst b.
  by exists t'.
Defined.

Lemma head_update_session c today now t :
  head (update_session c today now t)
  = (λ r, mk_row (id r) (xp_total r) (GamificationDb.level r)
            (achievements_json r) (daily_challenge_completed r) (Some today)
            (Some c) now)
    <$> head t.
Proof. by destruct t. Qed.

(** X13. [increment_session_resets] counts the resets of one day: with
    the row in place it returns 1 on a day other than the stored session
    day and the stored count plus 1 on the same day; the count and the
    day are stored, so the next call on that day returns one more and a
    call on another day returns 1 again.  The state reports the stored
    count.  Without a row it returns 1 and stores nothing. *)
Theorem increment_session_resets_per_day
    (now today now2 today2 : string) :
  increment_session_resets now today [] = (1, [])
  ∧ ∀ t r, head t = Some r →
      let res := increment_session_resets now today t in
      res.1 = (if bool_decide (last_reset_session r = Some today)
               then default 0 (spots_reset_in_session r) + 1
               else 1)
      ∧ (increment_session_resets now2 today res.2).1 = res.1 + 1
      ∧ (today2 ≠ today →
         (increment_session_resets now2 today2 res.2).1 = 1)
      ∧ (∃ st, get_gamification_state res.2 = Some st
               ∧ s_spots_reset_in_session st = Some res.1
               ∧ s_xp_total st = xp_total r)
      ∧ length res.2 = length t.
Proof.
  split; [done|]. intros t r Hh res.
  assert (H1 : res.1 = (if bool_decide (last_reset_session r = Some today)
                        then default 0 (spots_reset_in_session r) + 1
                        else 1)).
  { unfold res, increment_session_resets. rewrite Hh. cbn.
    repeat case_bool_decide; done. }
  assert (Hh' : head res.2
                = Some (mk_row (id r) (xp_total r) (GamificationDb.level r)
                          (achievements_json r) (daily_challenge_completed r)
                          (Some today) (Some res.1) now)).
  { unfold res, increment_session_resets. cbn [snd fst].
    by rewrite head_update_session, Hh. }
  split; [done|].
  split.
  { unfold increment_session_resets at 1. rewrite Hh'. cbn.
    by rewrite bool_decide_eq_false_2 by (intros H; by apply H). }
  split.
  { intros Hne. unfold increment_session_resets at 1. rewrite Hh'. cbn.
    rewrite bool_decide_eq_true_2; [done|]. congruence. }
  split.
  { destruct (state_of_row _ _ Hh') as (info & Hi & Hs).
    eexists. split; [exact Hs|]. done. }
  unfold res, increment_session_resets, update_session. cbn [snd].
  by rewrite length_fmap.
Qed.

Lemma increment_session_resets_per_day_witness :
  (increment_session_resets "2024-01-01T10:00:00" "2024-01-01"
     fresh_table).1 = 1
  ∧ (increment_session_resets "2024-01-01T11:00:00" "2024-01-01"
       (increment_session_resets "2024-01-01T10:00:00" "2024-01-01"
          fresh_table).2).1 = 2.
Proof.
  destruct (proj2 (increment_session_resets_per_day "2024-01-01T10:00:00"
                     "2024-01-01" "2024-01-01T11:00:00" "2024-01-02")
              fresh_table _ eq_refl) as (H1 & H2 & _).
  split; [exact H1|]. rewrite H2, H1. reflexivity.
Defined.

Lemma head_update_daily today now t :
  head (update_daily today now t)
  = (λ r, mk_row (id r) (xp_total r) (GamificationDb.level r)
            (achievements_json r) (Some today) (last_reset_session r)
            (spots_reset_in_session r) now)
    <$> head t.
Proof. by destruct t. Qed.

(** X14. [complete_daily_challenge] succeeds once per day: with the row
    in place it answers False exactly when the stored completion day is
    today; after any call a second call on the same day answers False
    and leaves the table as it is, a call on another day answers True,
    and the state reports today as the completion day.  Without a row
    every call answers True and stores nothing. *)
Theorem complete_daily_challenge_once_per_day
    (today now now2 today2 : string) :
  complete_daily_challenge today now [] = (true, [])
  ∧ ∀ t r, head t = Some r →
      let res := complete_daily_challenge today now t in
      res.1 = negb (bool_decide (daily_challenge_completed r = Some today))
      ∧ (res.1 = false → res.2 = t)
      ∧ complete_daily_challenge today now2 res.2 = (false, res.2)
      ∧ (today2 ≠ today →
         (complete_daily_challenge today2 now2 res.2).1 = true)
      ∧ ∃ st, get_gamification_state res.2 = Some st
              ∧ s_daily_challenge_completed st = Some (Some today)
              ∧ s_xp_total st = xp_total r.
Proof.
  split; [done|]. intros t r Hh res.
  unfold res, complete_daily_challenge. rewrite Hh.
  case_bool_decide as Hd; cbn [fst snd negb].
  - split; [done|]. split; [done|].
    rewrite Hh. rewrite bool_decide_eq_true_2 by done.
    split; [done|].
    split.
    { intros Hne. rewrite bool_decide_eq_false_2; [done|]. congruence. }
    destruct (state_of_row _ _ Hh) as (info & Hi & Hs).
    eexists. split; [exact Hs|]. by rewrite <- Hd.
  - assert (Hh' : head (update_daily today now t)
                  = Some (mk_row (id r) (xp_total r) (GamificationDb.level r)
                            (achievements_json r) (Some today)
                            (last_reset_session r)
                            (spots_reset_in_session r) now)).
    { by rewrite head_update_daily, Hh. }
    split; [done|]. split; [done|].
    rewrite Hh'. cbn [daily_challenge_completed].
    rewrite bool_decide_eq_true_2 by done.
    split; [done|].
    split.
    { intros Hne. rewrite bool_decide_eq_false_2; [done|]. congruence. }
    destruct (state_of_row _ _ Hh') as (info & Hi & Hs).
    eexists. split; [exact Hs|]. done.
Qed.

Lemma complete_daily_challenge_once_per_day_witness :
  (complete_daily_challenge "2024-01-01" "2024-01-01T10:00:00"
     fresh_table).1 = true
  ∧ (complete_daily_challenge "2024-01-01" "2024-01-01T11:00:00"
       (complete_daily_challenge "2024-01-01" "2024-01-01T10:00:00"
          fresh_table).2).1 = false.
Proof.
  destruct (proj2 (complete_daily_challenge_once_per_day "2024-01-01"
                     "2024-01-01T10:00:00" "2024-01-01T11:00:00"
                     "2024-01-02")
              fresh_table _ eq_refl) as (H1 & _ & H2 & _).
  split; [exact H1|]. by rewrite H2.
Defined.

End GamificationDbProofs.

(* ===================================================================== *)
(** ** Database: spots and resets                                        *)
(* ===================================================================== *)

Module SpotsDbProofs.
Import SpotsDb.

Implicit Types (t : list row) (r : row).

(** Under the PRIMARY KEY constraint an id selects its own row. *)
Lemma find_by_id t r :
  NoDup (id <$> t) → r ∈ t →
  List.find (λ r', bool_decide (id r' = id r)) t = Some r.
Proof.
  induction t as [|r0 t IH]; intros Hnd Hin; [by apply elem_of_nil in Hin|].
  cbn [fmap list_fmap] in Hnd. apply NoDup_cons in Hnd as [Hr Hnd].
  cbn [List.find]. apply elem_of_cons in Hin as [->|Hin].
  - by rewrite bool_decide_eq_true_2.
  - rewrite bool_decide_eq_false_2; [by apply IH|].
    intros Heq. apply Hr. rewrite Heq. by apply list_elem_of_fmap_2.
Qed.

Lemma find_by_id_None t (j : Z) :
  j ∉ id <$> t → List.find (λ r', bool_decide (id r' = j)) t = None.
Proof.
  induction t as [|r0 t IH]; [done|]. cbn [fmap list_fmap List.find].
  rewrite not_elem_of_cons. intros [Hne Hnin].
  rewrite bool_decide_eq_false_2 by done. by apply IH.
Qed.

(** An update that keeps the ids commutes with the lookup by id. *)
Lemma find_by_id_fmap (f : row → row) t (j : Z) :
  (∀ r, id (f r) = id r) →
  List.find (λ r', bool_decide (id r' = j)) (f <$> t)
  = f <$> List.find (λ r', bool_decide (id r' = j)) t.
Proof.
  intros Hf. induction t as [|r0 t IH]; [done|].
  cbn [fmap list_fmap List.find]. rewrite Hf.
  case_bool_decide; [done|]. apply IH.
Qed.

Lemma assign_id r (a : assignment) : id (assign r a) = id r.
Proof. by destruct a. Qed.

Lemma foldl_assign_id (kwargs : list assignment) r :
  id (foldl assign r kwargs) = id r.
Proof.
  revert r. induction kwargs as [|a k IH]; intros r; [done|].
  cbn [foldl]. by rewrite IH, assign_id.
Qed.

(** The five assignments of [record_reset], carried out. *)
Lemma reset_assignments r (c l n : Z) (now : string) :
  foldl assign r [ set_status "sorted"; set_current_streak c;
                   set_longest_streak l; set_total_resets n;
                   set_last_reset now ]
  = mk_row (id r) (name r) (camera_entity r) (definition r)
      (spot_type r) (voice r) (custom_voice_prompt r) (personality r)
      (created_at r) "sorted" (last_check r) c l (snoozed_until r) n
      (Some now) (check_schedule r) (dream_state_image r)
      (dream_state_generating r) (dream_state_error r).
Proof. destruct r; reflexivity. Qed.

(** The row [record_reset] writes for a spot read from row [r]. *)
Lemma record_reset_row t r (now : string) :
  NoDup (id <$> t) → r ∈ t → is_Some (_row_to_spot r) →
  ∃ t' r',
    record_reset (id r) now t = Some t'
    ∧ r' ∈ t' ∧ id <$> t' = id <$> t
    ∧ (∀ j, j ≠ id r → get_spot j t' = get_spot j t)
    ∧ r' = mk_row (id r) (name r) (camera_entity r) (definition r)
             (spot_type r) (voice r) (custom_voice_prompt r) (personality r)
             (created_at r) "sorted" (last_check r) (current_streak r + 1)
             (Z.max (longest_streak r) (current_streak r + 1))
             (snoozed_until r) (total_resets r + 1) (Some now)
             (check_schedule r) (dream_state_image r)
             (dream_state_generating r) (dream_state_error r).
Proof.
  intros Hnd Hin [spot Hspot].
  unfold record_reset, get_spot. rewrite (find_by_id t r Hnd Hin), Hspot.
  cbn [fmap option_fmap option_map mbind option_bind].
  assert (Hc : Spot.current_streak spot = current_streak r
               ∧ Spot.longest_streak spot = longest_streak r
               ∧ Spot.total_resets spot = total_resets r).
  { unfold _row_to_spot in Hspot.
    destruct (if bool_decide (status r = "") then _ else _); [|done].
    cbn [mbind option_bind] in Hspot. by injection Hspot as <-. }
  destruct Hc as (-> & -> & ->).
  unfold update_spot. cbn [snd].
  set (f := λ r0 : row, if bool_decide (id r0 = id r) then _ else r0).
  assert (Hf : ∀ r0, id (f r0) = id r0).
  { intros r0. unfold f. case_bool_decide; [|done]. apply foldl_assign_id. }
  exists (f <$> t), (f r). split; [done|].
  split; [by apply list_elem_of_fmap_2|].
  split.
  { rewrite <- list_fmap_compose. apply list_fmap_ext.
    intros i r0 _. apply Hf. }
  split.
  - intros j Hj. rewrite find_by_id_fmap by done.
    destruct (List.find _ t) as [r0|] eqn:Hfind; [|done].
    cbn [fmap option_fmap option_map].
    apply find_some in Hfind as [_ Hid%bool_decide_eq_true].
    unfold f. rewrite bool_decide_eq_false_2; [done|]. congruence.
  - unfold f. rewrite bool_decide_eq_true_2 by done.
    apply reset_assignments.
Qed.

Lemma row_to_spot_sorted r :
  status r = "sorted" → is_Some (_row_to_spot r).
Proof. intros Hs. unfold _row_to_spot. rewrite Hs. cbn. by eexists. Qed.

Lemma get_spot_row t r spot :
  NoDup (id <$> t) → r ∈ t → _row_to_spot r = Some spot →
  get_spot (id r) t = Some (Some spot)
  ∧ Spot.id spot = id r ∧ Spot.name spot = name r
  ∧ Spot.camera_entity spot = camera_entity r
  ∧ Spot.definition spot = definition r
  ∧ Spot.current_streak spot = current_streak r
  ∧ Spot.longest_streak spot = longest_streak r
  ∧ Spot.total_resets spot = total_resets r
  ∧ Spot.last_reset spot = last_reset r
  ∧ Some (Spot.status spot)
    = (if bool_decide (status r = "") then Some Spot.UNKNOWN
       else SpotStatus_of (status r)).
Proof.
  intros Hnd Hin Hspot. unfold get_spot.
  rewrite (find_by_id t r Hnd Hin), Hspot. split; [done|].
  unfold _row_to_spot in Hspot.
  destruct (if bool_decide (status r = "") then _ else _) eqn:Hst; [|done].
  cbn [mbind option_bind] in Hspot. by injection Hspot as <-.
Qed.

(** Any number of resets in a row. *)
Lemma record_resets_row (nows : list string) t r :
  NoDup (id <$> t) → r ∈ t → is_Some (_row_to_spot r) →
  ∃ tn rn,
    record_resets (id r) nows t = Some tn
    ∧ NoDup (id <$> tn) ∧ rn ∈ tn ∧ is_Some (_row_to_spot rn)
    ∧ id rn = id r ∧ name rn = name r
    ∧ current_streak rn = current_streak r + Z.of_nat (length nows)
    ∧ total_resets rn = total_resets r + Z.of_nat (length nows)
    ∧ longest_streak rn
      = match nows with
        | [] => longest_streak r
        | _ => Z.max (longest_streak r)
                 (current_streak r + Z.of_nat (length nows))
        end
    ∧ last_reset rn = from_option Some (last_reset r) (last nows).
Proof.
  revert t r. induction nows as [|now nows IH]; intros t r Hnd Hin Hok.
  - exists t, r. cbn. repeat (split; [done|]). split; [lia|]. split; [lia|].
    done.
  - destruct (record_reset_row t r now Hnd Hin Hok)
      as (t' & r' & Hrr & Hin' & Hids & _ & Hr').
    assert (Hid' : id r' = id r) by by rewrite Hr'.
    destruct (IH t' r') as (tn & rn & Hn & Hndn & Hinn & Hokn & Hidn & Hnm
                            & Hcur & Htot & Hlong & Hlast).
    { by rewrite Hids. }
    { done. }
    { apply row_to_spot_sorted. by rewrite Hr'. }
    exists tn, rn.
    split.
    { unfold record_resets in *. cbn [foldl mbind option_bind].
      rewrite Hrr. by rewrite Hid' in Hn. }
    split; [done|]. split; [done|]. split; [done|].
    split; [congruence|].
    split; [by rewrite Hnm, Hr'|].
    rewrite Hcur, Htot, Hlong, Hlast, Hr'.
    cbn [current_streak total_resets longest_streak last_reset length].
    split; [lia|]. split; [lia|].
    split; [destruct nows; cbn [length]; lia|].
    destruct nows as [|n ns]; [done|].
    change (last (now :: n :: ns)) with (last (n :: ns)).
    destruct (last (n :: ns)) eqn:Hl; [done|]. by apply last_None in Hl.
Qed.


Lemma two_spots_ids : NoDup (id <$> two_spots).
Proof. apply (bool_decide_unpack _). vm_compute. exact I. Qed.


End SpotsDbProofs.

(* ===================================================================== *)
(** ** Database: life of an API token                                    *)
(* ===================================================================== *)

Module TokenProofs.
Import Database DatabaseProofs.

Implicit Types (t : list token_row) (row : token_row).

Lemma rowcount_pos (i : Z) t : (0 < rowcount i t)%nat ↔ i ∈ id <$> t.
Proof.
  unfold rowcount. induction t as [|r t IH]; cbn [fmap list_fmap].
  - cbn. split; [lia|by intros ?%elem_of_nil].
  - rewrite filter_cons, elem_of_cons. case_decide as Hr.
    + cbn [length]. split; [by left|lia].
    + rewrite IH. split; [by right|]. by intros [?|?].
Qed.

Lemma filter_other_id (i : Z) t :
  i ∉ id <$> t → filter (λ r, id r ≠ i) t = t.
Proof.
  induction t as [|r t IH]; [done|]. cbn [fmap list_fmap].
  rewrite not_elem_of_cons. intros [Hne Hnin].
  rewrite filter_cons. rewrite decide_True by done. f_equal. by apply IH.
Qed.



End TokenProofs.

(* ===================================================================== *)
(** ** Cameras: credentials in URLs                                      *)
(* ===================================================================== *)

Module CameraUrlsProofs.
Import Camera CameraUrls.

Lemma string_app_assoc (s1 s2 s3 : string) :
  (s1 +:+ s2) +:+ s3 = s1 +:+ s2 +:+ s3.
Proof.
  induction s1 as [|c s1 IH]; [done|].
  change (String c ((s1 +:+ s2) +:+ s3) = String c (s1 +:+ s2 +:+ s3)).
  by f_equal.
Qed.

Lemma string_app_cons (c : ascii) (s1 s2 : string) :
  String c s1 +:+ s2 = String c (s1 +:+ s2).
Proof. done. Qed.

Lemma prefix_nil (s : string) : String.prefix "" s = true.
Proof. by destruct s. Qed.

Lemma prefix_cons (c c' : ascii) (p s : string) :
  String.prefix (String c p) (String c' s)
  = bool_decide (c = c') && String.prefix p s.
Proof.
  cbn [String.prefix]. destruct (ascii_dec c c') as [->|Hne].
  - by rewrite bool_decide_eq_true_2.
  - by rewrite bool_decide_eq_false_2.
Qed.

Lemma prefix_empty (c : ascii) (p : string) :
  String.prefix (String c p) "" = false.
Proof. done. Qed.

(** A prefix can be cut off. *)
Lemma prefix_drop (sep s : string) :
  String.prefix sep s = true →
  s = sep +:+ string_drop (String.length sep) s.
Proof.
  revert s. induction sep as [|c sep IH]; intros s Hp; [done|].
  destruct s as [|c' s]; [done|].
  rewrite prefix_cons in Hp. apply andb_true_iff in Hp as [Hc Hp].
  apply bool_decide_eq_true in Hc as <-.
  cbn [String.length string_drop]. rewrite string_app_cons.
  f_equal. by apply IH.
Qed.

Lemma prefix_app (sep s : string) : String.prefix sep (sep +:+ s) = true.
Proof.
  induction sep as [|c sep IH]; [apply prefix_nil|].
  rewrite string_app_cons, prefix_cons, IH.
  by rewrite bool_decide_eq_true_2.
Qed.

Lemma drop_app (sep s : string) :
  string_drop (String.length sep) (sep +:+ s) = s.
Proof. induction sep as [|c sep IH]; [done|]. exact IH. Qed.

Lemma split_1_sound (sep s a b : string) :
  split_1 sep s = Some (a, b) → s = a +:+ sep +:+ b.
Proof.
  revert a. induction s as [|c s IH]; intros a; cbn [split_1].
  - destruct (String.prefix sep "") eqn:Hp; [|done].
    intros [= <- <-]. by apply prefix_drop.
  - destruct (String.prefix sep (String c s)) eqn:Hp.
    + intros [= <- <-]. by apply prefix_drop.
    + destruct (split_1 sep s) as [[a' b']|]; [|done].
      cbn. intros [= <- <-]. rewrite string_app_cons. f_equal. by apply IH.
Qed.

Lemma split_1_contains (sep s : string) :
  contains sep s = true → is_Some (split_1 sep s).
Proof.
  induction s as [|c s IH]; cbn [contains split_1].
  - rewrite orb_false_r. by intros ->.
  - destruct (String.prefix sep (String c s)); [done|].
    cbn [orb]. intros [ab ->]%IH. done.
Qed.

Lemma rsplit_1_sound (sep s a b : string) :
  rsplit_1 sep s = Some (a, b) → s = a +:+ sep +:+ b.
Proof.
  revert a. induction s as [|c s IH]; intros a; cbn [rsplit_1]; [done|].
  destruct (rsplit_1 sep s) as [[a' b']|].
  - cbn. intros [= <- <-]. rewrite string_app_cons. f_equal. by apply IH.
  - destruct (String.prefix sep (String c s)) eqn:Hp; [|done].
    intros [= <- <-]. by apply prefix_drop.
Qed.

Lemma rsplit_1_contains (c0 : ascii) (s : string) :
  contains (String c0 "") s = true → is_Some (rsplit_1 (String c0 "") s).
Proof.
  induction s as [|c s IH]; cbn [contains rsplit_1]; [done|].
  destruct (rsplit_1 (String c0 "") s) as [ab|]; [done|].
  destruct (String.prefix (String c0 "") (String c s)); [done|].
  cbn [orb]. intros H%IH. by destruct H.
Qed.

Lemma rsplit_1_no_sep (c0 : ascii) (s : string) :
  contains (String c0 "") s = false → rsplit_1 (String c0 "") s = None.
Proof.
  induction s as [|c s IH]; cbn [contains rsplit_1]; [done|].
  intros [Hp Hc]%orb_false_iff. by rewrite IH, Hp.
Qed.

(** The part after the last separator holds no separator. *)
Lemma rsplit_1_last (c0 : ascii) (s a b : string) :
  rsplit_1 (String c0 "") s = Some (a, b) →
  contains (String c0 "") b = false.
Proof.
  revert a. induction s as [|c s IH]; intros a; cbn [rsplit_1]; [done|].
  destruct (rsplit_1 (String c0 "") s) as [[a' b']|] eqn:Hr.
  - cbn. intros [= <- <-]. by eapply IH.
  - destruct (String.prefix (String c0 "") (String c s)) eqn:Hp; [|done].
    intros [= <- <-]. cbn [String.length string_drop].
    destruct (contains (String c0 "") s) eqn:Hc; [|done].
    apply rsplit_1_contains in Hc as [? Hc]. congruence.
Qed.

Lemma contains_cons_r (sub : string) (c : ascii) (s : string) :
  contains sub s = true → contains sub (String c s) = true.
Proof. intros H. cbn [contains]. rewrite H. apply orb_true_r. Qed.

Lemma contains_app_r (sub a b : string) :
  contains sub b = true → contains sub (a +:+ b) = true.
Proof.
  intros Hb. induction a as [|c a IH]; [done|].
  rewrite string_app_cons. by apply contains_cons_r.
Qed.

Lemma contains_app_here (sub a b : string) :
  contains sub (a +:+ sub +:+ b) = true.
Proof.
  apply contains_app_r. destruct (sub +:+ b) eqn:Heq; cbn [contains];
    rewrite <- Heq, prefix_app; done.
Qed.

(** A single character occurs in a concatenation only if it occurs in
    one of the parts. *)
Lemma contains_char_app (c0 : ascii) (a b : string) :
  contains (String c0 "") (a +:+ b)
  = contains (String c0 "") a || contains (String c0 "") b.
Proof.
  induction a as [|c a IH].
  - cbn [contains]. rewrite prefix_empty. done.
  - rewrite string_app_cons. cbn [contains]. rewrite IH.
    rewrite !prefix_cons, !prefix_nil. by rewrite orb_assoc.
Qed.

Lemma contains_char_cons (c0 c : ascii) (s : string) :
  contains (String c0 "") (String c s)
  = bool_decide (c0 = c) || contains (String c0 "") s.
Proof. cbn [contains]. by rewrite prefix_cons, prefix_nil, andb_true_r. Qed.

(** The "://" holds no "@". *)
Lemma contains_at_scheme (rest : string) :
  contains "@" ("://" +:+ rest) = contains "@" rest.
Proof.
  change ("://" +:+ rest) with (String ":" (String "/" (String "/" rest))).
  rewrite !contains_char_cons.
  change (bool_decide ("@"%char = ":"%char)) with false.
  change (bool_decide ("@"%char = "/"%char)) with false.
  done.
Qed.

Lemma rsplit_1_app (c0 : ascii) (a b : string) :
  contains (String c0 "") b = false →
  rsplit_1 (String c0 "") (a +:+ String c0 b) = Some (a, b).
Proof.
  intros Hb. induction a as [|c a IH].
  - change ("" +:+ String c0 b) with (String c0 b). cbn [rsplit_1].
    rewrite (rsplit_1_no_sep _ _ Hb), prefix_cons, prefix_nil.
    by rewrite bool_decide_eq_true_2.
  - rewrite string_app_cons. cbn [rsplit_1]. by rewrite IH.
Qed.

(** The first "://" of [prefix://rest] is the one written, when the
    prefix holds none. *)
Lemma split_1_scheme (prefix rest : string) :
  contains "://" prefix = false →
  split_1 "://" (prefix +:+ "://" +:+ rest) = Some (prefix, rest).
Proof.
  induction prefix as [|c p IH]; intros Hc.
  - change ("" +:+ "://" +:+ rest)
      with (String ":" (String "/" (String "/" rest))).
    cbn [split_1]. rewrite !prefix_cons, prefix_nil. reflexivity.
  - cbn [contains] in Hc. apply orb_false_iff in Hc as [Hp Hc].
    rewrite string_app_cons. cbn [split_1].
    assert (Hp' : String.prefix "://" (String c (p +:+ "://" +:+ rest))
                  = false).
    { destruct p as [|c1 [|c2 p]].
      - rewrite !prefix_cons. cbn.
        destruct (bool_decide (":"%char = c)); done.
      - rewrite !string_app_cons, !prefix_cons. cbn.
        destruct (bool_decide (":"%char = c)),
          (bool_decide ("/"%char = c1)); done.
      - rewrite !string_app_cons, !prefix_cons, prefix_nil.
        rewrite !prefix_cons, prefix_nil in Hp. done. }
    rewrite Hp', (IH Hc). done.
Qed.

(** Both splits of [_mask_credentials] find their separator. *)
Lemma mask_credentials_total (url : string) :
  is_Some (_mask_credentials url).
Proof.
  unfold _mask_credentials.
  destruct (contains "@" url && contains "://" url) eqn:Hc; [|done].
  apply andb_true_iff in Hc as [_ Hc].
  destruct (split_1_contains _ _ Hc) as [[prefix rest] ->].
  destruct (contains "@" rest) eqn:Hr; [|done].
  by destruct (rsplit_1_contains _ _ Hr) as [[creds host] ->].
Qed.

(** X17. [_mask_credentials] never raises.  It returns the URL as it is
    unless an "@" follows the first "://", and then it replaces what
    stands between that "://" and the last "@" by "***"; the part kept
    after the "@" holds no "@".  In particular the URL that
    [_build_rtsp_url] makes from a URL without "@" and a user name and
    password is masked to the URL with "***" for both, whatever
    characters they hold, and masking twice is masking once. *)
Theorem mask_credentials_hides (url : string) :
  ∃ masked,
    _mask_credentials url = Some masked
    ∧ _mask_credentials masked = Some masked
    ∧ (masked = url
       ∨ ∃ prefix creds host_part,
           url = prefix +:+ "://" +:+ creds +:+ "@" +:+ host_part
           ∧ masked = prefix +:+ "://***@" +:+ host_part
           ∧ contains "@" host_part = false)
    ∧ (∀ prefix rest, url = prefix +:+ "://" +:+ rest →
         contains "://" prefix = false →
         masked = (if contains "@" rest
                   then match rsplit_1 "@" rest with
                        | Some (_, host_part) =>
                            prefix +:+ "://***@" +:+ host_part
                        | None => url
                        end
                   else url))
    ∧ (∀ prefix rest username password,
         url = prefix +:+ "://" +:+ rest →
         contains "://" prefix = false → contains "@" url = false →
         truthy (Some username) = true → truthy (Some password) = true →
         ∃ full, _build_rtsp_url (Some url) (Some username) (Some password)
                 = Some (Some full)
           ∧ full = prefix +:+ "://" +:+ username +:+ ":" +:+ password
                    +:+ "@" +:+ rest
           ∧ _mask_credentials full = Some (prefix +:+ "://***@" +:+ rest)).
Proof.
  assert (Hmask : ∀ prefix rest,
            contains "://" prefix = false →
            _mask_credentials (prefix +:+ "://" +:+ rest)
            = Some (if contains "@" rest
                    then match rsplit_1 "@" rest with
                         | Some (_, host_part) =>
                             prefix +:+ "://***@" +:+ host_part
                         | None => prefix +:+ "://" +:+ rest
                         end
                    else prefix +:+ "://" +:+ rest)).
  { intros prefix rest Hp. unfold _mask_credentials.
    rewrite (contains_app_here "://" prefix rest), andb_true_r.
    destruct (contains "@" (prefix +:+ "://" +:+ rest)) eqn:Hat.
    - rewrite (split_1_scheme _ _ Hp).
      destruct (contains "@" rest) eqn:Hr; [|done].
      destruct (rsplit_1_contains _ _ Hr) as [[creds host] ->]. done.
    - rewrite contains_char_app in Hat.
      apply orb_false_iff in Hat as [_ Hat].
      rewrite contains_at_scheme in Hat. by rewrite Hat. }
  assert (Hidem : ∀ prefix host_part,
            contains "://" prefix = false → contains "@" host_part = false →
            _mask_credentials (prefix +:+ "://***@" +:+ host_part)
            = Some (prefix +:+ "://***@" +:+ host_part)).
  { intros prefix host Hp Hh.
    change (prefix +:+ "://***@" +:+ host)
      with (prefix +:+ "://" +:+ ("***" +:+ String "@" host)).
    rewrite (Hmask _ _ Hp).
    rewrite (contains_app_r "@" "***" (String "@" host))
      by (rewrite contains_char_cons; by rewrite bool_decide_eq_true_2).
    by rewrite (rsplit_1_app "@" "***" host Hh). }
  assert (Hfirst : ∀ prefix rest, split_1 "://" url = Some (prefix, rest) →
            contains "://" prefix = false).
  { clear. induction url as [|c s IH]; intros prefix rest; cbn [split_1].
    - done.
    - destruct (String.prefix "://" (String c s)) eqn:Hp.
      + by intros [= <- <-].
      + destruct (split_1 "://" s) as [[a b]|] eqn:Hs; [|done].
        cbn. intros [= <- <-]. cbn [contains].
        rewrite (IH a b eq_refl), orb_false_r.
        apply split_1_sound in Hs. subst s.
        destruct a as [|c1 [|c2 a]].
        * rewrite !prefix_cons in *. cbn in *.
          by destruct (bool_decide (":"%char = c)).
        * rewrite !string_app_cons, !prefix_cons in *. cbn in *.
          by destruct (bool_decide (":"%char = c)),
               (bool_decide ("/"%char = c1)).
        * rewrite !string_app_cons, !prefix_cons, prefix_nil in Hp.
          by rewrite !prefix_cons, prefix_nil. }
  assert (Hcases : (contains "@" url && contains "://" url = false
                    ∧ _mask_credentials url = Some url)
                   ∨ ∃ prefix rest, url = prefix +:+ "://" +:+ rest
                                    ∧ contains "://" prefix = false).
  { destruct (contains "@" url && contains "://" url) eqn:Hc.
    - right. apply andb_true_iff in Hc as [_ Hc].
      destruct (split_1_contains _ _ Hc) as [[prefix rest] Hs].
      exists prefix, rest. split; [by apply split_1_sound|by eapply Hfirst].
    - left. split; [done|]. unfold _mask_credentials. by rewrite Hc. }
  assert (Hbuild : ∀ prefix rest username password,
            url = prefix +:+ "://" +:+ rest →
            contains "://" prefix = false → contains "@" url = false →
            truthy (Some username) = true → truthy (Some password) = true →
            ∃ full, _build_rtsp_url (Some url) (Some username)
                      (Some password) = Some (Some full)
              ∧ full = prefix +:+ "://" +:+ username +:+ ":" +:+ password
                       +:+ "@" +:+ rest
              ∧ _mask_credentials full
                = Some (prefix +:+ "://***@" +:+ rest)).
  { intros prefix rest username password -> Hp Hat Hu Hpw.
    eexists. split.
    { unfold _build_rtsp_url. rewrite Hu, Hpw, Hat.
      rewrite (contains_app_here "://" prefix rest). cbn [andb negb].
      rewrite (split_1_scheme _ _ Hp). reflexivity. }
    split; [done|]. cbn [default]. unfold id.
    rewrite (Hmask _ _ Hp).
    assert (Hrest : contains "@" rest = false).
    { rewrite contains_char_app in Hat.
      apply orb_false_iff in Hat as [_ Hat].
      by rewrite contains_at_scheme in Hat. }
    replace (username +:+ ":" +:+ password +:+ "@" +:+ rest)
      with ((username +:+ ":" +:+ password) +:+ String "@" rest)
      by (by rewrite !string_app_assoc).
    rewrite (contains_app_r "@" _ (String "@" rest))
      by (rewrite contains_char_cons; by rewrite bool_decide_eq_true_2).
    by rewrite (rsplit_1_app "@" _ rest Hrest). }
  destruct Hcases as [[Hc Hm]|(prefix & rest & -> & Hp)].
  - exists url. split; [done|]. split; [done|]. split; [by left|].
    split; [|exact Hbuild].
    intros prefix rest -> Hp. rewrite (Hmask _ _ Hp) in Hm.
    injection Hm as Hm. symmetry. exact Hm.
  - rewrite (Hmask _ _ Hp) in *.
    eexists. split; [reflexivity|].
    assert (Hsame : ∀ p' r', prefix +:+ "://" +:+ rest = p' +:+ "://" +:+ r' →
              contains "://" p' = false → p' = prefix ∧ r' = rest).
    { intros p' r' Heq Hp'.
      pose proof (split_1_scheme prefix rest Hp) as H1.
      rewrite Heq, (split_1_scheme p' r' Hp') in H1. by injection H1. }
    destruct (contains "@" rest) eqn:Hr.
    + destruct (rsplit_1 "@" rest) as [[creds host]|] eqn:Hrs.
      * pose proof (rsplit_1_last _ _ _ _ Hrs) as Hh.
        pose proof (rsplit_1_sound _ _ _ _ Hrs) as Hsnd.
        split; [by apply Hidem|].
        split.
        { right. exists prefix, creds, host. by rewrite Hsnd. }
        split; [|exact Hbuild].
        intros p' r' Heq Hp'.
        destruct (Hsame p' r' Heq Hp') as [-> ->]. by rewrite Hr, Hrs.
      * apply rsplit_1_contains in Hr as [? Hr]. congruence.
    + split; [by rewrite (Hmask _ _ Hp), Hr|].
      split; [by left|].
      split; [|exact Hbuild].
      intros p' r' Heq Hp'.
      destruct (Hsame p' r' Heq Hp') as [-> ->]. by rewrite Hr.
Qed.

Lemma mask_credentials_hides_witness :
  ∃ full,
    _build_rtsp_url (Some "rtsp://192.168.1.10:554/stream1") (Some "admin")
      (Some "p@ss://word") = Some (Some full)
    ∧ _mask_credentials full = Some "rtsp://***@192.168.1.10:554/stream1".
Proof.
  destruct (mask_credentials_hides "rtsp://192.168.1.10:554/stream1")
    as (masked & _ & _ & _ & _ & Hbuild).
  destruct (Hbuild "rtsp" "192.168.1.10:554/stream1" "admin" "p@ss://word"
              eq_refl eq_refl eq_refl eq_refl eq_refl)
    as (full & Hb & -> & Hm).
  eexists. split; [exact Hb|exact Hm].
Defined.

End CameraUrlsProofs.
(* ===================================================================== *)
(** ** Cameras: custom cameras, listed and found                         *)
(* ===================================================================== *)

Module CustomCamerasProofs.
Import Camera CameraUrls CustomCameras.
Import CameraUrlsProofs.

Implicit Types (cam : camera_dict) (cams : list camera_dict).

(** The text of an integer is never the text of [None]. *)
Lemma pretty_N_go_ne_None (x : N) (s : string) :
  s ≠ "None" → pretty_N_go x s ≠ "None".
Proof.
  revert s. induction (N.lt_wf_0 x) as [x _ IH]; intros s Hs.
  assert (x = 0 ∨ 0 < x)%N as [->|Hx] by lia.
  - by rewrite pretty_N_go_0.
  - rewrite pretty_N_go_step by done. apply IH.
    { by apply N.div_lt. }
    unfold pretty_N_char. by repeat case_match.
Qed.

Lemma pretty_Z_ne_None (z : Z) : pretty z ≠ "None".
Proof.
  destruct z as [|x|x]; [done| |done].
  unfold pretty, pretty_Z, pretty, pretty_positive, pretty, pretty_N.
  rewrite decide_False by done. by apply pretty_N_go_ne_None.
Qed.

Lemma str_id_pretty cam (z : Z) :
  str_id cam = pretty z ↔ cam_id cam = Some (Some z).
Proof.
  unfold str_id, get, format. destruct (cam_id cam) as [[z'|]|]; split.
  - intros Heq. do 2 f_equal. by apply (inj pretty).
  - by intros [= ->].
  - intros Heq. symmetry in Heq. by apply pretty_Z_ne_None in Heq.
  - done.
  - intros Heq. symmetry in Heq. by apply pretty_Z_ne_None in Heq.
  - done.
Qed.

Lemma dict_truthy_id cam : is_Some (cam_id cam) → dict_truthy cam = true.
Proof. destruct cam as [[z|] ? ? ? ? ? ? ? ?]; [done|]. by intros [? ?]. Qed.

(** The lookup loop finds a camera of the id asked for, if one is
    stored. *)
Lemma find_camera_by_id (prefix : string) cams (i : nat) cam (z : Z) :
  cams !! i = Some cam → cam_id cam = Some (Some z) →
  ∃ cam', find_camera prefix cams (prefix +:+ pretty z) = Some cam'
          ∧ cam' ∈ cams ∧ cam_id cam' = Some (Some z).
Proof.
  intros Hi Hz. unfold find_camera.
  destruct (List.find _ cams) as [cam'|] eqn:Hf.
  - apply find_some in Hf as [Hin Heq].
    apply bool_decide_eq_true in Heq. apply (inj (String.app prefix)) in Heq.
    apply str_id_pretty in Heq.
    exists cam'. rewrite dict_truthy_id by (by rewrite Heq).
    split; [done|]. split; [by apply list_elem_of_In|done].
  - exfalso. apply list_elem_of_lookup_2, list_elem_of_In in Hi.
    pose proof (find_none _ _ Hf _ Hi) as Hb. cbn beta in Hb.
    apply bool_decide_eq_false in Hb. apply Hb. f_equal.
    by apply str_id_pretty.
Qed.

(** The loop of [load_custom_cameras] sorts the cameras into three
    filters. *)
Lemma load_custom_cameras_loop cameras (l1 l2 l3 : list camera_dict) :
  foldl (λ '(rtsp_cameras, mjpeg_cameras, onvif_cameras) cam,
           let cam_type := get (cam_camera_type cam) (Some "mjpeg") in
           if bool_decide (cam_type = Some "rtsp")
           then (rtsp_cameras ++ [cam], mjpeg_cameras, onvif_cameras)
           else if bool_decide (cam_type = Some "mjpeg")
           then (rtsp_cameras, mjpeg_cameras ++ [cam], onvif_cameras)
           else if bool_decide (cam_type = Some "onvif")
           then (rtsp_cameras, mjpeg_cameras, onvif_cameras ++ [cam])
           else (rtsp_cameras, mjpeg_cameras, onvif_cameras))
        (l1, l2, l3) cameras
  = (l1 ++ filter (filed_as "rtsp") cameras,
     l2 ++ filter (filed_as "mjpeg") cameras,
     l3 ++ filter (filed_as "onvif") cameras).
Proof.
  revert l1 l2 l3. induction cameras as [|c cameras IH]; intros l1 l2 l3.
  - by rewrite !filter_nil, !app_nil_r.
  - cbn [foldl]. rewrite !filter_cons. cbv zeta. unfold filed_as at 1 3 5.
    repeat case_bool_decide; rewrite IH; repeat case_decide;
      try congruence; by rewrite <- ?app_assoc.
Qed.

Lemma load_custom_cameras_filter cameras :
  load_custom_cameras cameras
  = (filter (filed_as "rtsp") cameras, filter (filed_as "mjpeg") cameras,
     filter (filed_as "onvif") cameras).
Proof. apply (load_custom_cameras_loop cameras [] [] []). Qed.

(** A comprehension over [enumerate] whose body may raise. *)
Lemma mapM_imap_spec {A B} (f : nat → A → option B) (l : list A) :
  (mapM (λ x, x) (imap f l) = None
   ↔ ∃ (i : nat) x, l !! i = Some x ∧ f i x = None)
  ∧ ∀ out, mapM (λ x, x) (imap f l) = Some out →
      length out = length l
      ∧ ∀ (i : nat) x, l !! i = Some x →
          ∃ y, f i x = Some y ∧ out !! i = Some y.
Proof.
  split.
  - rewrite mapM_None, Exists_exists. split.
    + intros (o & Hin & ->).
      apply elem_of_lookup_imap in Hin as (i & x & Hf & Hi). by exists i, x.
    + intros (i & x & Hi & Hf). exists None. split; [|done].
      apply elem_of_lookup_imap. by exists i, x.
  - intros out Hout. pose proof (length_mapM _ _ _ Hout) as Hlen.
    rewrite length_imap in Hlen. split; [done|].
    intros i x Hi. apply mapM_Some in Hout.
    assert (Hfi : imap f l !! i = Some (f i x))
      by (by rewrite list_lookup_imap, Hi).
    destruct (Forall2_lookup_l _ _ _ _ _ Hout Hfi) as (y & Hy & Hfy).
    by exists y.
Qed.

(** What raises in the listing of the RTSP and MJPEG adapters, and what
    they list otherwise. *)
Lemma masked_info_spec (label : option string) (type kind : string) (i : nat)
    cam :
  let info :=
    url ← get (cam_url cam) (Some "");
    masked ← _mask_credentials url;
    Some (mk_info (type +:+ format (get (cam_id cam) (Some (Z.of_nat i))))
            (get (cam_name cam) label) kind (Some masked) "unknown") in
  (info = None ↔ cam_url cam = Some None)
  ∧ ∀ y, info = Some y →
      camera_type y = kind
      ∧ (∃ masked, _mask_credentials (default "" (get (cam_url cam) (Some "")))
                   = Some masked ∧ url y = Some masked)
      ∧ (∀ z, cam_id cam = Some (Some z) → id y = type +:+ pretty z)
      ∧ ∃ x, id y = type +:+ x.
Proof.
  cbv zeta. unfold get.
  destruct (cam_url cam) as [[u|]|]; cbn [mbind option_bind default].
  - destruct (mask_credentials_total u) as [m Hm]. rewrite Hm. cbn.
    split; [done|]. intros y [= <-]. cbn.
    split; [done|]. split; [exists m; by rewrite ?Hm|].
    split; [by intros z ->|by eexists].
  - split; [done|]. done.
  - destruct (mask_credentials_total "") as [m Hm]. rewrite Hm. cbn.
    split; [done|]. intros y [= <-]. cbn.
    split; [done|]. split; [exists m; by rewrite ?Hm|].
    split; [by intros z ->|by eexists].
Qed.

Lemma dispatch_rtsp (x : string) :
  _get_adapter_for_camera ("rtsp_" +:+ x) = rtsp_camera.
Proof.
  unfold _get_adapter_for_camera, _adapters. cbn [first_adapter].
  change (startswith ("rtsp_" +:+ x) "camera.") with false.
  unfold startswith. by rewrite prefix_app.
Qed.

Lemma dispatch_mjpeg (x : string) :
  _get_adapter_for_camera ("mjpeg_" +:+ x) = mjpeg_camera.
Proof.
  unfold _get_adapter_for_camera, _adapters. cbn [first_adapter].
  change (startswith ("mjpeg_" +:+ x) "camera.") with false.
  change (startswith ("mjpeg_" +:+ x) "rtsp_") with false.
  unfold startswith. by rewrite prefix_app.
Qed.

Lemma dispatch_onvif (x : string) :
  _get_adapter_for_camera ("onvif_" +:+ x) = onvif_camera.
Proof.
  unfold _get_adapter_for_camera, _adapters. cbn [first_adapter].
  change (startswith ("onvif_" +:+ x) "camera.") with false.
  change (startswith ("onvif_" +:+ x) "rtsp_") with false.
  change (startswith ("onvif_" +:+ x) "mjpeg_") with false.
  unfold startswith. by rewrite prefix_app.
Qed.

(** X18. [load_custom_cameras] hands each adapter the cameras of its
    type, in order, a camera without type going to MJPEG and one of
    another type, or of type [None], to none.  The RTSP and MJPEG
    listings raise exactly when a camera they hold has the URL [None];
    otherwise each adapter lists one camera per camera it holds, under
    an id with which [_get_adapter_for_camera] comes back to that
    adapter; and for a camera stored with an integer id, the lookup of
    the adapter finds under the listed id a camera with that id. *)
Theorem custom_cameras_listed_and_found (cameras : list camera_dict)
    (discovered : list CameraInfo) :
  ∃ rtsp mjpeg onvif,
    load_custom_cameras cameras = (rtsp, mjpeg, onvif)
    ∧ rtsp = filter (filed_as "rtsp") cameras
    ∧ mjpeg = filter (filed_as "mjpeg") cameras
    ∧ onvif = filter (filed_as "onvif") cameras
    ∧ (rtsp_get_cameras rtsp = None
       ↔ ∃ cam, cam ∈ rtsp ∧ cam_url cam = Some None)
    ∧ (mjpeg_get_cameras mjpeg = None
       ↔ ∃ cam, cam ∈ mjpeg ∧ cam_url cam = Some None)
    ∧ (∀ infos, rtsp_get_cameras rtsp = Some infos →
         length infos = length rtsp
         ∧ listed "rtsp" rtsp_camera cameras rtsp infos)
    ∧ (∀ infos, mjpeg_get_cameras mjpeg = Some infos →
         length infos = length mjpeg
         ∧ listed "mjpeg" mjpeg_camera cameras mjpeg infos)
    ∧ length (onvif_get_cameras onvif discovered)
      = (length onvif + length discovered)%nat
    ∧ listed "onvif" onvif_camera cameras onvif
        (onvif_get_cameras onvif discovered).
Proof.
  eexists _, _, _.
  split; [apply load_custom_cameras_filter|].
  split; [done|]. split; [done|]. split; [done|].
  split; [|split; [|split; [|split; [|split]]]].
  - unfold rtsp_get_cameras.
    rewrite (proj1 (mapM_imap_spec rtsp_info _)). split.
    + intros (i & cam & Hi & Hf). exists cam.
      split; [by eapply list_elem_of_lookup_2|].
      by apply (masked_info_spec (Some ("RTSP Camera " +:+ pretty i))
                 "rtsp_" "rtsp" i cam).
    + intros (cam & Hin & Hu).
      apply list_elem_of_lookup_1 in Hin as [i Hi]. exists i, cam.
      split; [done|]. by apply (masked_info_spec (Some ("RTSP Camera " +:+ pretty i))
                 "rtsp_" "rtsp" i cam).
  - unfold mjpeg_get_cameras.
    rewrite (proj1 (mapM_imap_spec mjpeg_info _)). split.
    + intros (i & cam & Hi & Hf). exists cam.
      split; [by eapply list_elem_of_lookup_2|].
      by apply (masked_info_spec (Some ("HTTP Camera " +:+ pretty i))
                 "mjpeg_" "mjpeg" i cam).
    + intros (cam & Hin & Hu).
      apply list_elem_of_lookup_1 in Hin as [i Hi]. exists i, cam.
      split; [done|]. by apply (masked_info_spec (Some ("HTTP Camera " +:+ pretty i))
                 "mjpeg_" "mjpeg" i cam).
  - intros infos Hinfos.
    destruct (proj2 (mapM_imap_spec rtsp_info _) infos Hinfos) as [Hlen Hall].
    split; [done|]. intros i cam Hi.
    destruct (Hall i cam Hi) as (info & Hf & Ho). exists info.
    split; [done|].
    destruct (proj2 (masked_info_spec (Some ("RTSP Camera " +:+ pretty i))
                 "rtsp_" "rtsp" i cam) info Hf)
      as (Ht & _ & Hid & [x Hx]).
    split; [done|]. split; [rewrite Hx; apply dispatch_rtsp|].
    intros z Hz. rewrite (Hid z Hz). split; [done|].
    destruct (find_camera_by_id "rtsp_" _ i cam z Hi Hz)
      as (cam' & Hfd & Hin & Hz').
    exists cam'. split; [done|]. split; [|done].
    by apply list_elem_of_filter in Hin as [_ Hin].
  - intros infos Hinfos.
    destruct (proj2 (mapM_imap_spec mjpeg_info _) infos Hinfos)
      as [Hlen Hall].
    split; [done|]. intros i cam Hi.
    destruct (Hall i cam Hi) as (info & Hf & Ho). exists info.
    split; [done|].
    destruct (proj2 (masked_info_spec (Some ("HTTP Camera " +:+ pretty i))
                 "mjpeg_" "mjpeg" i cam) info Hf)
      as (Ht & _ & Hid & [x Hx]).
    split; [done|]. split; [rewrite Hx; apply dispatch_mjpeg|].
    intros z Hz. rewrite (Hid z Hz). split; [done|].
    destruct (find_camera_by_id "mjpeg_" _ i cam z Hi Hz)
      as (cam' & Hfd & Hin & Hz').
    exists cam'. split; [done|]. split; [|done].
    by apply list_elem_of_filter in Hin as [_ Hin].
  - unfold onvif_get_cameras. by rewrite length_app, length_imap.
  - intros i cam Hi. eexists.
    split.
    { unfold onvif_get_cameras. rewrite lookup_app_l.
      - by rewrite list_lookup_imap, Hi.
      - rewrite length_imap. by eapply lookup_lt_Some. }
    cbn [camera_type id]. split; [done|]. split; [apply dispatch_onvif|].
    intros z Hz. rewrite Hz. cbn [get format]. split; [done|].
    destruct (find_camera_by_id "onvif_" _ i cam z Hi Hz)
      as (cam' & Hf & Hin & Hz').
    exists cam'. split; [done|]. split; [|done].
    by apply list_elem_of_filter in Hin as [_ Hin].
Qed.

Lemma custom_cameras_listed_and_found_witness :
  ∃ rtsp mjpeg onvif infos,
    load_custom_cameras three_cameras = (rtsp, mjpeg, onvif)
    ∧ length rtsp = 2%nat ∧ length mjpeg = 1%nat ∧ length onvif = 0%nat
    ∧ rtsp_get_cameras rtsp = Some infos
    ∧ id <$> infos = ["rtsp_4"; "rtsp_9"]
    ∧ url <$> infos = [Some "rtsp://192.168.1.10:554/stream1";
                       Some "rtsp://***@192.168.1.12/live"]
    ∧ listed "rtsp" rtsp_camera three_cameras rtsp infos.
Proof.
  destruct (custom_cameras_listed_and_found three_cameras [])
    as (rtsp & mjpeg & onvif & Hl & -> & -> & -> & _ & _ & Hr & _).
  destruct (rtsp_get_cameras (filter (filed_as "rtsp") three_cameras))
    as [infos|] eqn:Hi; [|vm_compute in Hi; discriminate Hi].
  destruct (Hr infos eq_refl) as [_ Hlisted].
  eexists _, _, _, infos. split; [exact Hl|].
  split; [reflexivity|]. split; [reflexivity|]. split; [reflexivity|].
  split; [exact Hi|].
  split; [|split; [|exact Hlisted]];
    vm_compute in Hi; injection Hi as <-; reflexivity.
Defined.

End CustomCamerasProofs.

(* ===================================================================== *)
(** ** Routes: the reward of a verified reset                            *)
(* ===================================================================== *)

Module ResetRouteProofs.
Import Datetime Gamification ResetRoute.
Import GamificationProofs GamificationMoreProofs GamificationDbProofs
       SpotsDbProofs.

Local Abbreviation gstate := GamificationDb.get_gamification_state.
Local Abbreviation unlocked_of := GamificationDb.achievements_unlocked.
Local Abbreviation xp_of := GamificationDb.s_xp_total.

Implicit Types (gam : list GamificationDb.row) (g : GamificationDb.row).

(** Every bonus of the catalogue is positive. *)
Lemma xp_bonus_pos (a : string) (ach : Achievement) :
  ACHIEVEMENTS !! a = Some ach → 0 < xp_bonus ach.
Proof.
  revert a ach. apply (map_Forall_lookup (λ _ ach, 0 < xp_bonus ach)).
  apply (bool_decide_unpack _). vm_compute. exact I.
Qed.

Lemma bonus_total_nonneg (ids : list string) : 0 ≤ bonus_total ids.
Proof.
  unfold bonus_total. induction ids as [|a ids IH]; [done|].
  cbn [fmap list_fmap foldr].
  destruct (ACHIEVEMENTS !! a) as [ach|] eqn:Ha; simpl; [|lia].
  pose proof (xp_bonus_pos a ach Ha). lia.
Qed.

Lemma bonus_total_snoc (ids : list string) (a : string) (ach : Achievement) :
  ACHIEVEMENTS !! a = Some ach →
  bonus_total (ids ++ [a]) = bonus_total ids + xp_bonus ach.
Proof.
  intros Ha. unfold bonus_total.
  induction ids as [|b ids IH]; cbn [app fmap list_fmap foldr].
  - rewrite Ha. simpl. lia.
  - rewrite IH. lia.
Qed.

Lemma bonus_total_cons (ids : list string) (a : string) (ach : Achievement) :
  ACHIEVEMENTS !! a = Some ach →
  bonus_total (a :: ids) = xp_bonus ach + bonus_total ids.
Proof. intros Ha. unfold bonus_total. cbn [fmap list_fmap foldr]. by rewrite Ha. Qed.

(** An achievement that checks is in the catalogue. *)
Lemma check_achievement_unlock_known (a : string) (ctx : Context) :
  check_achievement_unlock a ctx = true → is_Some (ACHIEVEMENTS !! a).
Proof.
  unfold check_achievement_unlock. by destruct (ACHIEVEMENTS !! a).
Qed.

(** The state read after each of the updates. *)
Lemma gstate_update_xp gam g st (amount : Z) (now : string) :
  head gam = Some g → gstate gam = Some st →
  ∃ st', gstate (GamificationDb.update_xp amount now gam) = Some st'
    ∧ is_Some (head (GamificationDb.update_xp amount now gam))
    ∧ xp_of st' = xp_of st + amount
    ∧ unlocked_of st' = unlocked_of st.
Proof.
  intros Hh Hs.
  destruct (state_of_row gam g Hh) as (info0 & _ & Hs0).
  rewrite Hs in Hs0. injection Hs0 as ->.
  pose proof (head_update_xp amount now gam) as Hh'. rewrite Hh in Hh'.
  destruct (state_of_row _ _ Hh') as (info & _ & Hs').
  eexists. split; [exact Hs'|]. split; [by rewrite Hh'|]. done.
Qed.

Lemma gstate_update_achievements gam g st (l : list string) (now : string) :
  head gam = Some g → gstate gam = Some st →
  ∃ st', gstate (GamificationDb.update_achievements l now gam) = Some st'
    ∧ is_Some (head (GamificationDb.update_achievements l now gam))
    ∧ xp_of st' = xp_of st
    ∧ unlocked_of st' = l.
Proof.
  intros Hh Hs.
  destruct (state_of_row gam g Hh) as (info0 & _ & Hs0).
  rewrite Hs in Hs0. injection Hs0 as ->.
  pose proof (head_update_achievements l now gam) as Hh'. rewrite Hh in Hh'.
  destruct (state_of_row _ _ Hh') as (info & _ & Hs').
  eexists. split; [exact Hs'|]. split; [by rewrite Hh'|]. done.
Qed.

Lemma gstate_update_session gam g st (c : Z) (today now : string) :
  head gam = Some g → gstate gam = Some st →
  ∃ st', gstate (GamificationDb.update_session c today now gam) = Some st'
    ∧ is_Some (head (GamificationDb.update_session c today now gam))
    ∧ xp_of st' = xp_of st
    ∧ unlocked_of st' = unlocked_of st.
Proof.
  intros Hh Hs.
  destruct (state_of_row gam g Hh) as (info0 & _ & Hs0).
  rewrite Hs in Hs0. injection Hs0 as ->.
  pose proof (head_update_session c today now gam) as Hh'. rewrite Hh in Hh'.
  destruct (state_of_row _ _ Hh') as (info & _ & Hs').
  eexists. split; [exact Hs'|]. split; [by rewrite Hh'|]. done.
Qed.

Lemma gstate_level gam st :
  gstate gam = Some st → is_Some (head gam) →
  ∃ info, calculate_level (xp_of st) = Some info
          ∧ GamificationDb.s_level st = li_level info.
Proof.
  intros Hs [g Hh].
  destruct (state_of_row gam g Hh) as (info & Hi & Hs0).
  rewrite Hs in Hs0. injection Hs0 as ->. by exists info.
Qed.

Section Loop.
Variables (clock : nat → string) (today : string) (local : nat → datetime).
Variables (minutes_since_check : option Z).
Variables (updated_spot : Spot.t) (session_resets : Z).

(** The loop over the achievements never raises; it appends the ones it
    unlocks and adds their bonuses, in the response and in the table. *)
Lemma achievement_loop_spec (ids : list string) :
  ∀ (k : nat) gam st (unlocked : list string) (xp : Z),
    is_Some (head gam) → gstate gam = Some st →
    ∃ gam' new st',
      achievement_loop clock local minutes_since_check ids k updated_spot
        session_resets gam unlocked xp
      = Some (gam', unlocked ++ new, xp + bonus_total new)
      ∧ is_Some (head gam') ∧ gstate gam' = Some st'
      ∧ xp_of st' = xp_of st + bonus_total new
      ∧ unlocked_of st' = unlocked_of st ++ new
      ∧ (NoDup (unlocked_of st) → NoDup (unlocked_of st'))
      ∧ (∀ a, a ∈ new → a ∈ ids ∧ a ∉ unlocked_of st)
      ∧ ∀ (i : nat) a, ids !! i = Some a →
          check_achievement_unlock a
            (mk_context (Spot.current_streak updated_spot)
               (Spot.total_resets updated_spot) (Some (local (k + i)%nat))
               minutes_since_check 0 session_resets 0) = true →
          a ∈ unlocked_of st'.
Proof.
  induction ids as [|a ids IH]; intros k gam st unlocked xp Hh Hs.
  - exists gam, [], st. cbn [achievement_loop bonus_total fmap list_fmap foldr].
    rewrite app_nil_r, Z.add_0_r, app_nil_r.
    split; [done|]. split; [done|]. split; [done|]. split; [lia|].
    split; [done|]. split; [done|].
    split; [by intros a' ?%elem_of_nil|]. by intros i a'.
  - cbn [achievement_loop].
    destruct (check_achievement_unlock a _) eqn:Hcheck.
    + destruct Hh as [g Hh].
      unfold GamificationDb.unlock_achievement. rewrite Hs.
      cbn [mbind option_bind].
      case_bool_decide as Hin; cbn [mbind option_bind].
      * (* already unlocked *)
        destruct (IH (S k) gam st unlocked xp (ex_intro _ g Hh) Hs)
          as (gam' & new & st' & Hl & Hh' & Hs' & Hxp & Hun & Hnd & Hnew
              & Hpos).
        exists gam', new, st'. split; [done|]. split; [done|].
        split; [done|]. split; [done|]. split; [done|]. split; [done|].
        split.
        { intros b Hb. destruct (Hnew b Hb). split; [by right|done]. }
        intros [|i] b Hi Hb.
        -- cbn in Hi. injection Hi as <-. rewrite Hun.
           apply elem_of_app. by left.
        -- cbn in Hi. apply (Hpos i b Hi).
           by rewrite <- Nat.add_succ_comm in Hb.
      * (* newly unlocked *)
        destruct (check_achievement_unlock_known _ _ Hcheck) as [ach Hach].
        rewrite Hach. cbn [mbind option_bind].
        destruct (gstate_update_achievements gam g st
                    (unlocked_of st ++ [a]) (clock (3 + 2 * k)%nat) Hh Hs)
          as (st1 & Hs1 & [g1 Hh1] & Hxp1 & Hun1).
        destruct (gstate_update_xp _ g1 st1 (xp_bonus ach)
                    (clock (4 + 2 * k)%nat) Hh1 Hs1)
          as (st2 & Hs2 & Hh2 & Hxp2 & Hun2).
        unfold GamificationDb.add_xp. cbn [fst snd]. rewrite Hs2.
        cbn [mbind option_bind].
        destruct (IH (S k) _ st2 (unlocked ++ [a]) (xp + xp_bonus ach)
                    Hh2 Hs2)
          as (gam' & new & st' & Hl & Hh' & Hs' & Hxp & Hun & Hnd & Hnew
              & Hpos).
        exists gam', (a :: new), st'.
        split.
        { rewrite Hl. rewrite <- app_assoc. cbn [app].
          rewrite (bonus_total_cons new a ach Hach).
          by rewrite Z.add_assoc. }
        split; [done|]. split; [done|].
        split.
        { rewrite Hxp, Hxp2, Hxp1, (bonus_total_cons new a ach Hach). lia. }
        split.
        { rewrite Hun, Hun2, Hun1, <- app_assoc. done. }
        split.
        { intros Hnd0. apply Hnd. rewrite Hun2, Hun1.
          apply NoDup_app. split; [done|].
          split; [|apply NoDup_singleton].
          intros x Hx ->%list_elem_of_singleton. done. }
        split.
        { intros b [->|Hb]%elem_of_cons.
          - split; [by left|done].
          - destruct (Hnew b Hb) as [Hb1 Hb2]. split; [by right|].
            rewrite Hun2, Hun1 in Hb2. intros Hb3. apply Hb2.
            apply elem_of_app. by left. }
        intros [|i] b Hi Hb.
        -- cbn in Hi. injection Hi as <-. rewrite Hun, Hun2, Hun1.
           apply elem_of_app. left. apply elem_of_app. right.
           by apply list_elem_of_singleton.
        -- cbn in Hi. apply (Hpos i b Hi).
           by rewrite <- Nat.add_succ_comm in Hb.
    + destruct (IH (S k) gam st unlocked xp Hh Hs)
        as (gam' & new & st' & Hl & Hh' & Hs' & Hxp & Hun & Hnd & Hnew
            & Hpos).
      exists gam', new, st'. split; [done|]. split; [done|].
      split; [done|]. split; [done|]. split; [done|]. split; [done|].
      split.
      { intros b Hb. destruct (Hnew b Hb). split; [by right|done]. }
      intros [|i] b Hi Hb.
      * cbn in Hi. injection Hi as <-. rewrite Nat.add_0_r in Hb. congruence.
      * cbn in Hi. apply (Hpos i b Hi).
        by rewrite <- Nat.add_succ_comm in Hb.
Qed.

End Loop.

(** X19. A reset verified as tidy, on a stored spot and with the
    gamification row in place: the response reports the streak raised by
    1 and the XP earned, which is the reset reward for the new streak
    plus the bonuses of the achievements unlocked in this call; the
    stored XP grows by exactly the XP reported and the stored
    achievements by exactly those reported, none of them twice.  The
    level reported is the level before the achievement bonuses are
    added, so it is at most the level of the stored XP.  With a
    non-negative streak at least 75 XP are earned, and after any reset
    of a spot with a non-negative reset count "first_blood" is
    unlocked. *)
Theorem reset_spot_rewards
    (clock : nat → string) (today : string) (local : nat → datetime)
    (minutes_since_check : option Z) (the_check_id : Z)
    (spots : list SpotsDb.row) (r : SpotsDb.row)
    (gam : list GamificationDb.row) :
  NoDup (SpotsDb.id <$> spots) → r ∈ spots →
  is_Some (SpotsDb._row_to_spot r) → is_Some (head gam) →
  ∃ resp spots' gam' st st' info,
    reset_spot_sorted clock today local (SpotsDb.id r) minutes_since_check
      the_check_id spots gam = Some (resp, spots', gam')
    ∧ SpotsDb.record_reset (SpotsDb.id r) (clock 0%nat) spots = Some spots'
    ∧ gstate gam = Some st ∧ gstate gam' = Some st'
    ∧ status resp = "sorted" ∧ check_id resp = the_check_id
    ∧ new_streak resp = SpotsDb.current_streak r + 1
    ∧ xp_earned resp
      = calculate_xp_for_action "reset" (new_streak resp) minutes_since_check
        + bonus_total (achievements_unlocked resp)
    ∧ xp_of st' = xp_of st + xp_earned resp
    ∧ unlocked_of st' = unlocked_of st ++ achievements_unlocked resp
    ∧ (NoDup (unlocked_of st) → NoDup (unlocked_of st'))
    ∧ (∀ a, a ∈ achievements_unlocked resp →
            a ∈ candidates ∧ a ∉ unlocked_of st)
    ∧ calculate_level
        (xp_of st + calculate_xp_for_action "reset" (new_streak resp)
                      minutes_since_check) = Some info
    ∧ level resp = li_level info
    ∧ level resp ≤ GamificationDb.s_level st'
    ∧ (0 ≤ SpotsDb.current_streak r → 75 ≤ xp_earned resp)
    ∧ (0 ≤ SpotsDb.total_resets r → "first_blood" ∈ unlocked_of st').
Proof.
  intros Hnd Hin Hok [g Hh].
  destruct (record_reset_row spots r (clock 0%nat) Hnd Hin Hok)
    as (spots' & r' & Hrr & Hin' & Hids & _ & Hr').
  assert (Hnd' : NoDup (SpotsDb.id <$> spots')) by by rewrite Hids.
  destruct (row_to_spot_sorted r') as [spot' Hspot']; [by rewrite Hr'|].
  destruct (get_spot_row spots' r' spot' Hnd' Hin' Hspot')
    as (Hg' & _ & _ & _ & _ & Hcur' & _ & Htot' & _ & _).
  assert (Hid' : SpotsDb.id r' = SpotsDb.id r) by by rewrite Hr'.
  rewrite Hid' in Hg'.
  assert (Hcur : Spot.current_streak spot' = SpotsDb.current_streak r + 1)
    by by rewrite Hcur', Hr'.
  assert (Htot : Spot.total_resets spot' = SpotsDb.total_resets r + 1)
    by by rewrite Htot', Hr'.
  destruct (state_of_row gam g Hh) as (info0 & _ & Hs).
  set (base := calculate_xp_for_action "reset" (Spot.current_streak spot')
                 minutes_since_check).
  destruct (gstate_update_xp gam g _ base (clock 1%nat) Hh Hs)
    as (st1 & Hs1 & [g1 Hh1] & Hxp1 & Hun1).
  destruct (gstate_level _ _ Hs1 (ex_intro _ g1 Hh1)) as (info & Hinfo & Hlev).
  set (session := GamificationDb.increment_session_resets (clock 2%nat) today
                    (GamificationDb.update_xp base (clock 1%nat) gam)).
  destruct (gstate_update_session _ g1 st1 session.1 today (clock 2%nat)
              Hh1 Hs1)
    as (st2 & Hs2 & Hh2 & Hxp2 & Hun2).
  destruct (achievement_loop_spec clock local minutes_since_check spot'
              session.1 candidates 0 _ st2 [] base Hh2 Hs2)
    as (gam' & new & st' & Hl & Hh' & Hs' & Hxp & Hun & Hndl & Hnew & Hpos).
  eexists (mk_response _ _ _ _ _ _ _), spots', gam', _, st', info.
  split.
  { unfold reset_spot_sorted. rewrite Hrr. cbn [mbind option_bind].
    rewrite Hg'. cbn [mbind option_bind].
    unfold GamificationDb.add_xp. cbn [fst snd]. fold base.
    rewrite Hs1. cbn [mbind option_bind].
    change (GamificationDb.increment_session_resets (clock 2%nat) today
              (GamificationDb.update_xp base (clock 1%nat) gam))
      with session.
    change session.2
      with (GamificationDb.update_session session.1 today (clock 2%nat)
              (GamificationDb.update_xp base (clock 1%nat) gam)).
    rewrite Hl. cbn [mbind option_bind app]. reflexivity. }
  split; [done|]. split; [exact Hs|]. split; [exact Hs'|].
  cbn [status check_id new_streak xp_earned achievements_unlocked level].
  split; [done|]. split; [done|]. split; [done|].
  split; [done|].
  split; [rewrite Hxp, Hxp2, Hxp1; cbn; lia|].
  split; [by rewrite Hun, Hun2, Hun1|].
  split; [intros Hnd0; apply Hndl; by rewrite Hun2, Hun1|].
  split.
  { intros a Ha. destruct (Hnew a Ha) as [H1 H2].
    split; [done|]. by rewrite Hun2, Hun1 in H2. }
  split; [rewrite Hxp1 in Hinfo; exact Hinfo|]. split; [done|].
  split.
  { destruct (gstate_level _ _ Hs' Hh') as (info' & Hinfo' & ->).
    rewrite Hlev. eapply calculate_level_mono; [|exact Hinfo|exact Hinfo'].
    rewrite Hxp, Hxp2. pose proof (bonus_total_nonneg new). lia. }
  split.
  { intros Hstreak. pose proof (bonus_total_nonneg new) as Hb.
    assert (75 ≤ base); [|lia].
    unfold base, calculate_xp_for_action. rewrite Hcur.
    change (XP_REWARDS !!! "streak_day") with 25.
    change (default 0 (XP_REWARDS !! "reset")) with 50.
    change (bool_decide ("reset" = "reset")) with true. cbn [andb].
    destruct minutes_since_check; split_decides; lia. }
  intros Htotal.
  apply (Hpos 0%nat "first_blood" eq_refl).
  rewrite (proj1 (unlock_conditions _)). cbn [total_resets].
  rewrite Htot. apply Z.leb_le. lia.
Qed.

Lemma reset_spot_rewards_witness :
  ∃ resp spots' gam',
    reset_spot_sorted sample_clock "2024-01-03"
      (λ _, at_hour 2024 1 3 9) 1 (Some 4) 17 SpotsDb.two_spots
      GamificationDb.fresh_table = Some (resp, spots', gam')
    ∧ new_streak resp = 3
    ∧ achievements_unlocked resp = ["first_blood"; "streak_3"; "speed_demon"]
    ∧ xp_earned resp = 175 + (50 + 75 + 100)
    ∧ level resp = 1
    ∧ (GamificationDb.xp_total <$> head gam') = Some 400.
Proof.
  destruct (reset_spot_rewards sample_clock "2024-01-03"
              (λ _, at_hour 2024 1 3 9) (Some 4) 17 SpotsDb.two_spots
              (SpotsDb.mk_row 1 "Desk" "camera.desk" "Clear desk" "work"
                 "supportive" None None "2024-01-01T09:00:00"
                 "needs_attention" None 2 5 None 7 None None None (Some 0)
                 None)
              GamificationDb.fresh_table two_spots_ids)
    as (resp & spots' & gam' & st & st' & info & Hrun & _).
  - apply list_elem_of_here.
  - vm_compute. by eexists.
  - vm_compute. by eexists.
  - exists resp, spots', gam'. split; [exact Hrun|].
    vm_compute in Hrun. injection Hrun as <- <- <-.
    repeat split; reflexivity.
Defined.

End ResetRouteProofs.

(* ===================================================================== *)
(** ** Routes: API tokens over HTTP                                      *)
(* ===================================================================== *)

Module AuthRoutesProofs.
Import Database AuthRoutes.
Import DatabaseProofs CameraUrlsProofs TokenProofs.

Implicit Types (t : list token_row) (row : token_row).

Lemma truthy_Some (s : string) : truthy (Some s) = true ↔ s ≠ "".
Proof. destruct s; cbn; split; done. Qed.

(** A header of the form "Bearer " + padded token reaches the database
    with the token. *)
Lemma verify_token_bearer (pad now : string) t :
  Unicode.strip pad ≠ "" →
  verify_token (Some ("Bearer " +:+ pad)) now t
  = ((mk_verified (verify_api_token now (Unicode.strip pad) t).1
        (if (verify_api_token now (Unicode.strip pad) t).1
         then "Token is valid" else "Token is invalid or revoked")),
     (verify_api_token now (Unicode.strip pad) t).2).
Proof.
  intros Hne. unfold verify_token.
  change (truthy (Some ("Bearer " +:+ pad))) with true.
  cbn [negb default from_option]. unfold Datatypes.id, Camera.startswith. rewrite (prefix_app "Bearer " pad).
  cbn [negb].
  change 7%nat with (String.length "Bearer "). rewrite (drop_app "Bearer " pad).
  rewrite (proj2 (truthy_Some _) Hne). cbn [negb].
  by destruct (verify_api_token now (Unicode.strip pad) t).
Qed.



End AuthRoutesProofs.
